(** * The Calico datastore adapter ([node/adapter/datastore.py])

    A shallow embedding of the adapter that maps the etcd key space onto
    hosts, endpoints, profiles and IP pools, and the properties of it that
    the specification states.

    Layout of the development:
    - [Py]: the fragment of Python the module relies on (exceptions, a
      state-and-exception monad, [str.split], JSON documents);
    - [Netaddr]: the addresses and networks of the third-party [netaddr]
      package as values, and an interface, [AddrText], for their text;
    - [Etcd]: a model of the [python-etcd] client the adapter drives;
    - [Datastore]: the embedding of [datastore.py] itself;
    - the theorems, one block per property. *)

From Stdlib Require Import Ascii String NArith ZArith DecimalString HexadecimalString DecimalN HexadecimalN.
From stdpp Require Import gmap strings list fin_maps.

Set Warnings "-register-all".
#[local] Open Scope string_scope.

(* ===================================================================== *)
(** * Python fragment *)
(* ===================================================================== *)

Module Py.

(** The exception classes that can cross the adapter.  [KeyError] carries
    its message: the store's own not-found error and the adapter's
    re-raised errors are the same class and differ by message only. *)
Inductive exn :=
  | KeyError (msg : string)
  | AddrFormatError
  | AssertionError
  | ValueError
  | TypeError
  | StopIteration
  | NotModelled   (* raised where the model does not cover the behaviour *).

Inductive result (A : Type) :=
  | Ok (a : A)
  | Raise (e : exn).
Arguments Ok {A} a.
Arguments Raise {A} e.

Definition rbind {A B} (r : result A) (k : A → result B) : result B :=
  match r with
  | Ok a => k a
  | Raise e => Raise e
  end.

Definition is_ok {A} (r : result A) : bool :=
  match r with Ok _ => true | Raise _ => false end.

(** [for x in l: acc = f(acc, x)] where [f] may raise. *)
Fixpoint foldlM {A B} (f : B → A → result B) (acc : B) (l : list A) : result B :=
  match l with
  | [] => Ok acc
  | x :: l' => rbind (f acc x) (λ acc', foldlM f acc' l')
  end.

(** ** Strings *)

(** [s.split(sep)] for a one-character separator. *)
Fixpoint split (sep : ascii) (s : string) : list string :=
  match s with
  | EmptyString => [EmptyString]
  | String c s' =>
      if Ascii.eqb c sep then EmptyString :: split sep s'
      else match split sep s' with
           | [] => [String c EmptyString]
           | p :: ps => String c p :: ps
           end
  end.

(** [s.split(sep, maxsplit)]. *)
Fixpoint splitn (sep : ascii) (maxsplit : nat) (s : string) : list string :=
  match s with
  | EmptyString => [EmptyString]
  | String c s' =>
      match maxsplit with
      | O => [s]
      | S m =>
          if Ascii.eqb c sep then EmptyString :: splitn sep m s'
          else match splitn sep maxsplit s' with
               | [] => [String c EmptyString]
               | p :: ps => String c p :: ps
               end
      end
  end.

(** [sep.join(l)]. *)
Fixpoint join (sep : string) (l : list string) : string :=
  match l with
  | [] => ""
  | [x] => x
  | x :: l' => x ++ sep ++ join sep l'
  end.

(** [c in s]. *)
Fixpoint contains (c : ascii) (s : string) : bool :=
  match s with
  | EmptyString => false
  | String c' s' => Ascii.eqb c' c || contains c s'
  end.

(** [s[n:]]. *)
Fixpoint drop_chars (n : nat) (s : string) : string :=
  match n, s with
  | O, _ => s
  | S n', String _ s' => drop_chars n' s'
  | S _, EmptyString => EmptyString
  end.

(** [s.startswith(p)]. *)
Definition startswith (p s : string) : bool := String.prefix p s.

(** [s.rstrip("/")]. *)
Fixpoint rstrip_slash (s : string) : string :=
  match s with
  | EmptyString => EmptyString
  | String c s' =>
      match rstrip_slash s' with
      | EmptyString => if Ascii.eqb c "/" then EmptyString else String c EmptyString
      | r => String c r
      end
  end.

(** ** JSON documents

    The value [json.loads] returns and [json.dumps] accepts.  A JSON object
    is a Python [dict] with string keys, so two objects are equal exactly
    when they hold the same keys with the same values. *)
Inductive json :=
  | JNull
  | JBool (b : bool)
  | JNum (n : Z)
  | JStr (s : string)
  | JArr (l : list json)
  | JObj (m : gmap string json).

(** Truthiness of a value that came out of JSON ([if x:]). *)
Definition truthy (j : json) : bool :=
  match j with
  | JNull => false
  | JBool b => b
  | JNum n => negb (n =? 0)%Z
  | JStr s => negb (String.eqb s "")
  | JArr l => match l with [] => false | _ => true end
  | JObj m => negb (bool_decide (m = ∅))
  end.

(** A string held by the store.  The text [json.dumps] produces and
    [json.loads] reads back is represented by the document itself
    ([JsonText]); every other string is [Text].  [json.loads] of a document
    text gives the document back; a [Text] is not a document. *)
Inductive text :=
  | Text (s : string)
  | JsonText (j : json).

Definition json_dumps (j : json) : text := JsonText j.

Definition json_loads (t : text) : result json :=
  match t with
  | JsonText j => Ok j
  | Text _ => Raise ValueError
  end.

(** [d[k]] on a dict that came out of JSON. *)
Definition getitem (d : gmap string json) (k : string) : result json :=
  match d !! k with
  | Some v => Ok v
  | None => Raise (KeyError k)
  end.

End Py.
Import Py.

(* ===================================================================== *)
(** * The [netaddr] package *)
(* ===================================================================== *)

(** [netaddr] is a third-party package, not part of the repository.  The
    adapter uses its addresses and networks in two ways.

    As values: an address or a network is an integer with a version (and a
    prefix length), with truthiness, equality and [IPNetwork.cidr] defined
    on the integer.  This side is modelled below as it is.

    As text: [IPAddress(s)] and [IPNetwork(s)] read a string, [str] prints
    one.  Which strings the package accepts, and which of the spellings of
    a value [str] chooses, is the package's business; the adapter only
    passes the strings on.  This side is an interface, [AddrText], with
    the laws the adapter relies on: [str] followed by the constructor
    gives the value back.  Every theorem on the adapter holds for every notation that
    obeys the laws, the package's own included.  [full_notation] further down
    is one such notation, dotted quads and colon-hex with all groups
    written; the examples are computed with it. *)
Module Netaddr.

Inductive ipver := IPv4 | IPv6.

#[global] Instance ipver_eq_dec : EqDecision ipver.
Proof. solve_decision. Defined.

Definition width (v : ipver) : N :=
  match v with IPv4 => 32 | IPv6 => 128 end.

Record IPAddress := mkAddr { addr_version : ipver; addr_value : N }.
Record IPNetwork := mkNet { net_version : ipver; net_value : N; net_prefixlen : N }.

#[global] Instance IPAddress_eq_dec : EqDecision IPAddress.
Proof. solve_decision. Defined.
#[global] Instance IPNetwork_eq_dec : EqDecision IPNetwork.
Proof. solve_decision. Defined.

(** The objects the package can build: the value fits the version's width. *)
Definition addr_wf (a : IPAddress) : Prop :=
  (addr_value a < 2 ^ width (addr_version a))%N.
Definition net_wf (n : IPNetwork) : Prop :=
  (net_value n < 2 ^ width (net_version n))%N ∧
  (net_prefixlen n ≤ width (net_version n))%N.

(** ** Text

    [IPAddress(s)], [str(a)], [IPNetwork(s)] and [str(n)] for strings, and
    what the adapter relies on: a printed address or network reads back as
    itself, a printed value is not the empty string (it is true where the
    adapter tests a text with [if]), and the error of a network text that
    is refused is no [KeyError] (it is [AddrFormatError], or [ValueError]
    for some spellings). *)
Class AddrText := {
  IPAddress_of : string → result IPAddress;
  IPAddress_str : IPAddress → string;
  IPNetwork_of : string → result IPNetwork;
  IPNetwork_str : IPNetwork → string;
  IPAddress_of_str : ∀ a, addr_wf a → IPAddress_of (IPAddress_str a) = Ok a;
  IPNetwork_of_str : ∀ n, net_wf n → IPNetwork_of (IPNetwork_str n) = Ok n;
  IPAddress_str_nonempty : ∀ a, addr_wf a → IPAddress_str a ≠ "";
  IPNetwork_str_nonempty : ∀ n, net_wf n → IPNetwork_str n ≠ "";
  IPNetwork_of_no_KeyError : ∀ s msg, IPNetwork_of s ≠ Raise (KeyError msg)
}.

(** ** Values *)

(** [IPAddress(n)] for an integer: IPv4 when it fits 32 bits, IPv6 when it
    fits 128. *)
Definition IPAddress_of_int (n : Z) : result IPAddress :=
  if bool_decide (0 ≤ n < 2 ^ 32)%Z then Ok (mkAddr IPv4 (Z.to_N n))
  else if bool_decide (2 ^ 32 ≤ n < 2 ^ 128)%Z then Ok (mkAddr IPv6 (Z.to_N n))
  else Raise AddrFormatError.

(** [bool(a)]: an address is true when its numerical value is not zero. *)
Definition IPAddress_bool (a : IPAddress) : bool :=
  negb (addr_value a =? 0)%N.

Definition hostbits (n : IPNetwork) : N := (width (net_version n) - net_prefixlen n)%N.

(** [n.first] and [n.last], the bounds of the range the network covers. *)
Definition first (n : IPNetwork) : N :=
  N.shiftl (N.shiftr (net_value n) (hostbits n)) (hostbits n).
Definition last (n : IPNetwork) : N :=
  (first n + (2 ^ hostbits n - 1))%N.

(** [n.cidr]: the same prefix with the host bits cleared. *)
Definition cidr (n : IPNetwork) : IPNetwork :=
  mkNet (net_version n) (first n) (net_prefixlen n).

(** [n.key()], on which [==] and [hash] of networks are defined. *)
Definition key (n : IPNetwork) : ipver * N * N := (net_version n, first n, last n).

Definition IPNetwork_eqb (a b : IPNetwork) : bool := bool_decide (key a = key b).

(** A Python [set] of networks: no two members are equal under [==].  The
    members are listed in the order they were added; Python promises no
    order when a set is iterated, so what is said below of a list built
    from a set is said up to the order of its entries. *)
Definition netset : Type := list IPNetwork.

(** [n in s]. *)
Definition netset_mem (n : IPNetwork) (s : netset) : bool :=
  existsb (IPNetwork_eqb n) s.

(** [s.add(n)]: a member equal to [n] is kept and [n] is dropped. *)
Definition netset_add (s : netset) (n : IPNetwork) : netset :=
  if netset_mem n s then s else (s ++ [n])%list.

(** [a | b]. *)
Definition netset_union (a b : netset) : netset := foldl netset_add a b.

(** [a == b]: the same members. *)
Definition netset_eq (a b : netset) : Prop :=
  ∀ n, netset_mem n a = netset_mem n b.

Fixpoint netset_wf (s : netset) : Prop :=
  match s with
  | [] => True
  | n :: s' => netset_mem n s' = false ∧ netset_wf s'
  end.

(** ** One notation: all groups written

    Dotted quads for IPv4; for IPv6 the eight groups in hexadecimal,
    read with an optional [::] and printed without one.  This is not the
    package's notation: the package reads more strings (short IPv4 forms
    such as [10.1], IPv4 tails in IPv6) and prints an IPv6 value in its
    compact spelling.  The two agree on dotted quads without leading
    zeros, read or printed, and on the value read from an IPv6 text of
    at most four hexadecimal digits a group.  The notation shows that the
    laws of [AddrText] can be met, and the examples are computed with it
    on such texts: dotted quads, or IPv6 texts that are read and never
    printed. *)

(** *** Groups of an address *)

Definition dec (n : N) : string := DecimalString.NilZero.string_of_uint (N.to_uint n).
Definition undec (s : string) : option N :=
  N.of_uint <$> DecimalString.NilZero.uint_of_string s.
Definition hex (n : N) : string :=
  HexadecimalString.NilZero.string_of_uint (N.to_hex_uint n).
Definition unhex (s : string) : option N :=
  N.of_hex_uint <$> HexadecimalString.NilZero.uint_of_string s.

(** The [count] groups of [v] in base [base], most significant first. *)
Fixpoint groups (base : N) (count : nat) (v : N) : list N :=
  match count with
  | O => []
  | S c => (groups base c (v / base) ++ [(v mod base)%N])%list
  end.

Definition ungroups (base : N) (l : list N) : N :=
  foldl (λ acc g, (acc * base + g)%N) 0%N l.

Definition read_group (rd : string → option N) (base : N) (s : string) : option N :=
  match rd s with
  | Some n => if (n <? base)%N then Some n else None
  | None => None
  end.

Definition read_groups (rd : string → option N) (base : N) (count : nat)
    (parts : list string) : option N :=
  match mapM (read_group rd base) parts with
  | Some gs => if Nat.eqb (length gs) count then Some (ungroups base gs) else None
  | None => None
  end.

(** *** IPv4 text *)

Definition full_ipv4_str (v : N) : string := join "." (dec <$> groups 256 4 v).
Definition full_ipv4_of (s : string) : option N :=
  read_groups undec 256 4 (split "." s).

(** *** IPv6 text *)

Definition full_ipv6_str (v : N) : string := join ":" (hex <$> groups 65536 8 v).

(** A text that starts (or ends) with [::] splits into two empty parts
    there; one of them is the gap, the other is dropped.  A single leading
    or trailing colon is malformed. *)
Definition strip_head (parts : list string) : option (list string) :=
  match parts with
  | "" :: "" :: r => Some ("" :: r)
  | "" :: _ => None
  | _ => Some parts
  end.

Definition strip_tail (parts : list string) : option (list string) :=
  reverse <$> strip_head (reverse parts).

(** Split the parts at the first gap. *)
Fixpoint break_gap (parts : list string) : list string * option (list string) :=
  match parts with
  | [] => ([], None)
  | p :: r =>
      if String.eqb p "" then ([], Some r)
      else let '(b, a) := break_gap r in (p :: b, a)
  end.

Definition expand_gap (parts : list string) : option (list string) :=
  match break_gap parts with
  | (b, None) => Some b
  | (b, Some a) =>
      if existsb (String.eqb "") a then None
      else if Nat.ltb (length b + length a) 8
      then Some (b ++ replicate (8 - (length b + length a)) "0" ++ a)%list
      else None
  end.

Definition full_ipv6_of (s : string) : option N :=
  match strip_head (split ":" s) with
  | Some p1 =>
      match strip_tail p1 with
      | Some p2 =>
          match expand_gap p2 with
          | Some p3 => read_groups unhex 65536 8 p3
          | None => None
          end
      | None => None
      end
  | None => None
  end.

(** *** Addresses *)

Definition full_int_str (v : ipver) (x : N) : string :=
  match v with
  | IPv4 => full_ipv4_str x
  | IPv6 => full_ipv6_str x
  end.

(** The version of an address text is found by trying IPv4 first, then
    IPv6. *)
Definition full_detect (s : string) : option IPAddress :=
  match full_ipv4_of s with
  | Some x => Some (mkAddr IPv4 x)
  | None =>
      match full_ipv6_of s with
      | Some x => Some (mkAddr IPv6 x)
      | None => None
      end
  end.

(** Reading an address, with no version given.  A text with a slash is
    refused with [ValueError]; any other text that is not an address
    raises [AddrFormatError]. *)
Definition full_IPAddress_of (s : string) : result IPAddress :=
  if contains "/" s then Raise ValueError
  else match full_detect s with
       | Some a => Ok a
       | None => Raise AddrFormatError
       end.

Definition full_IPAddress_str (a : IPAddress) : string :=
  full_int_str (addr_version a) (addr_value a).

(** *** Networks *)

Definition read_prefixlen (v : ipver) (s : string) : option N :=
  match undec s with
  | Some p => if (p <=? width v)%N then Some p else None
  | None => None
  end.

(** Reading a network, [address] or [address/prefixlen]. *)
Definition full_IPNetwork_of (s : string) : result IPNetwork :=
  match split "/" s with
  | [a] =>
      match full_detect a with
      | Some ip => Ok (mkNet (addr_version ip) (addr_value ip) (width (addr_version ip)))
      | None => Raise AddrFormatError
      end
  | [a; p] =>
      match full_detect a with
      | Some ip =>
          match read_prefixlen (addr_version ip) p with
          | Some len => Ok (mkNet (addr_version ip) (addr_value ip) len)
          | None => Raise AddrFormatError
          end
      | None => Raise AddrFormatError
      end
  | _ => Raise AddrFormatError
  end.

(** The address as given, host bits included, and the prefix. *)
Definition full_IPNetwork_str (n : IPNetwork) : string :=
  full_int_str (net_version n) (net_value n) ++ "/" ++ dec (net_prefixlen n).

End Netaddr.
Import Netaddr.


(* ===================================================================== *)
(** * The [python-etcd] client *)
(* ===================================================================== *)

(** [python-etcd] and the etcd server behind it are not part of the
    repository.  This module models the client calls the adapter makes, on
    a key space held as a finite map from normalised keys to what they
    hold: [Some v] for a key with value [v], [None] for a directory that
    was created explicitly.  A directory also exists as soon as a key lies
    under it.  The client raises [KeyError] for a key that is not found. *)
Module Etcd.

Record store := mkStore {
  nodes : gmap string (option text);
  index : N   (* the counter in-order keys are named after *)
}.

(** An operation on the store: it returns or raises, and leaves a store
    behind in both cases. *)
Definition M (A : Type) : Type := store → result A * store.

Definition ret {A} (a : A) : M A := λ s, (Ok a, s).
Definition raise {A} (e : exn) : M A := λ s, (Raise e, s).
Definition bind {A B} (m : M A) (k : A → M B) : M B :=
  λ s, match m s with
       | (Ok a, s') => k a s'
       | (Raise e, s') => (Raise e, s')
       end.
(** [try: m  except KeyError: h]. *)
Definition except_KeyError {A} (m : M A) (h : M A) : M A :=
  λ s, match m s with
       | (Raise (KeyError _), s') => h s'
       | r => r
       end.
(** Lift a computation that does not touch the store. *)
Definition lift {A} (r : result A) : M A := λ s, (r, s).

(** A node of a response: its key and, for a key that holds one, its value. *)
Abbreviation node := (string * option text)%type.

(** [EtcdResult]: the node read and the nodes below it in the response. *)
Record EtcdResult := mkResult {
  key : string;
  value : option text;
  below : list node
}.

(** [result.leaves] (and [result.children], its older name): the nodes of
    the response that have nothing below them; a response with no child
    nodes yields the node read itself. *)
Definition leaves (r : EtcdResult) : list node :=
  match below r with
  | [] => [(key r, value r)]
  | l => l
  end.
Definition children (r : EtcdResult) : list node := leaves r.

Definition is_under (dir k : string) : bool := startswith (dir ++ "/") k.

(** The entries of the key space that lie under [dir]. *)
Definition descendants (dir : string) (s : store) : list node :=
  filter (λ n, is_under dir n.1 = true) (map_to_list (nodes s)).

(** The nodes of a recursive listing that have nothing below them: every
    key with a value, and every explicit directory that is empty. *)
Definition leaf_nodes (sub : list node) : list node :=
  filter (λ n, is_Some n.2 ∨ Forall (λ m, is_under n.1 m.1 = false) sub) sub.

(** The key directly below [dir] on the way to the key [k] under it. *)
Definition child_key (dir k : string) : string :=
  dir ++ "/" ++ hd "" (split "/" (drop_chars (String.length dir + 1) k)).

(** The node at a key: its value when it holds one. *)
Definition node_at (s : store) (k : string) : node := (k, mjoin (nodes s !! k)).

(** The nodes directly below [dir], one per key. *)
Definition child_nodes (dir : string) (s : store) : list node :=
  node_at s <$> remove_dups (child_key dir <$> (descendants dir s).*1).

Definition not_found {A} (k : string) : M A :=
  raise (KeyError ("Key not found : " ++ k)).

(** [client.read(path, recursive=...)]. *)
Definition read (path : string) (recursive : bool) : M EtcdResult := λ s,
  let k := rstrip_slash path in
  match nodes s !! k with
  | Some (Some v) => ret (mkResult k (Some v) []) s
  | o =>
      let sub := descendants k s in
      match o, sub with
      | None, [] => not_found k s
      | _, _ =>
          ret (mkResult k None
                 (if recursive then leaf_nodes sub else child_nodes k s)) s
      end
  end.

(** [client.write(path, value)] and [client.set(path, value)]. *)
Definition write (path : string) (v : text) : M unit := λ s,
  (Ok (), mkStore (<[rstrip_slash path := Some v]> (nodes s)) (index s)).

(** [client.write(path, value, append=True)]: the value goes to a new
    in-order key directly below [path]. *)
Definition write_append (path : string) (v : text) : M unit := λ s,
  (Ok (),
   mkStore (<[rstrip_slash path ++ "/" ++ dec (index s) := Some v]> (nodes s))
           (index s + 1)).

(** [client.write(path, None, dir=True)]. *)
Definition write_dir (path : string) : M unit := λ s,
  (Ok (), mkStore (<[rstrip_slash path := None]> (nodes s)) (index s)).

(** [client.delete(key)]: removes a key that holds a value. *)
Definition delete (path : string) : M unit := λ s,
  let k := rstrip_slash path in
  match nodes s !! k with
  | Some (Some _) => (Ok (), mkStore (base.delete k (nodes s)) (index s))
  | Some None => raise (KeyError ("Not a file : " ++ k)) s
  | None =>
      match descendants k s with
      | [] => not_found k s
      | _ => raise (KeyError ("Not a file : " ++ k)) s
      end
  end.

(** [client.delete(path, recursive=True, dir=True)]: removes the key and
    everything under it. *)
Definition delete_recursive (path : string) : M unit := λ s,
  let k := rstrip_slash path in
  match nodes s !! k, descendants k s with
  | None, [] => not_found k s
  | _, _ =>
      (Ok (),
       mkStore (filter (λ n, n.1 ≠ k ∧ is_under k n.1 = false) (nodes s)) (index s))
  end.

(** Whether a key or directory exists. *)
Definition exists_node (path : string) (s : store) : bool :=
  let k := rstrip_slash path in
  bool_decide (is_Some (nodes s !! k)) || negb (bool_decide (descendants k s = [])).

End Etcd.
Import Etcd.

Notation "'let!' x ':=' m 'in' k" := (bind m (λ x, k))
  (at level 10, x name, m at level 100, k at level 200).

(* ===================================================================== *)
(** * [datastore.py] *)
(* ===================================================================== *)

Module Datastore.

(** ** etcd paths for Calico

    A template [T % {...}] is a function of the names it substitutes. *)
Definition CONFIG_PATH : string := "/calico/config/".
Definition HOSTS_PATH : string := "/calico/host/".
Definition HOST_PATH (hostname : string) : string := HOSTS_PATH ++ hostname ++ "/".
Definition CONTAINER_PATH (hostname container_id : string) : string :=
  HOST_PATH hostname ++ "workload/docker/" ++ container_id ++ "/".
Definition LOCAL_ENDPOINTS_PATH (hostname container_id : string) : string :=
  HOST_PATH hostname ++ "workload/docker/" ++ container_id ++ "/endpoint/".
Definition ALL_ENDPOINTS_PATH : string := HOSTS_PATH.
Definition ENDPOINT_PATH (hostname container_id endpoint_id : string) : string :=
  LOCAL_ENDPOINTS_PATH hostname container_id ++ endpoint_id ++ "/".
Definition PROFILES_PATH : string := "/calico/policy/profile/".
Definition PROFILE_PATH (profile_id : string) : string :=
  PROFILES_PATH ++ profile_id ++ "/".
Definition TAGS_PATH (profile_id : string) : string := PROFILE_PATH profile_id ++ "tags".
Definition RULES_PATH (profile_id : string) : string := PROFILE_PATH profile_id ++ "rules".
Definition IP_POOL_PATH (version : string) : string :=
  "/calico/ipam/" ++ version ++ "/pool/".
Definition IP_POOLS_PATH (version : string) : string :=
  "/calico/ipam/" ++ version ++ "/pool/".

Definition IF_PREFIX : string := "cali".

(** ** [class Rule(dict)] *)

Definition ALLOWED_KEYS : list string :=
  ["protocol"; "src_tag"; "src_ports"; "src_net"; "dst_tag"; "dst_ports";
   "dst_net"; "icmp_type"; "action"].

Abbreviation Rule := (gmap string json).

(** [Rule.__setitem__]. *)
Definition Rule_setitem (self : Rule) (key : string) (value : json) : result Rule :=
  if bool_decide (key ∈ ALLOWED_KEYS)
  then Ok (<[key := value]> self)
  else Raise (KeyError ("Key " ++ key ++ " is not allowed on Rule.")).

(** [Rule.__init__]: the keyword arguments are a dict, set one by one in
    its iteration order. *)
Definition Rule_init (kwargs : gmap string json) : result Rule :=
  foldlM (λ self kv, Rule_setitem self kv.1 kv.2) ∅ (map_to_list kwargs).

Definition Rule_to_json (self : Rule) : text := json_dumps (JObj self).

(** ** [class Rules(namedtuple)] *)

Record Rules := mkRules {
  id : string;
  inbound_rules : list Rule;
  outbound_rules : list Rule
}.

Definition Rules_asdict (self : Rules) : gmap string json :=
  list_to_map
    [("id", JStr (id self));
     ("inbound_rules", JArr (JObj <$> inbound_rules self));
     ("outbound_rules", JArr (JObj <$> outbound_rules self))].

Definition Rules_to_json (self : Rules) : text := json_dumps (JObj (Rules_asdict self)).

(** ** [class Endpoint]

    [state], [mac] and [profile_id] hold whatever value they were given;
    [None] is [JNull]. *)
Record Endpoint := mkEndpoint {
  ep_id : string;
  state : json;
  mac : json;
  profile_id : json;
  ipv4_nets : netset;
  ipv6_nets : netset;
  ipv4_gateway : option IPAddress;
  ipv6_gateway : option IPAddress
}.

(** [Endpoint.__init__]; the [felix_host] argument is not used. *)
Definition Endpoint_init (ep_id : string) (state mac : json) : Endpoint :=
  mkEndpoint ep_id state mac JNull [] [] None None.

Section codec.
Context {nt : AddrText}.

(** [str(gw) if gw else None]. *)
Definition gateway_json (gw : option IPAddress) : json :=
  match gw with
  | Some a => if IPAddress_bool a then JStr (IPAddress_str a) else JNull
  | None => JNull
  end.

Definition to_json_dict (self : Endpoint) : gmap string json :=
  list_to_map
    [("state", state self);
     ("name", JStr (IF_PREFIX ++ substring 0 11 (ep_id self)));
     ("mac", mac self);
     ("profile_id", profile_id self);
     ("ipv4_nets", JArr ((λ net, JStr (IPNetwork_str net)) <$> ipv4_nets self));
     ("ipv6_nets", JArr ((λ net, JStr (IPNetwork_str net)) <$> ipv6_nets self));
     ("ipv4_gateway", gateway_json (ipv4_gateway self));
     ("ipv6_gateway", gateway_json (ipv6_gateway self))].

(** [Endpoint.to_json]. *)
Definition to_json (self : Endpoint) : text := json_dumps (JObj (to_json_dict self)).

(** [json_dict[...]] needs [json_dict] to be a dict. *)
Definition as_dict (j : json) : result (gmap string json) :=
  match j with
  | JObj m => Ok m
  | _ => Raise TypeError
  end.

(** [for net in x]: a list yields its items, a string its characters and a
    dict its keys; the other values are not iterable. *)
Definition iterate (j : json) : result (list json) :=
  match j with
  | JArr l => Ok l
  | JStr s => Ok ((λ c, JStr (String c "")) <$> list_ascii_of_string s)
  | JObj m => Ok (JStr <$> (map_to_list m).*1)
  | _ => Raise TypeError
  end.

(** [IPNetwork(x)] for a value out of JSON: only a string is parsed. *)
Definition IPNetwork_new (j : json) : result IPNetwork :=
  match j with
  | JStr s => IPNetwork_of s
  | _ => Raise TypeError
  end.

(** [IPAddress(x)] for a value out of JSON: a string is parsed, an integer
    (or a boolean, which is one) is taken as the value. *)
Definition IPAddress_new (j : json) : result IPAddress :=
  match j with
  | JStr s => IPAddress_of s
  | JNum n => IPAddress_of_int n
  | JBool b => IPAddress_of_int (if b then 1 else 0)
  | _ => Raise AddrFormatError
  end.

(** [for net in nets: s.add(IPNetwork(net))]. *)
Definition add_nets (s : netset) (nets : list json) : result netset :=
  foldlM (λ acc net, rbind (IPNetwork_new net) (λ n, Ok (netset_add acc n))) s nets.

(** [if gw: ep.gateway = IPAddress(gw)]. *)
Definition read_gateway (gw : json) : result (option IPAddress) :=
  if truthy gw then rbind (IPAddress_new gw) (λ a, Ok (Some a)) else Ok None.

Definition from_json_dict (ep_id : string) (j : json) : result Endpoint :=
  rbind (as_dict j) (λ json_dict,
  rbind (getitem json_dict "state") (λ state,
  rbind (getitem json_dict "mac") (λ mac,
  let ep := Endpoint_init ep_id state mac in
  rbind (getitem json_dict "ipv4_nets") (λ nets4,
  rbind (iterate nets4) (λ l4,
  rbind (add_nets (ipv4_nets ep) l4) (λ s4,
  rbind (getitem json_dict "ipv6_nets") (λ nets6,
  rbind (iterate nets6) (λ l6,
  rbind (add_nets (ipv6_nets ep) l6) (λ s6,
  rbind (getitem json_dict "ipv4_gateway") (λ ipv4_gw,
  rbind (read_gateway ipv4_gw) (λ gw4,
  rbind (getitem json_dict "ipv6_gateway") (λ ipv6_gw,
  rbind (read_gateway ipv6_gw) (λ gw6,
  rbind (getitem json_dict "profile_id") (λ profile,
  Ok (mkEndpoint ep_id state mac profile s4 s6 gw4 gw6))))))))))))))).

(** [Endpoint.from_json]. *)
Definition from_json (ep_id : string) (json_str : text) : result Endpoint :=
  rbind (json_loads json_str) (from_json_dict ep_id).

End codec.


(** ** [class Vividict(dict)]

    A dict that creates an empty [Vividict] under a key that is read and
    missing.  [get_hosts] nests it four deep, host, container type,
    container and endpoint, above the endpoint's own dict. *)
Abbreviation ep_dict := (gmap string json) (only parsing).
Abbreviation containers := (gmap string (gmap string ep_dict)) (only parsing).
Abbreviation Hosts := (gmap string (gmap string containers)) (only parsing).

(** [d[k]] on a Vividict: the value, or the empty dict just created. *)
Definition vivi {V} `{Empty V} (d : gmap string V) (k : string) : V :=
  default ∅ (d !! k).

(** ** [class DatastoreClient]

    The methods read the module-level [hostname]; here it is their first
    argument. *)

Section client.
Context {nt : AddrText}.

(** The value of a node as a Python truth value ([if cidr:]). *)
Definition value_truthy (v : option text) : bool :=
  match v with
  | Some (Text s) => negb (String.eqb s "")
  | Some (JsonText _) => true
  | None => false
  end.

(** [IPNetwork(v)] and [IPAddress(v)] for the value of a node.  The text of
    a JSON document is not an address text, and neither is [None]. *)
Definition IPNetwork_value (v : option text) : result IPNetwork :=
  match v with
  | Some (Text s) => IPNetwork_of s
  | _ => Raise AddrFormatError
  end.
Definition IPAddress_value (v : option text) : result IPAddress :=
  match v with
  | Some (Text s) => IPAddress_of s
  | _ => Raise AddrFormatError
  end.

(** [Endpoint.from_json(ep_id, v)] for the value of a node; [json.loads]
    does not take [None]. *)
Definition from_json_value (ep_id : string) (v : option text) : result Endpoint :=
  match v with
  | Some t => from_json ep_id t
  | None => Raise TypeError
  end.

(** [assert version in ("v4", "v6")]. *)
Definition assert_version (version : string) : M unit :=
  if bool_decide (version ∈ ["v4"; "v6"]) then ret () else raise AssertionError.

(** A dict keyed by networks, in insertion order. *)
Definition pooldict : Type := list (IPNetwork * string).

(** [pools[pool] = key]. *)
Definition pooldict_set (pools : pooldict) (pool : IPNetwork) (k : string) : pooldict :=
  if netset_mem pool pools.*1
  then (λ e, if IPNetwork_eqb pool e.1 then (e.1, k) else e) <$> pools
  else (pools ++ [(pool, k)])%list.

(** [pools[pool]]. *)
Definition pooldict_get (pools : pooldict) (pool : IPNetwork) : option string :=
  snd <$> find (λ e, IPNetwork_eqb pool e.1) pools.

(** The body of the loop of [_get_ip_pools_with_keys]. *)
Definition pool_step (pools : pooldict) (child : node) : result pooldict :=
  let cidr := child.2 in
  if value_truthy cidr
  then rbind (IPNetwork_value cidr) (λ pool, Ok (pooldict_set pools pool child.1))
  else Ok pools.

Definition _get_ip_pools_with_keys (version : string) : M pooldict :=
  let pool_path := IP_POOLS_PATH version in
  let! nodes :=
    except_KeyError
      (let! r := read pool_path false in ret (Some (children r)))
      (ret None) in
  match nodes with
  | None => ret []
  | Some nodes => lift (foldlM pool_step [] nodes)
  end.

Definition get_ip_pools (version : string) : M (list IPNetwork) :=
  let! _ := assert_version version in
  except_KeyError
    (let! pools := _get_ip_pools_with_keys version in ret pools.*1)
    (ret []).

Definition add_ip_pool (version : string) (pool : IPNetwork) : M unit :=
  let! _ := assert_version version in
  let pool := cidr pool in
  let! pools := get_ip_pools version in
  if netset_mem pool pools then ret ()
  else
    let pool_path := IP_POOL_PATH version in
    write_append pool_path (Text (IPNetwork_str pool)).

Definition del_ip_pool (version : string) (pool : IPNetwork) : M unit :=
  let! _ := assert_version version in
  let! pools := _get_ip_pools_with_keys version in
  except_KeyError
    (match pooldict_get pools (cidr pool) with
     | Some k => Etcd.delete k
     | None => raise (KeyError (IPNetwork_str (cidr pool)))
     end)
    (raise (KeyError (IPNetwork_str pool ++ " is not a configured IP pool."))).

Definition quote : string := String "034"%char "".

Definition create_group (name : string) : M unit :=
  let profile_path := PROFILE_PATH name in
  let! _ := write (profile_path ++ "tags") (Text ("[" ++ quote ++ name ++ quote ++ "]")) in
  let! default_deny := lift (Rule_init {["action" := (JStr "deny")]}) in
  let! accept_self := lift (Rule_init {["src_tag" := (JStr name)]}) in
  let! default_allow := lift (Rule_init {["action" := (JStr "allow")]}) in
  let rules := mkRules name [accept_self; default_deny] [default_allow] in
  write (profile_path ++ "rules") (Rules_to_json rules).

Definition delete_group (name : string) : M unit :=
  let profile_path := PROFILE_PATH name in
  let! _ := delete_recursive profile_path in
  ret ().

Definition remove_host (hostname : string) : M unit :=
  let host_path := HOST_PATH hostname in
  except_KeyError (delete_recursive host_path) (ret ()).

Definition remove_all_data : M unit :=
  except_KeyError (delete_recursive "/calico") (ret ()).

Definition get_ep_id_from_cont (hostname container_id : string) : M string :=
  let ep_path := LOCAL_ENDPOINTS_PATH hostname container_id in
  let! endpoints :=
    except_KeyError
      (let! r := read ep_path false in ret (leaves r))
      (raise (KeyError ("Container with ID " ++ container_id ++ " was not found."))) in
  match endpoints with
  | [] => raise StopIteration
  | endpoint :: _ =>
      match splitn "/" 8 endpoint.1 with
      | [_; _; _; _; _; _; _; _; endpoint_id] => ret endpoint_id
      | _ => raise ValueError
      end
  end.

Definition get_endpoint (hostname container_id endpoint_id : string) : M Endpoint :=
  let ep_path := ENDPOINT_PATH hostname container_id endpoint_id in
  let! r := read ep_path false in
  lift (from_json_value endpoint_id (value r)).

Definition set_endpoint (hostname container_id : string) (endpoint : Endpoint) : M unit :=
  let ep_path := ENDPOINT_PATH hostname container_id (ep_id endpoint) in
  write ep_path (to_json endpoint).

(** [ep.profile_id = v]. *)
Definition set_profile_id (ep : Endpoint) (v : json) : Endpoint :=
  mkEndpoint (ep_id ep) (state ep) (mac ep) v (ipv4_nets ep) (ipv6_nets ep)
             (ipv4_gateway ep) (ipv6_gateway ep).

Definition add_workload_to_group (hostname group_name container_id : string) : M unit :=
  let! endpoint_id := get_ep_id_from_cont hostname container_id in
  let! ep := get_endpoint hostname container_id endpoint_id in
  let ep := set_profile_id ep (JStr group_name) in
  set_endpoint hostname container_id ep.

Definition remove_workload_from_group (hostname container_id : string) : M unit :=
  let! endpoint_id := get_ep_id_from_cont hostname container_id in
  let! ep := get_endpoint hostname container_id endpoint_id in
  let ep := set_profile_id ep JNull in
  set_endpoint hostname container_id ep.

(** [str(x)] for a value out of JSON.  The [repr] of a list or a dict is
    outside the model. *)
Definition py_str (j : json) : result string :=
  match j with
  | JStr s => Ok s
  | JNull => Ok "None"
  | JBool b => Ok (if b then "True" else "False")
  | JNum n =>
      Ok (if (n <? 0)%Z then "-" ++ dec (Z.to_N (- n)) else dec (Z.to_N n))
  | _ => Raise NotModelled
  end.

(** [if not hosts[host]: hosts[host] = Vividict()]. *)
Definition ensure_host (hosts : Hosts) (host : string) : Hosts :=
  if bool_decide (vivi hosts host = ∅) then <[host := ∅]> hosts else hosts.

(** [ep_dict = hosts[host][container_type][container_id][endpoint_id]]
    followed by the three assignments to [ep_dict]. *)
Definition set_endpoint_dict (hosts : Hosts)
    (host container_type container_id endpoint_id : string)
    (addrs : list string) (mac : string) (state : json) : Hosts :=
  let h := vivi hosts host in
  let t := vivi h container_type in
  let c := vivi t container_id in
  let ep_dict := vivi c endpoint_id in
  let ep_dict :=
    <["state" := state]>
      (<["mac" := JStr mac]> (<["addrs" := JArr (JStr <$> addrs)]> ep_dict)) in
  <[host := <[container_type := <[container_id := <[endpoint_id := ep_dict]> c]> t]> h]> hosts.

(** The body of the loop of [get_hosts]. *)
Definition host_step (hosts : Hosts) (child : node) : result Hosts :=
  let packed := split "/" child.1 in
  let n := length packed in
  if (4 <? n)%nat && (n <? 9)%nat then
    match packed with
    | _ :: _ :: _ :: host :: _ :: _ => Ok (ensure_host hosts host)
    | _ => Raise ValueError
    end
  else if (n =? 9)%nat then
    match packed with
    | [_; _; _; host; _; container_type; container_id; _; endpoint_id] =>
        rbind (from_json_value endpoint_id child.2) (λ ep,
        let addrs := IPNetwork_str <$> netset_union (ipv4_nets ep) (ipv6_nets ep) in
        rbind (py_str (mac ep)) (λ m,
        Ok (set_endpoint_dict hosts host container_type container_id endpoint_id
              addrs m (state ep))))
    | _ => Raise ValueError
    end
  else Ok hosts.

(** A [for] loop whose body may raise: the state reached, and the exception
    that ended the loop early if one did. *)
Fixpoint for_each {A S} (body : S → A → result S) (st : S) (l : list A) : S * option exn :=
  match l with
  | [] => (st, None)
  | x :: l' =>
      match body st x with
      | Ok st' => for_each body st' l'
      | Raise e => (st, Some e)
      end
  end.

(** [get_hosts]: the whole loop is inside the [try], so a [KeyError] raised
    while decoding a leaf ends the loop and the hosts built so far are
    returned. *)
Definition get_hosts : M Hosts := λ s,
  match read "/calico/host" true s with
  | (Ok r, s') =>
      match for_each host_step ∅ (leaves r) with
      | (hosts, None) => (Ok hosts, s')
      | (hosts, Some (KeyError _)) => (Ok hosts, s')
      | (_, Some e) => (Raise e, s')
      end
  | (Raise (KeyError _), s') => (Ok ∅, s')
  | (Raise e, s') => (Raise e, s')
  end.

(** [try: next_hops[k] = IPAddress(v)  except AddrFormatError: pass]. *)
Definition try_next_hop (next_hops : gmap Z IPAddress) (k : Z) (v : option text)
  : result (gmap Z IPAddress) :=
  match IPAddress_value v with
  | Ok a => Ok (<[k := a]> next_hops)
  | Raise AddrFormatError => Ok next_hops
  | Raise e => Raise e
  end.

Definition get_default_next_hops (hostname : string) : M (gmap Z IPAddress) :=
  let host_path := HOST_PATH hostname in
  let! r4 := read (host_path ++ "bird_ip") false in
  let ipv4 := value r4 in
  let! r6 := read (host_path ++ "bird6_ip") false in
  let ipv6 := value r6 in
  let next_hops : gmap Z IPAddress := ∅ in
  let! next_hops := lift (try_next_hop next_hops 4 ipv4) in
  let! next_hops := lift (try_next_hop next_hops 6 ipv6) in
  ret next_hops.

Definition create_global_config : M unit :=
  let config_dir := CONFIG_PATH in
  except_KeyError
    (let! _ := read config_dir false in ret ())
    (let! _ := write (config_dir ++ "InterfacePrefix") (Text IF_PREFIX) in
     write (config_dir ++ "LogSeverityFile") (Text "DEBUG")).

Definition create_host (hostname bird_ip bird6_ip : string) : M unit :=
  let host_path := HOST_PATH hostname in
  let! _ := write (host_path ++ "bird_ip") (Text bird_ip) in
  let! _ := write (host_path ++ "bird6_ip") (Text bird6_ip) in
  let! _ := write (host_path ++ "config/marker") (Text "created") in
  let workload_dir := host_path ++ "workload" in
  except_KeyError
    (let! _ := read workload_dir false in ret ())
    (write_dir workload_dir).

Definition get_groups_by_endpoint (endpoint_id : string) : list string := [].

Definition group_exists (name : string) : M bool :=
  let profile_path := PROFILE_PATH name in
  except_KeyError
    (let! _ := read profile_path false in ret true)
    (ret false).

(** The body of the loop of [get_groups]. *)
Definition group_step (groups : gset string) (child : node) : gset string :=
  let packed := split "/" child.1 in
  if (4 <? length packed)%nat then {[nth 4 packed ""]} ∪ groups else groups.

Definition get_groups : M (gset string) :=
  let groups : gset string := ∅ in
  except_KeyError
    (let! r := read PROFILES_PATH true in
     let etcd_groups := children r in
     ret (foldl group_step groups etcd_groups))
    (ret groups).

(** [ep.profile_id == name] for a string [name]. *)
Definition profile_is (ep : Endpoint) (name : string) : bool :=
  match profile_id ep with
  | JStr p => String.eqb p name
  | _ => false
  end.

(** The body of the loop of [get_group_members]. *)
Definition member_step (name : string) (members : list string) (child : node)
  : result (list string) :=
  let packed := split "/" child.1 in
  if (length packed =? 9)%nat then
    let ep_id0 := List.last packed "" in
    rbind (from_json_value ep_id0 child.2) (λ ep,
    Ok (if profile_is ep name then (members ++ [ep_id ep])%list else members))
  else Ok members.

Definition get_group_members (name : string) : M (list string) :=
  let members : list string := [] in
  let! endpoints :=
    except_KeyError
      (let! r := read ALL_ENDPOINTS_PATH true in ret (Some r))
      (ret None) in
  match endpoints with
  | None => ret members
  | Some endpoints => lift (foldlM (member_step name) members (leaves endpoints))
  end.

Definition remove_container (hostname container_id : string) : M unit :=
  let container_path := CONTAINER_PATH hostname container_id in
  delete_recursive container_path.

End client.

End Datastore.
Import Datastore.


(* ===================================================================== *)
(** * Vocabulary of the statements *)
(* ===================================================================== *)

Section vocabulary.
Context {nt : AddrText}.

(** A character that is not a digit does not occur in a numeral. *)
Definition separator (c : ascii) : Prop :=
  c = "."%char ∨ c = ":"%char ∨ c = "/"%char.

(** The policy document [create_group] writes for [name]. *)
Definition default_policy (name : string) : json :=
  JObj (list_to_map
    [("id", JStr name);
     ("inbound_rules",
       JArr [JObj {["src_tag" := (JStr name)]}; JObj {["action" := (JStr "deny")]}]);
     ("outbound_rules", JArr [JObj {["action" := (JStr "allow")]}])]).

(** What a gateway is after a round trip: an address whose value is zero
    is false, so [to_json] writes [null] for it. *)
Definition kept_gateway (gw : option IPAddress) : option IPAddress :=
  match gw with
  | Some a => if IPAddress_bool a then Some a else None
  | None => None
  end.

(** The endpoints the adapter can hold: sets of networks without equal
    members, networks and addresses that fit their version's width. *)
Record Endpoint_wf (e : Endpoint) : Prop := {
  wf_nets4 : netset_wf (ipv4_nets e);
  wf_nets6 : netset_wf (ipv6_nets e);
  wf_net4 : Forall net_wf (ipv4_nets e);
  wf_net6 : Forall net_wf (ipv6_nets e);
  wf_gw4 : ∀ a, ipv4_gateway e = Some a → addr_wf a;
  wf_gw6 : ∀ a, ipv6_gateway e = Some a → addr_wf a
}.

(** ** Examples *)

(** An endpoint whose IPv4 gateway is [0.0.0.0]. *)
Definition zero_gateway_endpoint : Endpoint :=
  mkEndpoint "e1" (JStr "active") (JStr "ee:ee:ee:ee:ee:ee") JNull
    [mkNet IPv4 167772161 32] [] (Some (mkAddr IPv4 0)) None.

(** An endpoint payload with the given [name] and gateways. *)
Definition payload (name ipv4_gw ipv6_gw : json) : gmap string json :=
  list_to_map
    [("state", JStr "active"); ("name", name); ("mac", JStr "ee:ee:ee:ee:ee:ee");
     ("profile_id", JNull); ("ipv4_nets", JArr [JStr "10.0.0.1/32"]);
     ("ipv6_nets", JArr []); ("ipv4_gateway", ipv4_gw); ("ipv6_gateway", ipv6_gw)].

(** A host whose [bird_ip] holds an IPv6 address. *)
Definition ipv6_bird_store : store :=
  mkStore (list_to_map
    [("/calico/host/h1/bird_ip", Some (Text "fd80:24e2:f998:72d6::1"));
     ("/calico/host/h1/bird6_ip", Some (Text ""))]) 0.

(** A leaf of the hosts listing that is not an endpoint: its key has five
    to eight slots, the fourth of which is the host [h]. *)
Definition is_marker (h : string) (child : node) : Prop :=
  let packed := split "/" child.1 in
  (4 < length packed < 9)%nat ∧ packed !! 3%nat = Some h.

(** The record [get_hosts] builds for an endpoint whose [mac] prints as [m]. *)
Definition endpoint_record (ep : Endpoint) (m : string) : gmap string json :=
  list_to_map
    [("addrs", JArr (JStr <$> (IPNetwork_str <$>
                       netset_union (ipv4_nets ep) (ipv6_nets ep))));
     ("mac", JStr m);
     ("state", state ep)].

(** Host [h1] with container type [docker] and no container. *)
Definition markers_store : store :=
  mkStore (list_to_map
    [("/calico/host/h1/bird_ip", Some (Text "10.0.0.1"));
     ("/calico/host/h1/config/marker", Some (Text "created"));
     ("/calico/host/h1/workload/docker", None)]) 0.

(** The same host with endpoint [e1] of container [c1]. *)
Definition endpoint_store (t : text) : store :=
  mkStore (list_to_map
    [("/calico/host/h1/bird_ip", Some (Text "10.0.0.1"));
     ("/calico/host/h1/config/marker", Some (Text "created"));
     ("/calico/host/h1/workload/docker", None);
     ("/calico/host/h1/workload/docker/c1/endpoint/e1", Some t)]) 0.

(** The endpoint that [payload] with null gateways decodes to. *)
Definition plain_endpoint : Endpoint :=
  mkEndpoint "e1" (JStr "active") (JStr "ee:ee:ee:ee:ee:ee") JNull
    [mkNet IPv4 167772161 32] [] None None.

(** Two payload fields that hold lists with the same entries.  A Python
    set promises no iteration order, so a list written from a set is
    compared up to the order of its entries. *)
Definition same_entries (a b : option json) : Prop :=
  ∃ la lb, a = Some (JArr la) ∧ b = Some (JArr lb) ∧ la ≡ₚ lb.

(** Payload [d'] agrees with payload [d] on every field but [profile_id]. *)
Definition only_profile_differs (d' d : gmap string json) : Prop :=
  d' !! "state" = d !! "state" ∧ d' !! "name" = d !! "name" ∧
  d' !! "mac" = d !! "mac" ∧
  same_entries (d' !! "ipv4_nets") (d !! "ipv4_nets") ∧
  same_entries (d' !! "ipv6_nets") (d !! "ipv6_nets") ∧
  d' !! "ipv4_gateway" = d !! "ipv4_gateway" ∧
  d' !! "ipv6_gateway" = d !! "ipv6_gateway".

(** The keys of a store are normalised: none ends in a slash. *)
Definition normal_keys (s : store) : Prop :=
  ∀ k v, nodes s !! k = Some v → rstrip_slash k = k.

(** A store with the pool [10.0.0.0/8] configured. *)
Definition one_pool_store : store :=
  mkStore (list_to_map [("/calico/ipam/v4/pool/7", Some (Text "10.0.0.0/8"))]) 8.

(** The key no value is stored at: absent, or a directory. *)
Definition not_a_value (s : store) (k : string) : Prop :=
  ∀ v, nodes s !! k ≠ Some (Some v).

(** The key the next appended value goes to. *)
Definition next_pool_key (version : string) (s : store) : string :=
  rstrip_slash (IP_POOL_PATH version) ++ "/" ++ dec (index s).

(** The child holds a network equal to [p]. *)
Definition holds_pool (p : IPNetwork) (c : node) : Prop :=
  value_truthy c.2 = true ∧
  ∃ q, IPNetwork_value c.2 = Ok q ∧ IPNetwork_eqb p q = true.

(** The key [k] is the directory [dir] or lies under it. *)
Definition at_or_under (dir k : string) : bool :=
  String.eqb k dir || is_under dir k.

(** A name that fills one slot of a key: not empty, and without a slash. *)
Definition plain_name (x : string) : Prop :=
  x ≠ "" ∧ contains "/" x = false.

(** The slot of a key at position [i], counted from the empty slot before
    the leading slash. *)
Definition slot (i : nat) (k : string) : string := nth i (split "/" k) "".

(** The number of slots of a key. *)
Definition slots (k : string) : nat := length (split "/" k).

(** The last slot of a key. *)
Definition last_slot (k : string) : string := List.last (split "/" k) "".

(** A host with one endpoint whose payload is an empty JSON object. *)
Definition broken_store : store := endpoint_store (json_dumps (JObj ∅)).

(** An endpoint in group [web] with a network and a gateway of each
    version. *)
Definition routed_endpoint : Endpoint :=
  mkEndpoint "e2" (JStr "active") (JStr "ee:ee:ee:ee:ee:01") (JStr "web")
    [mkNet IPv4 167772162 32] [mkNet IPv6 1 128]
    (Some (mkAddr IPv4 167772414)) (Some (mkAddr IPv6 1)).

(** The record [get_hosts] holds for an endpoint: its addresses, its mac
    and its state. *)
Definition host_record (addrs : list string) (m : string) (st : json)
  : gmap string json :=
  list_to_map [("addrs", JArr (JStr <$> addrs)); ("mac", JStr m); ("state", st)].

(** A payload with two networks, and the endpoint it decodes to. *)
Definition two_nets_payload : gmap string json :=
  list_to_map
    [("state", JStr "active"); ("name", JStr "calie1"); ("mac", JStr "ee:ee:ee:ee:ee:ee");
     ("profile_id", JNull); ("ipv4_nets", JArr [JStr "10.0.0.1/32"; JStr "10.0.0.2/32"]);
     ("ipv6_nets", JArr []); ("ipv4_gateway", JNull); ("ipv6_gateway", JNull)].
Definition two_nets_endpoint : Endpoint :=
  mkEndpoint "e1" (JStr "active") (JStr "ee:ee:ee:ee:ee:ee") JNull
    [mkNet IPv4 167772161 32; mkNet IPv4 167772162 32] [] None None.

End vocabulary.


(* ===================================================================== *)
(** * Facts about strings and about the address texts *)
(* ===================================================================== *)

Section split_join.
Variable c : ascii.

Lemma split_nonempty s : split c s ≠ [].
Proof.
  destruct s as [|a s]; simpl; [done|].
  destruct (Ascii.eqb a c); [done|]. by destruct (split c s).
Qed.

Lemma split_app p rest :
  contains c p = false →
  split c (p ++ String c rest) = p :: split c rest.
Proof.
  induction p as [|a p IH]; simpl; intros H.
  - by rewrite Ascii.eqb_refl.
  - apply orb_false_iff in H as [Ha Hp]. rewrite Ha, (IH Hp). done.
Qed.

Lemma split_nosep p : contains c p = false → split c p = [p].
Proof.
  induction p as [|a p IH]; simpl; intros H; [done|].
  apply orb_false_iff in H as [Ha Hp]. by rewrite Ha, (IH Hp).
Qed.

Lemma split_join p ps :
  Forall (λ q, contains c q = false) (p :: ps) →
  split c (join (String c "") (p :: ps)) = p :: ps.
Proof.
  revert p. induction ps as [|q ps IH]; intros p Hall.
  - simpl. apply split_nosep. by inversion Hall.
  - inversion Hall as [|? ? Hp Hrest]; subst.
    change (join (String c "") (p :: q :: ps))
      with (p ++ String c (join (String c "") (q :: ps))).
    rewrite (split_app _ _ Hp). f_equal. by apply IH.
Qed.

Lemma contains_app s t :
  contains c (s ++ t) = contains c s || contains c t.
Proof.
  induction s as [|a s IH]; simpl; [done|]. by rewrite IH, orb_assoc.
Qed.

Lemma contains_join (d : ascii) l :
  Ascii.eqb d c = false →
  Forall (λ q, contains c q = false) l →
  contains c (join (String d "") l) = false.
Proof.
  intros Hd. induction l as [|q l IH]; intros Hall; [done|].
  inversion Hall as [|? ? Hq Hl]; subst.
  destruct l as [|q' l]; [done|].
  change (join (String d "") (q :: q' :: l))
    with (q ++ String d (join (String d "") (q' :: l))).
  rewrite contains_app, Hq. simpl. rewrite Hd. simpl. by apply IH.
Qed.
End split_join.

(** ** Decimal and hexadecimal numerals *)

Lemma undec_dec n : undec (dec n) = Some n.
Proof.
  unfold undec, dec. rewrite DecimalString.NilZero.usu.
  - simpl. by rewrite DecimalN.Unsigned.of_to.
  - destruct n; [done|]. apply DecimalPos.Unsigned.to_uint_nonnil.
Qed.

Lemma unhex_hex n : unhex (hex n) = Some n.
Proof.
  unfold unhex, hex. rewrite HexadecimalString.NilZero.usu.
  - simpl. by rewrite HexadecimalN.Unsigned.of_to.
  - destruct n; [done|]. apply HexadecimalPos.Unsigned.to_uint_nonnil.
Qed.

Lemma dec_no_separator c n : separator c → contains c (dec n) = false.
Proof.
  intros Hc. unfold dec.
  assert (H : ∀ d, contains c (DecimalString.NilEmpty.string_of_uint d) = false).
  { induction d; simpl; rewrite ?IHd; [done|..];
      destruct Hc as [-> | [-> | ->]]; done. }
  destruct (N.to_uint n); try apply H.
  destruct Hc as [-> | [-> | ->]]; done.
Qed.

Lemma hex_no_separator c n : separator c → contains c (hex n) = false.
Proof.
  intros Hc. unfold hex.
  assert (H : ∀ d, contains c (HexadecimalString.NilEmpty.string_of_uint d) = false).
  { induction d; simpl; rewrite ?IHd; [done|..];
      destruct Hc as [-> | [-> | ->]]; done. }
  destruct (N.to_hex_uint n); try apply H.
  destruct Hc as [-> | [-> | ->]]; done.
Qed.

(** ** Groups *)

Lemma ungroups_snoc base l g :
  ungroups base (l ++ [g]) = (ungroups base l * base + g)%N.
Proof. unfold ungroups. by rewrite foldl_app. Qed.

Lemma ungroups_groups base count v :
  (0 < base)%N → (v < base ^ N.of_nat count)%N →
  ungroups base (groups base count v) = v.
Proof.
  intros Hb. revert v. induction count as [|count IH]; intros v Hv.
  - simpl in *. change (base ^ 0)%N with 1%N in Hv. unfold ungroups. simpl. lia.
  - simpl groups. rewrite ungroups_snoc, IH.
    + rewrite N.mul_comm. symmetry. apply N.div_mod. lia.
    + rewrite Nat2N.inj_succ, N.pow_succ_r' in Hv.
      apply N.Div0.div_lt_upper_bound. lia.
  Qed.

Lemma groups_length base count v : length (groups base count v) = count.
Proof.
  revert v. induction count as [|count IH]; intros v; [done|].
  simpl. rewrite length_app, IH. simpl. lia.
Qed.

Lemma groups_bound base count v :
  (0 < base)%N → Forall (λ g, (g < base)%N) (groups base count v).
Proof.
  intros Hb. revert v. induction count as [|count IH]; intros v; simpl.
  - constructor.
  - apply Forall_app. split; [apply IH|].
    constructor; [|constructor]. apply N.mod_lt. lia.
Qed.

Lemma read_groups_show (rd : string → option N) (sh : N → string) base count v :
  (∀ n, rd (sh n) = Some n) →
  (0 < base)%N → (v < base ^ N.of_nat count)%N →
  read_groups rd base count (sh <$> groups base count v) = Some v.
Proof.
  intros Hrd Hb Hv. unfold read_groups.
  assert (Hm : mapM (read_group rd base) (sh <$> groups base count v)
               = Some (groups base count v)).
  { apply mapM_Some. apply Forall2_fmap_l, Forall_Forall2_diag.
    eapply Forall_impl; [by apply groups_bound|].
    intros g Hg. unfold read_group. simpl. rewrite Hrd.
    apply N.ltb_lt in Hg. by rewrite Hg. }
  rewrite Hm, groups_length, Nat.eqb_refl. f_equal. by apply ungroups_groups.
Qed.

(** ** Reading back what [str] prints *)

Lemma split_join_list c l :
  l ≠ [] → Forall (λ q, contains c q = false) l →
  split c (join (String c "") l) = l.
Proof. destruct l; [done|]. intros _. apply split_join. Qed.

Lemma groups_nonnil base count v : count ≠ 0 → groups base count v ≠ [].
Proof.
  intros Hc Hnil. apply (f_equal length) in Hnil.
  rewrite groups_length in Hnil. simpl in Hnil. lia.
Qed.

Lemma ipv4_text_no_separator c v :
  c = ":"%char ∨ c = "/"%char → contains c (full_ipv4_str v) = false.
Proof.
  intros Hc. apply contains_join.
  - destruct Hc as [-> | ->]; done.
  - apply Forall_fmap, Forall_true. intros g. simpl.
    apply dec_no_separator. unfold separator. tauto.
Qed.

Lemma ipv6_text_no_separator c v :
  c = "."%char ∨ c = "/"%char → contains c (full_ipv6_str v) = false.
Proof.
  intros Hc. apply contains_join.
  - destruct Hc as [-> | ->]; done.
  - apply Forall_fmap, Forall_true. intros g. simpl.
    apply hex_no_separator. unfold separator. tauto.
Qed.

Lemma full_ipv4_of_str v :
  (v < 2 ^ 32)%N → full_ipv4_of (full_ipv4_str v) = Some v.
Proof.
  intros Hv. unfold full_ipv4_of, full_ipv4_str.
  rewrite split_join_list.
  - apply read_groups_show; [apply undec_dec|done|done].
  - intros Hnil. apply fmap_nil_inv in Hnil. by apply groups_nonnil in Hnil.
  - apply Forall_fmap, Forall_true. intros g. simpl.
    apply dec_no_separator. unfold separator. tauto.
Qed.

Lemma hex_nonempty n : hex n ≠ "".
Proof. intros H. pose proof (unhex_hex n) as Hn. by rewrite H in Hn. Qed.

Lemma strip_head_id l : Forall (λ q, q ≠ "") l → strip_head l = Some l.
Proof.
  intros Hl. destruct l as [|p l]; [done|].
  inversion Hl; subst. by destruct p.
Qed.

Lemma strip_tail_id l : Forall (λ q, q ≠ "") l → strip_tail l = Some l.
Proof.
  intros Hl. unfold strip_tail. rewrite strip_head_id.
  - simpl. by rewrite reverse_involutive.
  - by apply Forall_reverse.
Qed.

Lemma expand_gap_id l : Forall (λ q, q ≠ "") l → expand_gap l = Some l.
Proof.
  intros Hl. unfold expand_gap.
  assert (H : break_gap l = (l, None)).
  { induction Hl as [|p l Hp _ IH]; [done|].
    simpl. rewrite IH. by destruct p. }
  by rewrite H.
Qed.

Lemma full_ipv6_of_str v :
  (v < 2 ^ 128)%N → full_ipv6_of (full_ipv6_str v) = Some v.
Proof.
  intros Hv. unfold full_ipv6_of, full_ipv6_str.
  assert (Hne : Forall (λ q, q ≠ "") (hex <$> groups 65536 8 v)).
  { apply Forall_fmap, Forall_true. intros g. apply hex_nonempty. }
  rewrite split_join_list.
  - rewrite (strip_head_id _ Hne), (strip_tail_id _ Hne), (expand_gap_id _ Hne).
    apply read_groups_show; [apply unhex_hex|done|done].
  - intros Hnil. apply fmap_nil_inv in Hnil. by apply groups_nonnil in Hnil.
  - apply Forall_fmap, Forall_true. intros g. simpl.
    apply hex_no_separator. unfold separator. tauto.
Qed.

(** An IPv6 text has no dot, so it is never read as IPv4. *)
Lemma full_ipv4_of_ipv6 v : full_ipv4_of (full_ipv6_str v) = None.
Proof.
  unfold full_ipv4_of. rewrite split_nosep.
  - unfold read_groups. simpl.
    destruct (read_group undec 256 (full_ipv6_str v)); done.
  - apply ipv6_text_no_separator. tauto.
Qed.

Lemma full_detect_str a : addr_wf a → full_detect (full_IPAddress_str a) = Some a.
Proof.
  destruct a as [[] x]; unfold addr_wf, full_detect, full_IPAddress_str; simpl; intros Hx.
  - by rewrite full_ipv4_of_str.
  - by rewrite full_ipv4_of_ipv6, full_ipv6_of_str.
Qed.

Lemma full_int_str_no_slash v x : contains "/" (full_int_str v x) = false.
Proof.
  destruct v; [apply ipv4_text_no_separator | apply ipv6_text_no_separator]; tauto.
Qed.

Lemma full_IPNetwork_of_str n :
  net_wf n → full_IPNetwork_of (full_IPNetwork_str n) = Ok n.
Proof.
  destruct n as [v x p]. unfold net_wf, full_IPNetwork_of, full_IPNetwork_str. simpl.
  intros [Hx Hp].
  change (full_int_str v x ++ "/" ++ dec p)
    with (full_int_str v x ++ String "/" (dec p)).
  rewrite split_app by apply full_int_str_no_slash.
  rewrite split_nosep by (apply dec_no_separator; unfold separator; tauto).
  pose proof (full_detect_str (mkAddr v x) Hx) as Ha.
  unfold full_IPAddress_str in Ha. simpl in Ha. rewrite Ha. simpl.
  unfold read_prefixlen. rewrite undec_dec.
  apply N.leb_le in Hp. by rewrite Hp.
Qed.

Lemma full_IPAddress_of_str a :
  addr_wf a → full_IPAddress_of (full_IPAddress_str a) = Ok a.
Proof.
  intros Ha. unfold full_IPAddress_of.
  unfold full_IPAddress_str at 1. rewrite full_int_str_no_slash. by rewrite full_detect_str.
Qed.

Lemma full_IPAddress_str_nonempty a : addr_wf a → full_IPAddress_str a ≠ "".
Proof.
  intros Ha H. pose proof (full_IPAddress_of_str a Ha) as Hof. by rewrite H in Hof.
Qed.

Lemma full_IPNetwork_str_nonempty n : net_wf n → full_IPNetwork_str n ≠ "".
Proof.
  intros Hn H. pose proof (full_IPNetwork_of_str n Hn) as Hof. by rewrite H in Hof.
Qed.

Lemma full_IPNetwork_of_no_KeyError s msg : full_IPNetwork_of s ≠ Raise (KeyError msg).
Proof.
  unfold full_IPNetwork_of.
  destruct (split "/" s) as [|a [|p [|? ?]]]; try done.
  - by destruct (full_detect a).
  - destruct (full_detect a); [|done]. by destruct (read_prefixlen _ p).
Qed.

(** The notation with all groups written obeys the laws. *)
#[global] Instance full_notation : AddrText := {|
  IPAddress_of := full_IPAddress_of;
  IPAddress_str := full_IPAddress_str;
  IPNetwork_of := full_IPNetwork_of;
  IPNetwork_str := full_IPNetwork_str;
  IPAddress_of_str := full_IPAddress_of_str;
  IPNetwork_of_str := full_IPNetwork_of_str;
  IPAddress_str_nonempty := full_IPAddress_str_nonempty;
  IPNetwork_str_nonempty := full_IPNetwork_str_nonempty;
  IPNetwork_of_no_KeyError := full_IPNetwork_of_no_KeyError
|}.

(* ===================================================================== *)
(** * Rule construction *)
(* ===================================================================== *)

Section rule_init.
Let step (self : Rule) (kv : string * json) : result Rule :=
  Rule_setitem self kv.1 kv.2.

Lemma foldlM_setitem_allowed (l : list (string * json)) (acc : Rule) :
  NoDup l.*1 →
  Forall (λ kv, kv.1 ∈ ALLOWED_KEYS) l →
  foldlM step acc l = Ok (list_to_map l ∪ acc).
Proof.
  revert acc. induction l as [|[k v] l IH]; intros acc Hnd Hall.
  - simpl. by rewrite (left_id_L ∅ (∪)).
  - inversion Hnd as [|? ? Hk Hnd']; subst.
    inversion Hall as [|? ? Hkv Hall']; subst. simpl in Hkv.
    simpl. unfold step at 1, Rule_setitem. simpl.
    rewrite bool_decide_eq_true_2 by done. simpl.
    rewrite (IH _ Hnd' Hall'). f_equal.
    change (list_to_map l ∪ <[k:=v]> acc = <[k:=v]> (list_to_map l) ∪ acc).
    rewrite <- insert_union_l. symmetry. apply insert_union_r.
    by apply not_elem_of_list_to_map_1.
Qed.

Lemma foldlM_setitem_refused (l : list (string * json)) (acc : Rule) :
  Exists (λ kv, kv.1 ∉ ALLOWED_KEYS) l →
  ∃ k, k ∈ l.*1 ∧ (k ∉ ALLOWED_KEYS) ∧
       foldlM step acc l = Raise (KeyError ("Key " ++ k ++ " is not allowed on Rule.")).
Proof.
  revert acc. induction l as [|[k v] l IH]; intros acc Hex.
  - inversion Hex.
  - simpl. unfold step at 1, Rule_setitem. simpl.
    destruct (decide (k ∈ ALLOWED_KEYS)) as [Hin|Hout].
    + rewrite bool_decide_eq_true_2 by done. simpl.
      inversion Hex as [? ? Hbad|? ? Hex']; subst; [done|].
      destruct (IH (<[k:=v]> acc) Hex') as (k' & Hk' & Hbad & Heq).
      exists k'. split; [by right|]. by split.
    + rewrite bool_decide_eq_false_2 by done. simpl.
      exists k. split; [by left|]. by split.
Qed.
End rule_init.

Lemma Rule_init_allowed (kwargs : gmap string json) :
  (∀ k, k ∈ dom kwargs → k ∈ ALLOWED_KEYS) → Rule_init kwargs = Ok kwargs.
Proof.
  intros Hall. unfold Rule_init.
  rewrite foldlM_setitem_allowed.
  - by rewrite list_to_map_to_list, (right_id_L ∅ (∪)).
  - apply NoDup_fst_map_to_list.
  - apply Forall_forall. intros [k v] Hkv. simpl.
    apply Hall, elem_of_dom. exists v. by apply elem_of_map_to_list.
Qed.

Lemma Rule_init_refused (kwargs : gmap string json) :
  (∃ k, k ∈ dom kwargs ∧ k ∉ ALLOWED_KEYS) →
  ∃ k, k ∈ dom kwargs ∧ (k ∉ ALLOWED_KEYS) ∧
       Rule_init kwargs = Raise (KeyError ("Key " ++ k ++ " is not allowed on Rule.")).
Proof.
  intros (k & Hk & Hbad). unfold Rule_init.
  apply elem_of_dom in Hk as [v Hv].
  destruct (foldlM_setitem_refused (map_to_list kwargs) ∅) as (k' & Hk' & Hbad' & Heq).
  - apply Exists_exists. exists (k, v). split; [|done].
    by apply elem_of_map_to_list.
  - exists k'. split; [|by split].
    apply list_elem_of_fmap in Hk' as ([k'' v'] & -> & Hin). simpl.
    apply elem_of_dom. exists v'. by apply elem_of_map_to_list.
Qed.

(** C9.  Rule field validation.  Constructing a [Rule] from keyword
    arguments that hold a key outside the nine allowed fields raises a
    [KeyError] naming such a key, so no Rule is produced; constructing it
    from allowed keys only succeeds and the Rule holds exactly the
    keyword arguments. *)
Theorem Rule_field_validation (kwargs : gmap string json) :
  ((∃ k, k ∈ dom kwargs ∧ k ∉ ALLOWED_KEYS) →
     ∃ k, k ∈ dom kwargs ∧ (k ∉ ALLOWED_KEYS) ∧
          Rule_init kwargs = Raise (KeyError ("Key " ++ k ++ " is not allowed on Rule."))) ∧
  ((∀ k, k ∈ dom kwargs → k ∈ ALLOWED_KEYS) → Rule_init kwargs = Ok kwargs).
Proof. split; [apply Rule_init_refused | apply Rule_init_allowed]. Qed.

Lemma Rule_field_validation_witness :
  Rule_init {["action" := (JStr "deny")]} = Ok {["action" := (JStr "deny")]} ∧
  ∃ k, k ∈ dom ({["colour" := (JStr "red")]} : gmap string json) ∧ (k ∉ ALLOWED_KEYS) ∧
       Rule_init {["colour" := (JStr "red")]}
       = Raise (KeyError ("Key " ++ k ++ " is not allowed on Rule.")).
Proof.
  split.
  - apply (proj2 (Rule_field_validation {["action" := (JStr "deny")]})).
    intros k Hk. rewrite dom_singleton_L in Hk.
    apply elem_of_singleton in Hk as ->. apply list_elem_of_In. simpl. tauto.
  - apply (proj1 (Rule_field_validation {["colour" := (JStr "red")]})).
    exists "colour". split.
    + rewrite dom_singleton_L. by apply elem_of_singleton.
    + intros Hin%list_elem_of_In. simpl in Hin. intuition discriminate.
Defined.

(* ===================================================================== *)
(** * Keys *)
(* ===================================================================== *)

Lemma append_assoc (s t u : string) : (s ++ t) ++ u = s ++ (t ++ u).
Proof.
  induction s as [|a s IH]; [done|].
  change (String a ((s ++ t) ++ u) = String a (s ++ (t ++ u))). by rewrite IH.
Qed.

Lemma append_nonempty_r (s t : string) : t ≠ "" → s ++ t ≠ "".
Proof. destruct s; [done|]. intros _. discriminate. Qed.

(** A key that does not end in a slash is its own normal form. *)
Lemma rstrip_slash_append (s t : string) :
  t ≠ "" → rstrip_slash t = t → rstrip_slash (s ++ t) = s ++ t.
Proof.
  intros Hne Ht. induction s as [|a s IH]; [done|].
  change (rstrip_slash (String a (s ++ t)) = String a (s ++ t)).
  simpl. rewrite IH.
  pose proof (append_nonempty_r s t Hne) as Hst.
  by destruct (s ++ t).
Qed.

Lemma rstrip_slash_idemp (s : string) : rstrip_slash (rstrip_slash s) = rstrip_slash s.
Proof.
  induction s as [|a s IH]; [done|]. simpl.
  destruct (rstrip_slash s) as [|b r] eqn:Hr.
  - destruct (Ascii.eqb a "/") eqn:Ha; [done|]. simpl. by rewrite Ha.
  - simpl in *. rewrite IH. done.
Qed.

(** Stripping the slash a directory path ends in. *)
Lemma rstrip_slash_dir (s t : string) :
  t ≠ "" → rstrip_slash t = t → rstrip_slash (s ++ t ++ "/") = s ++ t.
Proof.
  intros Hne Ht.
  assert (H : rstrip_slash (t ++ "/") = t).
  { clear Hne. revert Ht. induction t as [|a t IH]; [done|].
    change (String a t ++ "/") with (String a (t ++ "/")). simpl.
    destruct (rstrip_slash t) as [|b r] eqn:Hr.
    - destruct (Ascii.eqb a "/"); [done|]. intros [= <-]. by rewrite IH.
    - intros [= Hbr]. rewrite IH by done. by rewrite <- Hbr. }
  induction s as [|a s IH]; [done|].
  change (rstrip_slash (String a (s ++ t ++ "/")) = String a (s ++ t)).
  simpl. rewrite IH.
  pose proof (append_nonempty_r s t Hne) as Hst.
  by destruct (s ++ t).
Qed.

Lemma tags_key (name : string) :
  rstrip_slash (PROFILE_PATH name ++ "tags") = PROFILE_PATH name ++ "tags".
Proof. by apply rstrip_slash_append. Qed.

Lemma rules_key (name : string) :
  rstrip_slash (PROFILE_PATH name ++ "rules") = PROFILE_PATH name ++ "rules".
Proof. by apply rstrip_slash_append. Qed.

Lemma tags_rules_distinct (name : string) :
  PROFILE_PATH name ++ "tags" ≠ PROFILE_PATH name ++ "rules".
Proof. intros H. by apply (inj (String.app _)) in H. Qed.

(* ===================================================================== *)
(** * Profiles *)
(* ===================================================================== *)

Lemma Rule_init_singleton (k : string) (v : json) :
  k ∈ ALLOWED_KEYS → Rule_init {[k := v]} = Ok {[k := v]}.
Proof.
  intros Hk. apply Rule_init_allowed. intros k' Hk'.
  rewrite dom_singleton_L in Hk'. by apply elem_of_singleton in Hk' as ->.
Qed.

(** C5.  Profile creation writes the fixed default policy.  For every name
    and every store, [create_group] returns, the profile's [tags] key then
    holds the text of the one-element list of the name itself, and its
    [rules] key holds the policy whose inbound rules are, in this order,
    the rule with [src_tag] the name and the rule with action [deny], and
    whose only outbound rule has action [allow].  What the two keys held
    before plays no role, and no other key changes. *)
Theorem create_group_default_policy (name : string) (s : store) :
  ∃ s', create_group name s = (Ok (), s') ∧
    nodes s' !! ("/calico/policy/profile/" ++ name ++ "/tags")
      = Some (Some (Text ("[" ++ quote ++ name ++ quote ++ "]"))) ∧
    nodes s' !! ("/calico/policy/profile/" ++ name ++ "/rules")
      = Some (Some (json_dumps (default_policy name))) ∧
    (∀ k, k ≠ "/calico/policy/profile/" ++ name ++ "/tags" →
          k ≠ "/calico/policy/profile/" ++ name ++ "/rules" →
          nodes s' !! k = nodes s !! k).
Proof.
  assert (Ht : "/calico/policy/profile/" ++ name ++ "/tags" = PROFILE_PATH name ++ "tags").
  { unfold PROFILE_PATH, PROFILES_PATH. by rewrite !append_assoc. }
  assert (Hr : "/calico/policy/profile/" ++ name ++ "/rules" = PROFILE_PATH name ++ "rules").
  { unfold PROFILE_PATH, PROFILES_PATH. by rewrite !append_assoc. }
  rewrite Ht, Hr.
  unfold create_group, bind, write, lift.
  rewrite !Rule_init_singleton by (apply list_elem_of_In; simpl; tauto).
  rewrite tags_key, rules_key. simpl.
  eexists. split; [reflexivity|]. simpl. split; [|split].
  - rewrite lookup_insert_ne by (apply not_eq_sym, tags_rules_distinct).
    by rewrite lookup_insert_eq.
  - by rewrite lookup_insert_eq.
  - intros k Hk1 Hk2. by rewrite !lookup_insert_ne.
Qed.

(** C2.  Deleting a profile that does not exist.  When nothing exists at
    the profile's path, [delete_group] lets the store's own [KeyError]
    through to the caller; the store is left as it was. *)
Theorem delete_group_absent_raises (name : string) (s : store) :
  exists_node (PROFILE_PATH name) s = false →
  delete_group name s
  = (Raise (KeyError ("Key not found : " ++ rstrip_slash (PROFILE_PATH name))), s).
Proof.
  unfold exists_node, delete_group, bind, delete_recursive.
  intros H. apply orb_false_iff in H as [H1 H2].
  apply bool_decide_eq_false in H1. apply negb_false_iff, bool_decide_eq_true in H2.
  rewrite H2. destruct (nodes s !! rstrip_slash (PROFILE_PATH name)) eqn:Hn.
  - exfalso. apply H1. by eexists.
  - done.
Qed.

Lemma delete_group_absent_raises_witness :
  delete_group "G" (mkStore ∅ 0)
  = (Raise (KeyError "Key not found : /calico/policy/profile/G"), mkStore ∅ 0).
Proof. apply (delete_group_absent_raises "G" (mkStore ∅ 0)). reflexivity. Defined.

(** The sibling operations catch the error: removing a host that was never
    registered returns. *)
Lemma remove_host_absent (hostname : string) (s : store) :
  exists_node (HOST_PATH hostname) s = false →
  remove_host hostname s = (Ok (), s).
Proof.
  unfold exists_node, remove_host, except_KeyError, delete_recursive.
  intros H. apply orb_false_iff in H as [H1 H2].
  apply bool_decide_eq_false in H1. apply negb_false_iff, bool_decide_eq_true in H2.
  rewrite H2. destruct (nodes s !! rstrip_slash (HOST_PATH hostname)) eqn:Hn.
  - exfalso. apply H1. by eexists.
  - done.
Qed.

(* ===================================================================== *)
(** * The endpoint codec *)
(* ===================================================================== *)

Ltac lookup_field :=
  unfold to_json_dict; simpl; by simplify_map_eq.

Ltac step_rbind :=
  match goal with
  | |- context [rbind ?r _] =>
      let H := fresh "Hstep" in
      destruct r eqn:H; simpl; [|by eexists]
  end.

Section endpoint_codec.
Context {nt : AddrText}.

(** ** Sets of networks *)

Lemma IPNetwork_eqb_sym (a b : IPNetwork) : IPNetwork_eqb a b = IPNetwork_eqb b a.
Proof. unfold IPNetwork_eqb. apply bool_decide_ext. split; congruence. Qed.

Lemma IPNetwork_eqb_refl (a : IPNetwork) : IPNetwork_eqb a a = true.
Proof. unfold IPNetwork_eqb. by apply bool_decide_eq_true. Qed.

Lemma netset_mem_app (n : IPNetwork) (s t : netset) :
  netset_mem n (s ++ t)%list = netset_mem n s || netset_mem n t.
Proof. unfold netset_mem. apply existsb_app. Qed.

Lemma netset_wf_app_fresh (acc : netset) (n : IPNetwork) (l : netset) :
  netset_wf (acc ++ n :: l)%list → netset_mem n acc = false.
Proof.
  induction acc as [|a acc IH]; [done|]. simpl. intros [Ha Hwf].
  rewrite netset_mem_app in Ha. apply orb_false_iff in Ha as [_ Ha].
  simpl in Ha. apply orb_false_iff in Ha as [Han _].
  rewrite IPNetwork_eqb_sym, Han. simpl. by apply IH.
Qed.

Lemma add_nets_cons (acc : netset) (x : json) (l : list json) :
  add_nets acc (x :: l)
  = rbind (IPNetwork_new x) (λ n, add_nets (netset_add acc n) l).
Proof. unfold add_nets. simpl. by destruct (IPNetwork_new x). Qed.

Lemma add_nets_str (acc l : netset) :
  Forall net_wf l → netset_wf (acc ++ l)%list →
  add_nets acc ((λ net, JStr (IPNetwork_str net)) <$> l) = Ok (acc ++ l)%list.
Proof.
  revert acc. induction l as [|n l IH]; intros acc Hall Hwf.
  - simpl. by rewrite app_nil_r.
  - inversion Hall as [|? ? Hn Hl]; subst.
    rewrite fmap_cons, add_nets_cons.
    change (IPNetwork_new (JStr (IPNetwork_str n))) with (IPNetwork_of (IPNetwork_str n)).
    rewrite (IPNetwork_of_str n Hn). unfold rbind.
    unfold netset_add. rewrite (netset_wf_app_fresh _ _ _ Hwf).
    rewrite IH; [|done|]; by rewrite <- app_assoc.
Qed.

Lemma add_nets_ok (acc : netset) (l : list json) :
  Forall (λ n, is_ok (IPNetwork_new n) = true) l → ∃ s, add_nets acc l = Ok s.
Proof.
  revert acc. induction l as [|n l IH]; intros acc Hall; [by eexists|].
  inversion Hall as [|? ? Hn Hl]; subst. rewrite add_nets_cons.
  destruct (IPNetwork_new n); [|done]. simpl. by apply IH.
Qed.

Lemma add_nets_raises (acc : netset) (l : list json) (n : json) (e : exn) :
  n ∈ l → IPNetwork_new n = Raise e → ∃ e', add_nets acc l = Raise e'.
Proof.
  revert acc. induction l as [|m l IH]; intros acc Hin Hn; [by inversion Hin|].
  rewrite add_nets_cons. destruct (IPNetwork_new m) as [p|e0] eqn:Hm; simpl; [|by eexists].
  apply elem_of_cons in Hin as [->|Hin]; [congruence|]. by apply IH.
Qed.

(** ** Gateways *)

Lemma read_gateway_json (gw : option IPAddress) :
  (∀ a, gw = Some a → addr_wf a) →
  read_gateway (gateway_json gw) = Ok (kept_gateway gw).
Proof.
  intros Hwf. destruct gw as [a|]; [|done]. simpl.
  destruct (IPAddress_bool a); [|done].
  unfold read_gateway. simpl.
  pose proof (IPAddress_str_nonempty a (Hwf a eq_refl)) as Hne.
  apply String.eqb_neq in Hne. rewrite Hne. simpl.
  by rewrite (IPAddress_of_str a (Hwf a eq_refl)).
Qed.

Lemma gateway_json_kept (gw : option IPAddress) :
  gateway_json (kept_gateway gw) = gateway_json gw.
Proof. destruct gw as [a|]; [|done]. simpl. by destruct (IPAddress_bool a) eqn:Ha; simpl; rewrite ?Ha. Qed.

(** ** Decoding an encoding *)

Lemma to_json_dict_state e : to_json_dict e !! "state" = Some (state e).
Proof. lookup_field. Qed.
Lemma to_json_dict_name e :
  to_json_dict e !! "name" = Some (JStr (IF_PREFIX ++ substring 0 11 (ep_id e))).
Proof. lookup_field. Qed.
Lemma to_json_dict_mac e : to_json_dict e !! "mac" = Some (mac e).
Proof. lookup_field. Qed.
Lemma to_json_dict_profile_id e : to_json_dict e !! "profile_id" = Some (profile_id e).
Proof. lookup_field. Qed.
Lemma to_json_dict_ipv4_nets e :
  to_json_dict e !! "ipv4_nets"
  = Some (JArr ((λ net, JStr (IPNetwork_str net)) <$> ipv4_nets e)).
Proof. lookup_field. Qed.
Lemma to_json_dict_ipv6_nets e :
  to_json_dict e !! "ipv6_nets"
  = Some (JArr ((λ net, JStr (IPNetwork_str net)) <$> ipv6_nets e)).
Proof. lookup_field. Qed.
Lemma to_json_dict_ipv4_gateway e :
  to_json_dict e !! "ipv4_gateway" = Some (gateway_json (ipv4_gateway e)).
Proof. lookup_field. Qed.
Lemma to_json_dict_ipv6_gateway e :
  to_json_dict e !! "ipv6_gateway" = Some (gateway_json (ipv6_gateway e)).
Proof. lookup_field. Qed.

(** Decoding what [to_json] wrote gives the endpoint back, except that a
    gateway whose value is zero comes back absent. *)
Lemma from_json_to_json (e : Endpoint) :
  Endpoint_wf e →
  from_json (ep_id e) (to_json e)
  = Ok (mkEndpoint (ep_id e) (state e) (mac e) (profile_id e)
          (ipv4_nets e) (ipv6_nets e)
          (kept_gateway (ipv4_gateway e)) (kept_gateway (ipv6_gateway e))).
Proof.
  intros [Hs4 Hs6 Hn4 Hn6 Hg4 Hg6].
  unfold from_json, to_json, json_dumps, json_loads, from_json_dict, as_dict, getitem.
  simpl rbind.
  rewrite to_json_dict_state, to_json_dict_mac, to_json_dict_ipv4_nets,
    to_json_dict_ipv6_nets, to_json_dict_ipv4_gateway, to_json_dict_ipv6_gateway,
    to_json_dict_profile_id.
  simpl.
  rewrite (add_nets_str [] _ Hn4 Hs4), (add_nets_str [] _ Hn6 Hs6). simpl.
  rewrite (read_gateway_json _ Hg4), (read_gateway_json _ Hg6). done.
Qed.

(** ** Decoding any payload *)

Lemma read_gateway_blank (g : json) : truthy g = false → read_gateway g = Ok None.
Proof. unfold read_gateway. by intros ->. Qed.

Lemma read_gateway_ok (g : json) :
  truthy g = false ∨ is_ok (IPAddress_new g) = true →
  ∃ gw, read_gateway g = Ok gw ∧ (truthy g = false → gw = None).
Proof.
  intros [Hb|Hok].
  - exists None. by rewrite read_gateway_blank.
  - unfold read_gateway. destruct (truthy g); [|by exists None].
    destruct (IPAddress_new g) as [a|]; [|done]. by exists (Some a).
Qed.

Lemma read_gateway_raises (s : string) (e : exn) :
  s ≠ "" → IPAddress_of s = Raise e → read_gateway (JStr s) = Raise e.
Proof.
  intros Hne He. unfold read_gateway. simpl.
  apply String.eqb_neq in Hne. rewrite Hne. simpl. by rewrite He.
Qed.

Lemma add_nets_first_error (acc : netset) (l1 l2 : list json) (n : json) (e : exn) :
  Forall (λ n, is_ok (IPNetwork_new n) = true) l1 → IPNetwork_new n = Raise e →
  add_nets acc (l1 ++ n :: l2) = Raise e.
Proof.
  revert acc. induction l1 as [|m l1 IH]; intros acc Hall Hn.
  - simpl app. rewrite add_nets_cons. by rewrite Hn.
  - inversion Hall as [|? ? Hm Hl]; subst.
    change ((m :: l1) ++ n :: l2)%list with (m :: (l1 ++ n :: l2))%list.
    rewrite add_nets_cons. destruct (IPNetwork_new m); [|done]. simpl. by apply IH.
Qed.

(** C3.  Which gateways decoding tolerates.  A gateway that is [null] or
    the empty string is left absent: a payload with its fields in place,
    network lists that parse and gateways that are each blank or a valid
    address decodes, with every blank gateway absent.  A gateway that is a
    non-empty string and fails validation is not dropped: [from_json]
    raises, and the error is the one [IPAddress] raised for that text when
    what is read before the gateway is in order.  An entry of a network
    list that fails validation makes [from_json] raise in the same way,
    with the error of the first such entry. *)
Theorem from_json_gateway_tolerance (ep_id : string) (d : gmap string json) :
  (∀ st mc pf l4 l6 g4 g6,
     d !! "state" = Some st → d !! "mac" = Some mc → d !! "profile_id" = Some pf →
     d !! "ipv4_nets" = Some (JArr l4) → d !! "ipv6_nets" = Some (JArr l6) →
     Forall (λ n, is_ok (IPNetwork_new n) = true) l4 →
     Forall (λ n, is_ok (IPNetwork_new n) = true) l6 →
     d !! "ipv4_gateway" = Some g4 → d !! "ipv6_gateway" = Some g6 →
     truthy g4 = false ∨ is_ok (IPAddress_new g4) = true →
     truthy g6 = false ∨ is_ok (IPAddress_new g6) = true →
     ∃ ep, from_json ep_id (json_dumps (JObj d)) = Ok ep ∧
           (truthy g4 = false → ipv4_gateway ep = None) ∧
           (truthy g6 = false → ipv6_gateway ep = None)) ∧
  (∀ k s e,
     k = "ipv4_gateway" ∨ k = "ipv6_gateway" →
     d !! k = Some (JStr s) → s ≠ "" → IPAddress_of s = Raise e →
     ∃ e', from_json ep_id (json_dumps (JObj d)) = Raise e') ∧
  (∀ st mc l4 l6 s e,
     d !! "state" = Some st → d !! "mac" = Some mc →
     d !! "ipv4_nets" = Some (JArr l4) → d !! "ipv6_nets" = Some (JArr l6) →
     Forall (λ n, is_ok (IPNetwork_new n) = true) l4 →
     Forall (λ n, is_ok (IPNetwork_new n) = true) l6 →
     d !! "ipv4_gateway" = Some (JStr s) → s ≠ "" → IPAddress_of s = Raise e →
     from_json ep_id (json_dumps (JObj d)) = Raise e) ∧
  (∀ st mc l4 l6 g4 s e,
     d !! "state" = Some st → d !! "mac" = Some mc →
     d !! "ipv4_nets" = Some (JArr l4) → d !! "ipv6_nets" = Some (JArr l6) →
     Forall (λ n, is_ok (IPNetwork_new n) = true) l4 →
     Forall (λ n, is_ok (IPNetwork_new n) = true) l6 →
     d !! "ipv4_gateway" = Some g4 →
     truthy g4 = false ∨ is_ok (IPAddress_new g4) = true →
     d !! "ipv6_gateway" = Some (JStr s) → s ≠ "" → IPAddress_of s = Raise e →
     from_json ep_id (json_dumps (JObj d)) = Raise e) ∧
  (∀ k l n e,
     k = "ipv4_nets" ∨ k = "ipv6_nets" →
     d !! k = Some (JArr l) → n ∈ l → IPNetwork_new n = Raise e →
     ∃ e', from_json ep_id (json_dumps (JObj d)) = Raise e') ∧
  (∀ st mc l1 l2 n e,
     d !! "state" = Some st → d !! "mac" = Some mc →
     d !! "ipv4_nets" = Some (JArr (l1 ++ n :: l2)) →
     Forall (λ n, is_ok (IPNetwork_new n) = true) l1 → IPNetwork_new n = Raise e →
     from_json ep_id (json_dumps (JObj d)) = Raise e) ∧
  (∀ st mc l4 l1 l2 n e,
     d !! "state" = Some st → d !! "mac" = Some mc →
     d !! "ipv4_nets" = Some (JArr l4) →
     Forall (λ n, is_ok (IPNetwork_new n) = true) l4 →
     d !! "ipv6_nets" = Some (JArr (l1 ++ n :: l2)) →
     Forall (λ n, is_ok (IPNetwork_new n) = true) l1 → IPNetwork_new n = Raise e →
     from_json ep_id (json_dumps (JObj d)) = Raise e).
Proof.
  unfold from_json, json_dumps, json_loads, from_json_dict, as_dict, getitem.
  simpl rbind. repeat apply conj.
  - intros st mc pf l4 l6 g4 g6 Hst Hmc Hpf H4 H6 Hl4 Hl6 Hg4 Hg6 Hb4 Hb6.
    rewrite Hst, Hmc, H4, H6, Hg4, Hg6, Hpf. simpl.
    destruct (add_nets_ok [] l4 Hl4) as [s4 ->].
    destruct (add_nets_ok [] l6 Hl6) as [s6 ->]. simpl.
    destruct (read_gateway_ok g4 Hb4) as (gw4 & -> & Hgw4).
    destruct (read_gateway_ok g6 Hb6) as (gw6 & -> & Hgw6). simpl.
    eexists. split; [reflexivity|]. simpl. by split.
  - intros k s e Hk Hd Hne He.
    destruct (d !! "state"); simpl; [|by eexists].
    destruct (d !! "mac"); simpl; [|by eexists].
    destruct (d !! "ipv4_nets"); simpl; [|by eexists].
    do 2 step_rbind.
    destruct (d !! "ipv6_nets"); simpl; [|by eexists].
    do 2 step_rbind.
    destruct Hk as [-> | ->].
    + rewrite Hd. simpl. rewrite (read_gateway_raises s e Hne He). by eexists.
    + destruct (d !! "ipv4_gateway"); simpl; [|by eexists].
      step_rbind. rewrite Hd. simpl.
      rewrite (read_gateway_raises s e Hne He). by eexists.
  - intros st mc l4 l6 s e Hst Hmc H4 H6 Hl4 Hl6 Hg Hne He.
    rewrite Hst, Hmc, H4, H6, Hg. simpl.
    destruct (add_nets_ok [] l4 Hl4) as [s4 ->].
    destruct (add_nets_ok [] l6 Hl6) as [s6 ->]. simpl.
    by rewrite (read_gateway_raises s e Hne He).
  - intros st mc l4 l6 g4 s e Hst Hmc H4 H6 Hl4 Hl6 Hg4 Hb4 Hg Hne He.
    rewrite Hst, Hmc, H4, H6, Hg4, Hg. simpl.
    destruct (add_nets_ok [] l4 Hl4) as [s4 ->].
    destruct (add_nets_ok [] l6 Hl6) as [s6 ->]. simpl.
    destruct (read_gateway_ok g4 Hb4) as (gw4 & -> & _). simpl.
    by rewrite (read_gateway_raises s e Hne He).
  - intros k l n e Hk Hd Hin Hn.
    destruct (d !! "state"); simpl; [|by eexists].
    destruct (d !! "mac"); simpl; [|by eexists].
    destruct Hk as [-> | ->].
    + rewrite Hd. simpl.
      destruct (add_nets_raises [] l n e Hin Hn) as [e' ->]. by eexists.
    + destruct (d !! "ipv4_nets"); simpl; [|by eexists].
      do 2 step_rbind. rewrite Hd. simpl.
      destruct (add_nets_raises [] l n e Hin Hn) as [e' ->]. by eexists.
  - intros st mc l1 l2 n e Hst Hmc H4 Hl1 Hn.
    rewrite Hst, Hmc, H4. simpl.
    by rewrite (add_nets_first_error [] l1 l2 n e Hl1 Hn).
  - intros st mc l4 l1 l2 n e Hst Hmc H4 Hl4 H6 Hl1 Hn.
    rewrite Hst, Hmc, H4, H6. simpl.
    destruct (add_nets_ok [] l4 Hl4) as [s4 ->]. simpl.
    by rewrite (add_nets_first_error [] l1 l2 n e Hl1 Hn).
Qed.

End endpoint_codec.

(** C1.  The round trip loses a gateway whose value is zero.  The endpoint
    with IPv4 gateway [0.0.0.0] is one the adapter can hold, [0.0.0.0]
    being what [IPAddress] reads from that text; its encoding decodes, and
    the endpoint decoded has no IPv4 gateway. *)
Theorem zero_gateway_lost :
  Endpoint_wf zero_gateway_endpoint ∧
  IPAddress_of "0.0.0.0" = Ok (mkAddr IPv4 0) ∧
  ipv4_gateway zero_gateway_endpoint = Some (mkAddr IPv4 0) ∧
  ∃ e', from_json (ep_id zero_gateway_endpoint) (to_json zero_gateway_endpoint) = Ok e' ∧
        ipv4_gateway e' = None.
Proof.
  assert (Hwf : Endpoint_wf zero_gateway_endpoint).
  { split; simpl; try done.
    - repeat constructor; vm_compute; congruence.
    - intros a [= <-]. by vm_compute. }
  split; [done|]. split; [by vm_compute|]. split; [done|].
  eexists. split; [by apply from_json_to_json|]. done.
Qed.

(** A payload with a blank IPv4 gateway decodes without it; with the text
    [not-an-ip] in its place decoding raises the error of [IPAddress]. *)
Lemma from_json_gateway_tolerance_witness :
  (∃ ep, from_json "e1" (json_dumps (JObj (payload (JStr "calie1") (JStr "") JNull))) = Ok ep ∧
         (truthy (JStr "") = false → ipv4_gateway ep = None) ∧
         (truthy JNull = false → ipv6_gateway ep = None)) ∧
  from_json "e1" (json_dumps (JObj (payload (JStr "calie1") (JStr "not-an-ip") JNull)))
  = Raise AddrFormatError.
Proof.
  split.
  - apply (proj1 (from_json_gateway_tolerance "e1"
                    (payload (JStr "calie1") (JStr "") JNull))
             (JStr "active") (JStr "ee:ee:ee:ee:ee:ee") JNull [JStr "10.0.0.1/32"] []
             (JStr "") JNull);
      try reflexivity.
    + repeat constructor.
    + constructor.
    + by left.
    + by left.
  - apply (proj1 (proj2 (proj2 (from_json_gateway_tolerance "e1"
                    (payload (JStr "calie1") (JStr "not-an-ip") JNull))))
             (JStr "active") (JStr "ee:ee:ee:ee:ee:ee") [JStr "10.0.0.1/32"] []
             "not-an-ip" AddrFormatError);
      try reflexivity.
    + repeat constructor.
    + constructor.
    + discriminate.
Defined.

(** The claim as stated fails: a gateway text that fails validation is not
    dropped, decoding raises the validation error. *)
Lemma bad_gateway_raises :
  IPAddress_of "not-an-ip" = Raise AddrFormatError ∧
  from_json "e1" (json_dumps (JObj (payload (JStr "calie1") (JStr "not-an-ip") JNull)))
  = Raise AddrFormatError.
Proof. split; by vm_compute. Qed.

(* ===================================================================== *)
(** * Next hops *)
(* ===================================================================== *)

Section next_hops.
Context {nt : AddrText}.

Lemma read_value (path : string) (recursive : bool) (s : store) (v : text) :
  nodes s !! rstrip_slash path = Some (Some v) →
  read path recursive s = (Ok (mkResult (rstrip_slash path) (Some v) []), s).
Proof. unfold read. by intros ->. Qed.

Lemma host_key (hostname leaf : string) :
  leaf ≠ "" → rstrip_slash leaf = leaf →
  rstrip_slash (HOST_PATH hostname ++ leaf) = "/calico/host/" ++ hostname ++ "/" ++ leaf.
Proof.
  intros Hne Hl. rewrite rstrip_slash_append by done.
  unfold HOST_PATH, HOSTS_PATH. by rewrite !append_assoc.
Qed.

Lemma get_default_next_hops_texts (hostname : string) (s : store) (t4 t6 : string) :
  nodes s !! ("/calico/host/" ++ hostname ++ "/bird_ip") = Some (Some (Text t4)) →
  nodes s !! ("/calico/host/" ++ hostname ++ "/bird6_ip") = Some (Some (Text t6)) →
  get_default_next_hops hostname s
  = (rbind (try_next_hop ∅ 4 (Some (Text t4)))
           (λ hops, try_next_hop hops 6 (Some (Text t6))), s).
Proof.
  intros H4 H6.
  assert (K4 : rstrip_slash (HOST_PATH hostname ++ "bird_ip")
               = "/calico/host/" ++ hostname ++ "/bird_ip")
    by (by apply (host_key hostname "bird_ip")).
  assert (K6 : rstrip_slash (HOST_PATH hostname ++ "bird6_ip")
               = "/calico/host/" ++ hostname ++ "/bird6_ip")
    by (by apply (host_key hostname "bird6_ip")).
  rewrite <- K4 in H4. rewrite <- K6 in H6.
  unfold get_default_next_hops, bind, lift, ret.
  rewrite (read_value _ _ _ _ H4), (read_value _ _ _ _ H6). cbn [value].
  destruct (try_next_hop ∅ 4 (Some (Text t4))) as [hops|e]; [|done]. cbn [rbind].
  by destruct (try_next_hop hops 6 (Some (Text t6))).
Qed.

Lemma get_default_next_hops_run (hostname : string) (s : store) (t4 t6 : string) :
  nodes s !! ("/calico/host/" ++ hostname ++ "/bird_ip") = Some (Some (Text t4)) →
  nodes s !! ("/calico/host/" ++ hostname ++ "/bird6_ip") = Some (Some (Text t6)) →
  (∀ e, IPAddress_of t4 = Raise e → e = AddrFormatError) →
  (∀ e, IPAddress_of t6 = Raise e → e = AddrFormatError) →
  ∃ hops, get_default_next_hops hostname s = (Ok hops, s) ∧
          (∀ a, hops !! 4%Z = Some a ↔ IPAddress_of t4 = Ok a) ∧
          (∀ a, hops !! 6%Z = Some a ↔ IPAddress_of t6 = Ok a) ∧
          (∀ k, k ≠ 4%Z → k ≠ 6%Z → hops !! k = None).
Proof.
  intros H4 H6 He4 He6. rewrite (get_default_next_hops_texts _ _ _ _ H4 H6).
  unfold try_next_hop, IPAddress_value.
  destruct (IPAddress_of t4) as [a4|e4] eqn:Hp4;
    [|rewrite (He4 e4 eq_refl)];
    (destruct (IPAddress_of t6) as [a6|e6] eqn:Hp6;
       [|rewrite (He6 e6 eq_refl)]);
    cbn [rbind]; eexists; (split; [reflexivity|]);
    repeat split; intros; simplify_map_eq; done.
Qed.

Lemma get_default_next_hops_raises (hostname : string) (s : store) (t4 t6 : string)
    (e : exn) :
  nodes s !! ("/calico/host/" ++ hostname ++ "/bird_ip") = Some (Some (Text t4)) →
  nodes s !! ("/calico/host/" ++ hostname ++ "/bird6_ip") = Some (Some (Text t6)) →
  e ≠ AddrFormatError →
  (IPAddress_of t4 = Raise e ∨
   (∀ e4, IPAddress_of t4 = Raise e4 → e4 = AddrFormatError) ∧ IPAddress_of t6 = Raise e) →
  get_default_next_hops hostname s = (Raise e, s).
Proof.
  intros H4 H6 Hne Hcase. rewrite (get_default_next_hops_texts _ _ _ _ H4 H6).
  unfold try_next_hop, IPAddress_value.
  destruct Hcase as [Hp4|[He4 Hp6]].
  - rewrite Hp4. by destruct e.
  - destruct (IPAddress_of t4) as [a4|e4] eqn:Hp4;
      [|rewrite (He4 e4 eq_refl)]; cbn [rbind]; rewrite Hp6; by destruct e.
Qed.

(** C8.  Next hops are filtered by what [IPAddress] accepts, whatever the
    version.  With texts stored at [bird_ip] and [bird6_ip] that
    [IPAddress] either accepts or refuses with [AddrFormatError],
    [get_default_next_hops] returns; key 4 is present exactly when
    [IPAddress], called with no version, accepts the [bird_ip] text, and
    holds the address it read, of either version; key 6 likewise for
    [bird6_ip]; no other key is present.  An error of [IPAddress] other
    than [AddrFormatError] is not caught. *)
Theorem next_hops_by_detection (hostname : string) (s : store) (t4 t6 : string) :
  nodes s !! ("/calico/host/" ++ hostname ++ "/bird_ip") = Some (Some (Text t4)) →
  nodes s !! ("/calico/host/" ++ hostname ++ "/bird6_ip") = Some (Some (Text t6)) →
  ((∀ e, IPAddress_of t4 = Raise e → e = AddrFormatError) →
   (∀ e, IPAddress_of t6 = Raise e → e = AddrFormatError) →
   ∃ hops, get_default_next_hops hostname s = (Ok hops, s) ∧
           (∀ a, hops !! 4%Z = Some a ↔ IPAddress_of t4 = Ok a) ∧
           (∀ a, hops !! 6%Z = Some a ↔ IPAddress_of t6 = Ok a) ∧
           (∀ k, k ≠ 4%Z → k ≠ 6%Z → hops !! k = None)) ∧
  (∀ e, e ≠ AddrFormatError →
        IPAddress_of t4 = Raise e ∨
        (∀ e4, IPAddress_of t4 = Raise e4 → e4 = AddrFormatError) ∧
        IPAddress_of t6 = Raise e →
        get_default_next_hops hostname s = (Raise e, s)).
Proof.
  intros H4 H6. split.
  - by apply get_default_next_hops_run.
  - intros e. by apply get_default_next_hops_raises.
Qed.

End next_hops.

Lemma next_hops_by_detection_witness :
  ∃ hops, get_default_next_hops "h1" ipv6_bird_store = (Ok hops, ipv6_bird_store) ∧
          (∀ a, hops !! 4%Z = Some a ↔ IPAddress_of "fd80:24e2:f998:72d6::1" = Ok a) ∧
          (∀ a, hops !! 6%Z = Some a ↔ IPAddress_of "" = Ok a) ∧
          (∀ k, k ≠ 4%Z → k ≠ 6%Z → hops !! k = None).
Proof.
  apply (proj1 (next_hops_by_detection "h1" ipv6_bird_store "fd80:24e2:f998:72d6::1" ""
                  eq_refl eq_refl)).
  - intros e He. vm_compute in He. discriminate.
  - intros e He. vm_compute in He. by injection He as <-.
Defined.

(** The claim as stated fails: key 4 is present although the [bird_ip]
    text is not an IPv4 address; it holds the IPv6 address the text is. *)
Lemma next_hop_4_holds_ipv6 :
  ∃ hops a, IPAddress_of "fd80:24e2:f998:72d6::1" = Ok a ∧ addr_version a = IPv6 ∧
            get_default_next_hops "h1" ipv6_bird_store = (Ok hops, ipv6_bird_store) ∧
            hops !! 4%Z = Some a.
Proof. eexists _, _. repeat split; by vm_compute. Qed.

(* ===================================================================== *)
(** * The host tree *)
(* ===================================================================== *)

Ltac marker_list :=
  repeat (constructor; [split; [vm_compute; lia | reflexivity]|]); constructor.

Section host_tree.
Context {nt : AddrText}.

Lemma marker_step (h : string) (hosts : Hosts) (child : node) :
  is_marker h child → host_step hosts child = Ok (ensure_host hosts h).
Proof.
  unfold is_marker, host_step. intros [[Hlo Hhi] Hh].
  assert (Hc : ((4 <? length (split "/" child.1))%nat
                && (length (split "/" child.1) <? 9)%nat) = true).
  { apply andb_true_iff. split; by apply Nat.ltb_lt. }
  rewrite Hc.
  destruct (split "/" child.1) as [|p0 [|p1 [|p2 [|p3 [|p4 rest]]]]];
    simpl in Hlo; try lia.
  simpl in Hh. by injection Hh as ->.
Qed.

Lemma ensure_host_empty (h : string) : ensure_host ∅ h = {[h := ∅]}.
Proof.
  unfold ensure_host, vivi. rewrite lookup_empty. simpl.
  by rewrite bool_decide_eq_true_2, insert_empty.
Qed.

Lemma ensure_host_again (h : string) : ensure_host {[h := ∅]} h = {[h := ∅]}.
Proof.
  unfold ensure_host, vivi. rewrite lookup_singleton_eq. simpl.
  by rewrite bool_decide_eq_true_2, insert_singleton_eq.
Qed.

Lemma ensure_host_filled (h : string) (hosts : Hosts) d :
  hosts !! h = Some d → d ≠ ∅ → ensure_host hosts h = hosts.
Proof.
  intros Hd Hne. unfold ensure_host, vivi. rewrite Hd. simpl.
  by rewrite bool_decide_eq_false_2.
Qed.

Lemma markers_from_host (h : string) (l : list node) :
  Forall (is_marker h) l → for_each host_step {[h := ∅]} l = ({[h := ∅]}, None).
Proof.
  induction 1 as [|child l Hc _ IH]; [done|].
  simpl. by rewrite (marker_step h _ _ Hc), ensure_host_again.
Qed.

Lemma markers_from_empty (h : string) (l : list node) :
  l ≠ [] → Forall (is_marker h) l → for_each host_step ∅ l = ({[h := ∅]}, None).
Proof.
  intros Hne Hall. destruct l as [|child l]; [done|].
  inversion Hall as [|? ? Hc Hl]; subst. simpl.
  rewrite (marker_step h _ _ Hc), ensure_host_empty. by apply markers_from_host.
Qed.

Lemma markers_keep (h : string) (hosts : Hosts) d (l : list node) :
  hosts !! h = Some d → d ≠ ∅ → Forall (is_marker h) l →
  for_each host_step hosts l = (hosts, None).
Proof.
  intros Hd Hne. induction 1 as [|child l Hc _ IH]; [done|].
  simpl. by rewrite (marker_step h _ _ Hc), (ensure_host_filled _ _ _ Hd Hne).
Qed.

Lemma for_each_app {A S} (body : S → A → result S) (st : S) (l1 l2 : list A) :
  for_each body st (l1 ++ l2)
  = match for_each body st l1 with
    | (st', None) => for_each body st' l2
    | r => r
    end.
Proof.
  revert st. induction l1 as [|x l1 IH]; intros st; simpl.
  - by destruct (for_each body st l2) as [? []].
  - destruct (body st x); [apply IH|done].
Qed.

Lemma endpoint_step (hosts : Hosts) (t : text) (ep : Endpoint) (m : string) :
  from_json "e1" t = Ok ep → py_str (mac ep) = Ok m →
  host_step hosts ("/calico/host/h1/workload/docker/c1/endpoint/e1", Some t)
  = Ok (set_endpoint_dict hosts "h1" "docker" "c1" "e1"
          (IPNetwork_str <$> netset_union (ipv4_nets ep) (ipv6_nets ep)) m (state ep)).
Proof.
  intros Hep Hm. unfold host_step.
  change (split "/" ("/calico/host/h1/workload/docker/c1/endpoint/e1", Some t).1)
    with [""; "calico"; "host"; "h1"; "workload"; "docker"; "c1"; "endpoint"; "e1"].
  simpl. rewrite Hep. simpl. by rewrite Hm.
Qed.

Lemma set_endpoint_dict_fresh (hosts : Hosts) (addrs : list string) (m : string) (st : json) :
  hosts = ∅ ∨ hosts = {["h1" := ∅]} →
  set_endpoint_dict hosts "h1" "docker" "c1" "e1" addrs m st
  = {["h1" := {["docker" := {["c1" := {["e1" :=
       <["state" := st]> (<["mac" := JStr m]> (<["addrs" := JArr (JStr <$> addrs)]> ∅))]}]}]}]}.
Proof.
  intros [-> | ->]; unfold set_endpoint_dict, vivi.
  - rewrite !lookup_empty. simpl. by rewrite !insert_empty.
  - rewrite lookup_singleton_eq. simpl. rewrite !lookup_empty. simpl.
    by rewrite insert_singleton_eq, !insert_empty.
Qed.

Lemma endpoint_record_inserts (ep : Endpoint) (m : string) :
  endpoint_record ep m
  = <["state" := state ep]>
      (<["mac" := JStr m]>
         (<["addrs" := JArr (JStr <$> (IPNetwork_str <$>
                              netset_union (ipv4_nets ep) (ipv6_nets ep)))]> ∅)).
Proof.
  unfold endpoint_record. simpl. apply map_eq. intros k.
  destruct (decide (k = "state")) as [->|]; [by simplify_map_eq|].
  destruct (decide (k = "mac")) as [->|]; [by simplify_map_eq|].
  destruct (decide (k = "addrs")) as [->|]; by simplify_map_eq.
Qed.

Lemma markers_nonempty_or_host (h : string) (l : list node) :
  Forall (is_marker h) l →
  ∃ hosts, for_each host_step ∅ l = (hosts, None) ∧ (hosts = ∅ ∨ hosts = {[h := ∅]}).
Proof.
  intros Hall. destruct l as [|c l].
  - exists ∅. split; [done|by left].
  - exists {[h := ∅]}. split; [by apply markers_from_empty|by right].
Qed.

Lemma get_hosts_listing (s : store) (r : EtcdResult) (hosts : Hosts) :
  read "/calico/host" true s = (Ok r, s) →
  for_each host_step ∅ (leaves r) = (hosts, None) →
  get_hosts s = (Ok hosts, s).
Proof. unfold get_hosts. by intros -> ->. Qed.

Lemma get_hosts_markers (s : store) (r : EtcdResult) :
  read "/calico/host" true s = (Ok r, s) →
  Forall (is_marker "h1") (leaves r) →
  get_hosts s = (Ok {["h1" := ∅]}, s).
Proof.
  intros Hr Hall. apply (get_hosts_listing s r _ Hr).
  apply markers_from_empty; [|done].
  unfold leaves. by destruct (below r).
Qed.

Lemma get_hosts_endpoint (s : store) (r : EtcdResult) (l1 l2 : list node)
    (t : text) (ep : Endpoint) (m : string) :
  read "/calico/host" true s = (Ok r, s) →
  leaves r = (l1 ++ ("/calico/host/h1/workload/docker/c1/endpoint/e1", Some t) :: l2)%list →
  Forall (is_marker "h1") l1 → Forall (is_marker "h1") l2 →
  from_json "e1" t = Ok ep → py_str (mac ep) = Ok m →
  get_hosts s
  = (Ok {["h1" := {["docker" := {["c1" := {["e1" := endpoint_record ep m]}]}]}]}, s).
Proof.
  intros Hr Hl H1 H2 Hep Hm. apply (get_hosts_listing s r _ Hr).
  rewrite Hl, for_each_app.
  destruct (markers_nonempty_or_host "h1" l1 H1) as (h0 & -> & Hh0).
  simpl. rewrite (endpoint_step _ _ _ _ Hep Hm).
  rewrite (set_endpoint_dict_fresh _ _ _ _ Hh0), <- endpoint_record_inserts.
  eapply markers_keep; [apply lookup_singleton_eq| |done].
  intros Hempty. apply (f_equal (λ d, d !! "docker")) in Hempty.
  by rewrite lookup_singleton_eq, lookup_empty in Hempty.
Qed.

Lemma get_hosts_empty_root (s : store) :
  nodes s !! "/calico/host" = None ∨ nodes s !! "/calico/host" = Some None →
  descendants "/calico/host" s = [] →
  get_hosts s = (Ok ∅, s).
Proof.
  intros Hn Hd. unfold get_hosts, read.
  change (rstrip_slash "/calico/host") with "/calico/host".
  rewrite Hd. by destruct Hn as [-> | ->].
Qed.

Lemma endpoint_record_host_record (ep : Endpoint) (m : string) :
  endpoint_record ep m
  = host_record (IPNetwork_str <$> netset_union (ipv4_nets ep) (ipv6_nets ep))
      m (state ep).
Proof. done. Qed.

(** C4.  Decoding the host tree.  When the recursive listing of the hosts
    root holds only leaves of five to eight slots under host [h1] (the
    empty [docker] directory among them), [get_hosts] returns the mapping
    with [h1] alone, mapped to an empty mapping: such a leaf creates its
    host's entry and nothing below it.  When the listing also holds the
    endpoint leaf [h1/workload/docker/c1/endpoint/e1] with a payload that
    decodes, [get_hosts] nests under [h1], [docker], [c1], [e1] the record
    with the endpoint's state, its mac, and a list of the strings of the
    networks in the union of its IPv4 and IPv6 networks, in some order.
    When the hosts root is absent, or is a directory with nothing in it,
    [get_hosts] returns the empty mapping. *)
Theorem get_hosts_tree (s : store) :
  (∀ r, read "/calico/host" true s = (Ok r, s) →
        Forall (is_marker "h1") (leaves r) →
        get_hosts s = (Ok {["h1" := ∅]}, s)) ∧
  (∀ r l1 l2 t ep m,
        read "/calico/host" true s = (Ok r, s) →
        leaves r = (l1 ++ ("/calico/host/h1/workload/docker/c1/endpoint/e1", Some t)
                          :: l2)%list →
        Forall (is_marker "h1") l1 → Forall (is_marker "h1") l2 →
        from_json "e1" t = Ok ep → py_str (mac ep) = Ok m →
        ∃ addrs,
          addrs ≡ₚ IPNetwork_str <$> netset_union (ipv4_nets ep) (ipv6_nets ep) ∧
          get_hosts s
          = (Ok {["h1" := {["docker" := {["c1" := {["e1" :=
                   host_record addrs m (state ep)]}]}]}]}, s)) ∧
  (nodes s !! "/calico/host" = None ∨ nodes s !! "/calico/host" = Some None →
   descendants "/calico/host" s = [] →
   get_hosts s = (Ok ∅, s)).
Proof.
  split; [|split].
  - apply get_hosts_markers.
  - intros r l1 l2 t ep m Hr Hl H1 H2 Hep Hm.
    exists (IPNetwork_str <$> netset_union (ipv4_nets ep) (ipv6_nets ep)).
    split; [done|]. rewrite <- endpoint_record_host_record.
    by apply (get_hosts_endpoint s r l1 l2 t).
  - apply get_hosts_empty_root.
Qed.

End host_tree.

Lemma get_hosts_tree_witness :
  get_hosts markers_store = (Ok {["h1" := ∅]}, markers_store) ∧
  (∃ addrs,
     addrs ≡ₚ IPNetwork_str <$> netset_union (ipv4_nets two_nets_endpoint)
                                             (ipv6_nets two_nets_endpoint) ∧
     get_hosts (endpoint_store (json_dumps (JObj two_nets_payload)))
     = (Ok {["h1" := {["docker" := {["c1" := {["e1" :=
               host_record addrs "ee:ee:ee:ee:ee:ee" (state two_nets_endpoint)]}]}]}]},
        endpoint_store (json_dumps (JObj two_nets_payload)))) ∧
  get_hosts (mkStore ∅ 0) = (Ok ∅, mkStore ∅ 0).
Proof.
  split; [|split].
  - apply (proj1 (get_hosts_tree markers_store)
             (mkResult "/calico/host" None
                [("/calico/host/h1/workload/docker", None);
                 ("/calico/host/h1/config/marker", Some (Text "created"));
                 ("/calico/host/h1/bird_ip", Some (Text "10.0.0.1"))])).
    + reflexivity.
    + marker_list.
  - apply (proj1 (proj2 (get_hosts_tree _))
             (mkResult "/calico/host" None
                [("/calico/host/h1/workload/docker/c1/endpoint/e1",
                  Some (json_dumps (JObj two_nets_payload)));
                 ("/calico/host/h1/config/marker", Some (Text "created"));
                 ("/calico/host/h1/bird_ip", Some (Text "10.0.0.1"))])
             []
             [("/calico/host/h1/config/marker", Some (Text "created"));
              ("/calico/host/h1/bird_ip", Some (Text "10.0.0.1"))]
             (json_dumps (JObj two_nets_payload))
             two_nets_endpoint "ee:ee:ee:ee:ee:ee").
    + by vm_compute.
    + reflexivity.
    + constructor.
    + marker_list.
    + by vm_compute.
    + reflexivity.
  - apply (proj2 (proj2 (get_hosts_tree (mkStore ∅ 0)))).
    + by left.
    + reflexivity.
Defined.

(** The claim as stated fails on its first part: with the directory
    markers alone, [h1] maps to an empty mapping, not to one that holds
    [docker]. *)
Lemma markers_give_no_container_type :
  get_hosts markers_store = (Ok {["h1" := ∅]}, markers_store) ∧
  ({["h1" := ∅]} : Hosts) ≠ {["h1" := {["docker" := ∅]}]}.
Proof.
  split.
  - apply (get_hosts_markers markers_store
             (mkResult "/calico/host" None
                [("/calico/host/h1/workload/docker", None);
                 ("/calico/host/h1/config/marker", Some (Text "created"));
                 ("/calico/host/h1/bird_ip", Some (Text "10.0.0.1"))])).
    + reflexivity.
    + marker_list.
  - intros Heq. apply (f_equal (λ d, d !! "h1")) in Heq.
    rewrite !lookup_singleton_eq in Heq. apply (inj Some) in Heq.
    apply (f_equal (λ d, d !! "docker")) in Heq.
    by rewrite lookup_singleton_eq, lookup_empty in Heq.
Qed.

(* ===================================================================== *)
(** * Assigning a profile *)
(* ===================================================================== *)

Section assign.
Context {nt : AddrText}.

Lemma from_json_ep_id (ep_id0 : string) (t : text) (ep : Endpoint) :
  from_json ep_id0 t = Ok ep → ep_id ep = ep_id0.
Proof.
  unfold from_json, from_json_dict.
  destruct (json_loads t); simpl; [|done].
  repeat match goal with
         | |- context [rbind ?r _] => destruct r; simpl; [|done]
         end.
  by intros [= <-].
Qed.

(** Reading, changing the profile and writing back: the rest of the
    endpoint is re-encoded from what was decoded. *)
Lemma rewrite_profile (hostname container_id endpoint_id : string) (t : text)
    (ep : Endpoint) (p : json) (s : store) :
  get_ep_id_from_cont hostname container_id s = (Ok endpoint_id, s) →
  nodes s !! rstrip_slash (ENDPOINT_PATH hostname container_id endpoint_id)
    = Some (Some t) →
  from_json endpoint_id t = Ok ep →
  (let! endpoint_id := get_ep_id_from_cont hostname container_id in
   let! ep := get_endpoint hostname container_id endpoint_id in
   set_endpoint hostname container_id (set_profile_id ep p)) s
  = (Ok (),
     mkStore (<[rstrip_slash (ENDPOINT_PATH hostname container_id endpoint_id)
                := Some (to_json (set_profile_id ep p))]> (nodes s)) (index s)).
Proof.
  intros Hid Hn Hep. unfold bind at 1. rewrite Hid.
  unfold get_endpoint, lift, bind. rewrite (read_value _ _ _ _ Hn). simpl.
  rewrite Hep. unfold set_endpoint, write. simpl.
  by rewrite (from_json_ep_id _ _ _ Hep).
Qed.

Lemma to_json_dict_set_profile (e : Endpoint) (p : json) :
  to_json_dict
    (set_profile_id
       (mkEndpoint (ep_id e) (state e) (mac e) (profile_id e) (ipv4_nets e) (ipv6_nets e)
          (kept_gateway (ipv4_gateway e)) (kept_gateway (ipv6_gateway e))) p)
  = <["profile_id" := p]> (to_json_dict e).
Proof.
  unfold to_json_dict, set_profile_id. simpl. rewrite !gateway_json_kept.
  apply map_eq. intros k.
  destruct (decide (k = "state")) as [->|]; [by simplify_map_eq|].
  destruct (decide (k = "name")) as [->|]; [by simplify_map_eq|].
  destruct (decide (k = "mac")) as [->|]; [by simplify_map_eq|].
  destruct (decide (k = "profile_id")) as [->|]; [by simplify_map_eq|].
  destruct (decide (k = "ipv4_nets")) as [->|]; [by simplify_map_eq|].
  destruct (decide (k = "ipv6_nets")) as [->|]; [by simplify_map_eq|].
  destruct (decide (k = "ipv4_gateway")) as [->|]; [by simplify_map_eq|].
  destruct (decide (k = "ipv6_gateway")) as [->|]; [by simplify_map_eq|].
  by simplify_map_eq.
Qed.

Lemma only_profile_differs_insert (e : Endpoint) (p : json) :
  only_profile_differs (<["profile_id" := p]> (to_json_dict e)) (to_json_dict e).
Proof.
  unfold only_profile_differs, same_entries.
  rewrite !lookup_insert_ne by done.
  repeat split; try done.
  - rewrite to_json_dict_ipv4_nets. by eexists _, _.
  - rewrite to_json_dict_ipv6_nets. by eexists _, _.
Qed.

(** C10.  Profile assignment changes the profile only, on a payload the
    codec wrote.  When the container resolves to an endpoint whose stored
    payload is the encoding of an endpoint under that id (what [to_json]
    writes, its networks and gateways in the text the package prints),
    adding the workload to a group and removing it from its group return
    and write back, at the same key, a payload that holds the new
    [profile_id] (the group name, or [null]) and agrees with the payload
    read on [state], [name], [mac], the entries of [ipv4_nets] and
    [ipv6_nets], and both gateways. *)
Theorem profile_assignment_frame (hostname container_id endpoint_id : string)
    (e : Endpoint) (s : store) :
  Endpoint_wf e → ep_id e = endpoint_id →
  get_ep_id_from_cont hostname container_id s = (Ok endpoint_id, s) →
  nodes s !! rstrip_slash (ENDPOINT_PATH hostname container_id endpoint_id)
    = Some (Some (to_json e)) →
  (∀ group_name, ∃ d',
     add_workload_to_group hostname group_name container_id s
     = (Ok (),
        mkStore (<[rstrip_slash (ENDPOINT_PATH hostname container_id endpoint_id)
                   := Some (json_dumps (JObj d'))]> (nodes s)) (index s)) ∧
     d' !! "profile_id" = Some (JStr group_name) ∧
     only_profile_differs d' (to_json_dict e)) ∧
  (∃ d',
     remove_workload_from_group hostname container_id s
     = (Ok (),
        mkStore (<[rstrip_slash (ENDPOINT_PATH hostname container_id endpoint_id)
                   := Some (json_dumps (JObj d'))]> (nodes s)) (index s)) ∧
     d' !! "profile_id" = Some JNull ∧
     only_profile_differs d' (to_json_dict e)).
Proof.
  intros Hwf Hid Hres Hn.
  pose proof (from_json_to_json e Hwf) as Hdec. rewrite Hid in Hdec.
  split; [intros group_name|].
  - exists (<["profile_id" := JStr group_name]> (to_json_dict e)).
    split; [|split].
    + unfold add_workload_to_group.
      rewrite (rewrite_profile _ _ _ _ _ (JStr group_name) _ Hres Hn Hdec).
      unfold to_json. by rewrite <- Hid, to_json_dict_set_profile.
    + by rewrite lookup_insert_eq.
    + apply only_profile_differs_insert.
  - exists (<["profile_id" := JNull]> (to_json_dict e)).
    split; [|split].
    + unfold remove_workload_from_group.
      rewrite (rewrite_profile _ _ _ _ _ JNull _ Hres Hn Hdec).
      unfold to_json. by rewrite <- Hid, to_json_dict_set_profile.
    + by rewrite lookup_insert_eq.
    + apply only_profile_differs_insert.
Qed.

End assign.

Lemma plain_endpoint_wf : Endpoint_wf plain_endpoint.
Proof.
  split; simpl; try done.
  repeat constructor; vm_compute; congruence.
Qed.

Lemma profile_assignment_frame_witness :
  (∀ group_name, ∃ d',
     add_workload_to_group "h1" group_name "c1" (endpoint_store (to_json plain_endpoint))
     = (Ok (),
        mkStore (<[rstrip_slash (ENDPOINT_PATH "h1" "c1" "e1")
                   := Some (json_dumps (JObj d'))]>
                   (nodes (endpoint_store (to_json plain_endpoint))))
                (index (endpoint_store (to_json plain_endpoint)))) ∧
     d' !! "profile_id" = Some (JStr group_name) ∧
     only_profile_differs d' (to_json_dict plain_endpoint)) ∧
  (∃ d',
     remove_workload_from_group "h1" "c1" (endpoint_store (to_json plain_endpoint))
     = (Ok (),
        mkStore (<[rstrip_slash (ENDPOINT_PATH "h1" "c1" "e1")
                   := Some (json_dumps (JObj d'))]>
                   (nodes (endpoint_store (to_json plain_endpoint))))
                (index (endpoint_store (to_json plain_endpoint)))) ∧
     d' !! "profile_id" = Some JNull ∧
     only_profile_differs d' (to_json_dict plain_endpoint)).
Proof.
  apply (profile_assignment_frame "h1" "c1" "e1" plain_endpoint
           (endpoint_store (to_json plain_endpoint))).
  - apply plain_endpoint_wf.
  - reflexivity.
  - vm_compute. reflexivity.
  - reflexivity.
Defined.

(** The claim as stated fails: a stored payload that decodes, but whose
    [name] is not the one the codec derives from the endpoint id, comes
    back with its [name] replaced. *)
Lemma assignment_rewrites_name :
  from_json "e1" (json_dumps (JObj (payload (JStr "eth0") JNull JNull))) = Ok plain_endpoint ∧
  add_workload_to_group "h1" "G" "c1"
    (endpoint_store (json_dumps (JObj (payload (JStr "eth0") JNull JNull))))
  = (Ok (),
     mkStore (<["/calico/host/h1/workload/docker/c1/endpoint/e1"
                := Some (json_dumps (JObj (to_json_dict
                           (set_profile_id plain_endpoint (JStr "G")))))]>
                (nodes (endpoint_store
                          (json_dumps (JObj (payload (JStr "eth0") JNull JNull)))))) 0) ∧
  payload (JStr "eth0") JNull JNull !! "name" = Some (JStr "eth0") ∧
  to_json_dict (set_profile_id plain_endpoint (JStr "G")) !! "name" = Some (JStr "calie1").
Proof.
  split; [reflexivity|]. split; [|split; reflexivity].
  unfold add_workload_to_group.
  apply (rewrite_profile "h1" "c1" "e1"
           (json_dumps (JObj (payload (JStr "eth0") JNull JNull))) plain_endpoint
           (JStr "G")).
  - vm_compute. reflexivity.
  - reflexivity.
  - reflexivity.
Qed.

(* ===================================================================== *)
(** * The dict of pools *)
(* ===================================================================== *)

Section pool_dict.
Context {nt : AddrText}.

Lemma IPNetwork_eqb_key (a b : IPNetwork) : IPNetwork_eqb a b = true ↔ Netaddr.key a = Netaddr.key b.
Proof. unfold IPNetwork_eqb. apply bool_decide_eq_true. Qed.

Lemma IPNetwork_eqb_trans (a b c : IPNetwork) :
  IPNetwork_eqb a b = true → IPNetwork_eqb b c = true → IPNetwork_eqb a c = true.
Proof. rewrite !IPNetwork_eqb_key. congruence. Qed.

Lemma IPNetwork_eqb_congr (a b c : IPNetwork) :
  IPNetwork_eqb a b = true → IPNetwork_eqb a c = IPNetwork_eqb b c.
Proof.
  intros Hab. destruct (IPNetwork_eqb b c) eqn:Hbc.
  - by apply (IPNetwork_eqb_trans a b c).
  - destruct (IPNetwork_eqb a c) eqn:Hac; [|done].
    rewrite <- Hbc. symmetry. apply (IPNetwork_eqb_trans b a c); [|done].
    by rewrite IPNetwork_eqb_sym.
Qed.

Lemma netset_mem_congr (a b : IPNetwork) (s : netset) :
  IPNetwork_eqb a b = true → netset_mem a s = netset_mem b s.
Proof.
  intros Hab. induction s as [|c s IH]; [done|].
  simpl. by rewrite IH, (IPNetwork_eqb_congr a b c Hab).
Qed.

Lemma pooldict_get_mem (pools : pooldict) (p : IPNetwork) :
  netset_mem p pools.*1 = bool_decide (is_Some (pooldict_get pools p)).
Proof.
  unfold pooldict_get. induction pools as [|[q k] pools IH]; simpl.
  - done.
  - destruct (IPNetwork_eqb p q); simpl; done.
Qed.

Lemma pooldict_get_app (a b : pooldict) (p : IPNetwork) :
  pooldict_get (a ++ b)%list p
  = match pooldict_get a p with Some k => Some k | None => pooldict_get b p end.
Proof.
  unfold pooldict_get. induction a as [|[q k] a IH]; simpl; [done|].
  by destruct (IPNetwork_eqb p q).
Qed.

(** Reading a dict after an assignment. *)
Lemma pooldict_get_set (pools : pooldict) (q : IPNetwork) (k : string) (p : IPNetwork) :
  pooldict_get (pooldict_set pools q k) p
  = if IPNetwork_eqb p q then Some k else pooldict_get pools p.
Proof.
  unfold pooldict_set. destruct (netset_mem q pools.*1) eqn:Hmem.
  - induction pools as [|[r kr] pools IH]; [done|].
    simpl in Hmem. unfold pooldict_get in *. simpl.
    destruct (IPNetwork_eqb q r) eqn:Hqr; simpl.
    + destruct (IPNetwork_eqb p r) eqn:Hpr; simpl.
      * assert (IPNetwork_eqb p q = true) as ->; [|done].
        apply (IPNetwork_eqb_trans p r q); [done|]. by rewrite IPNetwork_eqb_sym.
      * assert (IPNetwork_eqb p q = false) as Hpq.
        { destruct (IPNetwork_eqb p q) eqn:Hpq; [|done].
          by rewrite (IPNetwork_eqb_trans p q r Hpq Hqr) in Hpr. }
        rewrite Hpq. destruct (netset_mem q pools.*1) eqn:Hm.
        -- specialize (IH eq_refl). by rewrite Hpq in IH.
        -- clear IH. induction pools as [|[r' kr'] pools IH']; [done|].
           simpl in Hm. apply orb_false_iff in Hm as [Hqr' Hm].
           simpl. rewrite Hqr'. simpl. destruct (IPNetwork_eqb p r'); [done|].
           by apply IH'.
    + simpl in Hmem. destruct (IPNetwork_eqb p r) eqn:Hpr; simpl.
      * assert (IPNetwork_eqb p q = false) as ->; [|done].
        destruct (IPNetwork_eqb p q) eqn:Hpq; [|done].
        rewrite IPNetwork_eqb_sym in Hpq.
        by rewrite (IPNetwork_eqb_trans q p r Hpq Hpr) in Hqr.
      * by apply IH.
  - rewrite pooldict_get_app.
    destruct (IPNetwork_eqb p q) eqn:Hpq.
    + assert (pooldict_get pools p = None) as ->.
      { pose proof (pooldict_get_mem pools p) as Hp.
        rewrite (netset_mem_congr p q _ Hpq), Hmem in Hp.
        symmetry in Hp. apply bool_decide_eq_false in Hp.
        destruct (pooldict_get pools p); [|done]. exfalso. apply Hp. by eexists. }
      unfold pooldict_get. simpl. by rewrite Hpq.
    + destruct (pooldict_get pools p); [done|].
      unfold pooldict_get. simpl. by rewrite Hpq.
Qed.

(** ** The loop over the children of the pool root *)

(** What a child contributes: the pool its value is, when it has one. *)
Lemma pool_step_cases (pools : pooldict) (child : node) :
  (value_truthy child.2 = false ∧ pool_step pools child = Ok pools) ∨
  (value_truthy child.2 = true ∧
   ((∃ q, IPNetwork_value child.2 = Ok q ∧
          pool_step pools child = Ok (pooldict_set pools q child.1)) ∨
    (∃ e, IPNetwork_value child.2 = Raise e ∧
          pool_step pools child = Raise e ∧ ∀ msg, e ≠ KeyError msg))).
Proof.
  unfold pool_step. destruct (value_truthy child.2); [right|by left].
  split; [done|].
  destruct (IPNetwork_value child.2) as [q|e] eqn:Hq; simpl.
  - left. by exists q.
  - right. exists e. split; [done|]. split; [done|]. intros msg ->.
    destruct child as [k [[s|j]|]]; simpl in Hq; try done.
    by apply IPNetwork_of_no_KeyError in Hq.
Qed.

Lemma foldlM_pool_step_raises (acc : pooldict) (l : list node) (e : exn) :
  foldlM pool_step acc l = Raise e → ∀ msg, e ≠ KeyError msg.
Proof.
  revert acc. induction l as [|c l IH]; intros acc; [done|]. simpl.
  destruct (pool_step_cases acc c)
    as [[_ ->] | [_ [(q & _ & ->) | (e0 & _ & -> & He0)]]]; simpl.
  - apply IH.
  - apply IH.
  - by intros [= <-].
Qed.

(** A pool the dict holds came from a child: its key is the child's and
    the child's value is a network equal to the pool. *)
Lemma foldlM_pool_step_get (acc : pooldict) (l : list node) (pools : pooldict)
    (p : IPNetwork) (k : string) :
  foldlM pool_step acc l = Ok pools → pooldict_get pools p = Some k →
  pooldict_get acc p = Some k ∨
  ∃ c q, c ∈ l ∧ c.1 = k ∧ value_truthy c.2 = true ∧
         IPNetwork_value c.2 = Ok q ∧ IPNetwork_eqb p q = true.
Proof.
  revert acc. induction l as [|c l IH]; intros acc Hfold Hget.
  - injection Hfold as <-. by left.
  - simpl in Hfold.
    destruct (pool_step_cases acc c) as [[_ Hs] | [Ht [(q & Hq & Hs) | (e0 & _ & Hs & _)]]];
      rewrite Hs in Hfold; simpl in Hfold; [| |done].
    + destruct (IH _ Hfold Hget) as [?|(c' & q' & Hin & ?)]; [by left|].
      right. exists c', q'. split; [by right|done].
    + destruct (IH _ Hfold Hget) as [Hacc|(c' & q' & Hin & ?)].
      * rewrite pooldict_get_set in Hacc.
        destruct (IPNetwork_eqb p q) eqn:Hpq; [|by left].
        injection Hacc as <-. right. exists c, q. split; [by left|done].
      * right. exists c', q'. split; [by right|done].
Qed.

(** A child whose value is a network puts it in the dict, and what is in
    the dict stays. *)
Lemma foldlM_pool_step_keeps (acc : pooldict) (l : list node) (pools : pooldict)
    (p : IPNetwork) :
  foldlM pool_step acc l = Ok pools → netset_mem p acc.*1 = true →
  netset_mem p pools.*1 = true.
Proof.
  revert acc. induction l as [|c l IH]; intros acc Hfold Hmem.
  - by injection Hfold as <-.
  - simpl in Hfold.
    destruct (pool_step_cases acc c) as [[_ Hs] | [Ht [(q & Hq & Hs) | (e0 & _ & Hs & _)]]];
      rewrite Hs in Hfold; simpl in Hfold; [| |done].
    + by apply (IH acc).
    + apply (IH _ Hfold). rewrite pooldict_get_mem in *.
      apply bool_decide_eq_true. apply bool_decide_eq_true in Hmem.
      rewrite pooldict_get_set. by destruct (IPNetwork_eqb p q).
Qed.

Lemma foldlM_pool_step_mem (acc : pooldict) (l : list node) (pools : pooldict)
    (c : node) (q p : IPNetwork) :
  foldlM pool_step acc l = Ok pools → c ∈ l → value_truthy c.2 = true →
  IPNetwork_value c.2 = Ok q → IPNetwork_eqb p q = true →
  netset_mem p pools.*1 = true.
Proof.
  revert acc. induction l as [|c' l IH]; intros acc Hfold Hin Ht Hq Hpq.
  - by inversion Hin.
  - simpl in Hfold.
    destruct (pool_step_cases acc c') as [[Hf Hs] | [_ [(q' & Hq' & Hs) | (e0 & _ & Hs & _)]]];
      rewrite Hs in Hfold; simpl in Hfold; [| |done].
    + apply elem_of_cons in Hin as [->|Hin]; [congruence|]. by apply (IH acc).
    + apply elem_of_cons in Hin as [->|Hin]; [|by apply (IH _ Hfold)].
      apply (foldlM_pool_step_keeps _ _ _ _ Hfold).
      rewrite pooldict_get_mem. apply bool_decide_eq_true.
      rewrite pooldict_get_set. assert (q' = q) as -> by congruence.
      rewrite Hpq. by eexists.
Qed.

(** The loop succeeds exactly when every child with a value holds a
    network. *)
Lemma foldlM_pool_step_ok (acc : pooldict) (l : list node) :
  (∀ c, c ∈ l → value_truthy c.2 = true → is_ok (IPNetwork_value c.2) = true) ↔
  ∃ pools, foldlM pool_step acc l = Ok pools.
Proof.
  revert acc. induction l as [|c l IH]; intros acc.
  - split; [by eexists|]. intros _ c Hc. by inversion Hc.
  - simpl. split.
    + intros Hall.
      destruct (pool_step_cases acc c) as [[_ ->] | [Ht [(q & Hq & ->) | (e0 & Hr & _)]]]; simpl.
      * apply IH. intros c' Hc'. apply Hall. by right.
      * apply IH. intros c' Hc'. apply Hall. by right.
      * specialize (Hall c (list_elem_of_here _ _) Ht). by rewrite Hr in Hall.
    + intros [pools Hfold] c' Hin Ht'.
      destruct (pool_step_cases acc c) as [[Hf Hs] | [Ht [(q & Hq & Hs) | (e0 & _ & Hs & _)]]];
        rewrite Hs in Hfold; simpl in Hfold; [| |done].
      * apply elem_of_cons in Hin as [->|Hin]; [congruence|].
        by apply (proj2 (IH acc) (ex_intro _ pools Hfold)).
      * apply elem_of_cons in Hin as [->|Hin]; [by rewrite Hq|].
        by apply (proj2 (IH _) (ex_intro _ pools Hfold)).
Qed.

End pool_dict.


(* ===================================================================== *)
(** * Listings of the store *)
(* ===================================================================== *)

Lemma elem_of_descendants (dir : string) (s : store) (n : node) :
  n ∈ descendants dir s ↔ nodes s !! n.1 = Some n.2 ∧ is_under dir n.1 = true.
Proof.
  unfold descendants. rewrite list_elem_of_filter.
  destruct n as [k v]. rewrite elem_of_map_to_list. simpl. tauto.
Qed.

Lemma elem_of_child_nodes (dir : string) (s : store) (c : node) :
  c ∈ child_nodes dir s ↔
  ∃ k v, nodes s !! k = Some v ∧ is_under dir k = true ∧
         c = node_at s (child_key dir k).
Proof.
  unfold child_nodes. rewrite list_elem_of_fmap. split.
  - intros (ck & -> & Hck). rewrite elem_of_remove_dups in Hck.
    apply list_elem_of_fmap in Hck as (k & -> & Hk).
    apply list_elem_of_fmap in Hk as ([k' v] & -> & Hkv).
    apply elem_of_descendants in Hkv as [Hn Hu]. by exists k', v.
  - intros (k & v & Hn & Hu & ->). exists (child_key dir k). split; [done|].
    rewrite elem_of_remove_dups. apply list_elem_of_fmap. exists k. split; [done|].
    apply list_elem_of_fmap. exists (k, v). split; [done|].
    by apply elem_of_descendants.
Qed.

(** A child that has a value is a key of the store with that value. *)
Lemma child_nodes_value (dir : string) (s : store) (k : string) (v : text) :
  (k, Some v) ∈ child_nodes dir s → nodes s !! k = Some (Some v).
Proof.
  intros (k' & v' & _ & _ & Heq)%elem_of_child_nodes.
  unfold node_at in Heq. injection Heq as -> Hv.
  destruct (nodes s !! child_key dir k') as [[w|]|]; simpl in Hv; congruence.
Qed.

(** Reading returns, or raises the store's not-found error; the store is
    the same afterwards. *)
Lemma read_cases (path : string) (recursive : bool) (s : store) :
  (∃ r, read path recursive s = (Ok r, s)) ∨
  read path recursive s = (Raise (KeyError ("Key not found : " ++ rstrip_slash path)), s).
Proof.
  unfold read, not_found, raise, ret.
  destruct (nodes s !! rstrip_slash path) as [[v|]|]; [left; by eexists|..].
  - left. destruct (descendants _ s); by eexists.
  - destruct (descendants _ s); [by right|left; by eexists].
Qed.

Lemma read_children_value (path : string) (s : store) (r : EtcdResult)
    (k : string) (v : text) :
  read path false s = (Ok r, s) → (k, Some v) ∈ children r →
  nodes s !! k = Some (Some v).
Proof.
  unfold read, not_found, raise, ret, children, leaves.
  destruct (nodes s !! rstrip_slash path) as [[w|]|] eqn:Hn.
  - intros [= <-]. simpl. intros [= -> ->]%list_elem_of_singleton. done.
  - intros Hr Hin.
    assert (r = mkResult (rstrip_slash path) None (child_nodes (rstrip_slash path) s)) as ->.
    { congruence. }
    simpl in Hin. destruct (child_nodes (rstrip_slash path) s) eqn:Hc.
    + by apply list_elem_of_singleton in Hin.
    + rewrite <- Hc in Hin. by apply child_nodes_value in Hin.
  - intros Hr Hin.
    assert (r = mkResult (rstrip_slash path) None (child_nodes (rstrip_slash path) s)) as ->.
    { destruct (descendants (rstrip_slash path) s); [done|congruence]. }
    simpl in Hin. destruct (child_nodes (rstrip_slash path) s) eqn:Hc.
    + by apply list_elem_of_singleton in Hin.
    + rewrite <- Hc in Hin. by apply child_nodes_value in Hin.
Qed.

(* ===================================================================== *)
(** * IP pools *)
(* ===================================================================== *)

Section pools.
Context {nt : AddrText}.

Lemma assert_version_ok (version : string) (s : store) :
  version = "v4" ∨ version = "v6" → assert_version version s = (Ok (), s).
Proof. by intros [-> | ->]. Qed.

(** The pools and their keys are read from the children of the pool root;
    an absent root gives the empty dict. *)
Lemma get_ip_pools_with_keys_cases (version : string) (s : store) :
  (∃ r, read (IP_POOLS_PATH version) false s = (Ok r, s) ∧
        _get_ip_pools_with_keys version s = (foldlM pool_step [] (children r), s)) ∨
  _get_ip_pools_with_keys version s = (Ok [], s).
Proof.
  unfold _get_ip_pools_with_keys, except_KeyError, bind, lift, ret.
  destruct (read_cases (IP_POOLS_PATH version) false s) as [[r Hr] | Hr];
    rewrite Hr; [left; by exists r|by right].
Qed.

Lemma get_ip_pools_with_keys_store (version : string) (s s' : store)
    (res : result pooldict) :
  _get_ip_pools_with_keys version s = (res, s') → s' = s.
Proof.
  destruct (get_ip_pools_with_keys_cases version s) as [(r & _ & ->) | ->]; congruence.
Qed.

Lemma get_ip_pools_with_keys_no_KeyError (version : string) (s s' : store) (msg : string) :
  _get_ip_pools_with_keys version s ≠ (Raise (KeyError msg), s').
Proof.
  destruct (get_ip_pools_with_keys_cases version s) as [(r & _ & ->) | ->]; [|done].
  intros [= H _]. exact (foldlM_pool_step_raises _ _ _ H msg eq_refl).
Qed.

(** A pool of the dict is a key of the store whose text is a network
    equal to the pool. *)
Lemma get_ip_pools_with_keys_entry (version : string) (s : store) (pools : pooldict)
    (p : IPNetwork) (k : string) :
  _get_ip_pools_with_keys version s = (Ok pools, s) →
  pooldict_get pools p = Some k →
  ∃ t q, nodes s !! k = Some (Some (Text t)) ∧ IPNetwork_of t = Ok q ∧
         IPNetwork_eqb p q = true.
Proof.
  intros Hget Hp.
  destruct (get_ip_pools_with_keys_cases version s) as [(r & Hr & Heq) | Heq];
    rewrite Heq in Hget; [|by injection Hget as <-].
  injection Hget as Hfold.
  destruct (foldlM_pool_step_get _ _ _ _ _ Hfold Hp) as [?|(c & q & Hin & <- & Ht & Hq & Hpq)];
    [done|].
  destruct c as [k [[t|j]|]]; simpl in *; try done.
  exists t, q. split; [|done]. by apply (read_children_value _ _ _ _ _ Hr Hin).
Qed.

(** [get_ip_pools] returns the keys of that dict. *)
Lemma get_ip_pools_keys (version : string) (s : store) (configured : list IPNetwork) :
  version = "v4" ∨ version = "v6" →
  get_ip_pools version s = (Ok configured, s) →
  ∃ pools, _get_ip_pools_with_keys version s = (Ok pools, s) ∧ configured = pools.*1.
Proof.
  intros Hv. unfold get_ip_pools, bind at 1. rewrite (assert_version_ok _ _ Hv).
  unfold except_KeyError, bind, ret.
  destruct (_get_ip_pools_with_keys version s) as [[pools|e] s'] eqn:Hget.
  - intros [= <- ->]. by exists pools.
  - destruct e; try done. by apply get_ip_pools_with_keys_no_KeyError in Hget.
Qed.

Lemma delete_value (k : string) (v : text) (s : store) :
  rstrip_slash k = k → nodes s !! k = Some (Some v) →
  Etcd.delete k s = (Ok (), mkStore (base.delete k (nodes s)) (index s)).
Proof. unfold Etcd.delete. by intros -> ->. Qed.

Lemma del_ip_pool_run (version : string) (pool : IPNetwork) (s : store)
    (configured : list IPNetwork) :
  version = "v4" ∨ version = "v6" → normal_keys s →
  get_ip_pools version s = (Ok configured, s) →
  (netset_mem (cidr pool) configured = true →
     ∃ k t q, nodes s !! k = Some (Some (Text t)) ∧ IPNetwork_of t = Ok q ∧
              IPNetwork_eqb (cidr pool) q = true ∧
              del_ip_pool version pool s
              = (Ok (), mkStore (base.delete k (nodes s)) (index s))) ∧
  (netset_mem (cidr pool) configured = false →
     del_ip_pool version pool s
     = (Raise (KeyError (IPNetwork_str pool ++ " is not a configured IP pool.")), s)).
Proof.
  intros Hv Hnorm Hcfg.
  destruct (get_ip_pools_keys _ _ _ Hv Hcfg) as (pools & Hget & ->).
  assert (Hrun : del_ip_pool version pool s
                 = except_KeyError
                     (match pooldict_get pools (cidr pool) with
                      | Some k => Etcd.delete k
                      | None => raise (KeyError (IPNetwork_str (cidr pool)))
                      end)
                     (raise (KeyError (IPNetwork_str pool
                                       ++ " is not a configured IP pool."))) s).
  { unfold del_ip_pool, bind at 1. rewrite (assert_version_ok _ _ Hv).
    unfold bind. by rewrite Hget. }
  rewrite Hrun, pooldict_get_mem. split.
  - intros [k Hk]%bool_decide_eq_true.
    destruct (get_ip_pools_with_keys_entry _ _ _ _ _ Hget Hk) as (t & q & Hn & Hq & Hpq).
    exists k, t, q. repeat split; try done.
    unfold except_KeyError. rewrite Hk.
    by rewrite (delete_value k (Text t) s (Hnorm _ _ Hn) Hn).
  - intros Hnone%bool_decide_eq_false.
    destruct (pooldict_get pools (cidr pool)) as [k|] eqn:Hk.
    + exfalso. apply Hnone. by eexists.
    + reflexivity.
Qed.

(** Whatever the store holds, the only [KeyError] that leaves
    [del_ip_pool] is the one that names the pool, and the store is then
    as it was. *)
Lemma del_ip_pool_KeyError (version : string) (pool : IPNetwork) (s s' : store)
    (msg : string) :
  del_ip_pool version pool s = (Raise (KeyError msg), s') →
  msg = IPNetwork_str pool ++ " is not a configured IP pool." ∧ s' = s.
Proof.
  unfold del_ip_pool, bind at 1, assert_version.
  destruct (bool_decide (version ∈ ["v4"; "v6"])); [|done].
  unfold ret, bind.
  destruct (_get_ip_pools_with_keys version s) as [[pools|e] s1] eqn:Hget.
  - apply get_ip_pools_with_keys_store in Hget as ->.
    unfold except_KeyError, raise.
    destruct (pooldict_get pools (cidr pool)) as [k|]; [|by intros [= <- <-]].
    unfold Etcd.delete, not_found, raise.
    destruct (nodes s !! rstrip_slash k) as [[v|]|]; [done|by intros [= <- <-]|].
    destruct (descendants _ s); by intros [= <- <-].
  - intros [= -> ->]. by apply get_ip_pools_with_keys_no_KeyError in Hget.
Qed.

(** C7.  Pool removal.  With the configured pools readable from a store
    of normalised keys: when the normalised pool is among them,
    [del_ip_pool] returns and the store loses exactly one key, one that
    holds a network equal to the pool; when it is not among them,
    [del_ip_pool] raises the [KeyError] whose message names the pool and
    says it is not a configured IP pool, and the store is as it was.  On
    any store, no other [KeyError] leaves [del_ip_pool].  The pool is named
    by [str(pool)], the text the package prints for it, host bits
    included. *)
Theorem del_ip_pool_policy (version : string) (pool : IPNetwork) (s : store) :
  version = "v4" ∨ version = "v6" →
  (∀ configured, normal_keys s → get_ip_pools version s = (Ok configured, s) →
     (netset_mem (cidr pool) configured = true →
        ∃ k t q, nodes s !! k = Some (Some (Text t)) ∧ IPNetwork_of t = Ok q ∧
                 IPNetwork_eqb (cidr pool) q = true ∧
                 del_ip_pool version pool s
                 = (Ok (), mkStore (base.delete k (nodes s)) (index s))) ∧
     (netset_mem (cidr pool) configured = false →
        del_ip_pool version pool s
        = (Raise (KeyError (IPNetwork_str pool ++ " is not a configured IP pool.")), s))) ∧
  (∀ msg s', del_ip_pool version pool s = (Raise (KeyError msg), s') →
     msg = IPNetwork_str pool ++ " is not a configured IP pool." ∧ s' = s).
Proof.
  intros Hv. split.
  - intros configured Hnorm Hcfg. by apply del_ip_pool_run.
  - intros msg s'. apply del_ip_pool_KeyError.
Qed.

End pools.

Lemma normal_keys_one_pool : normal_keys one_pool_store.
Proof.
  intros k v Hk. unfold one_pool_store in Hk. simpl in Hk.
  apply lookup_insert_Some in Hk as [[<- _]|[_ Hk]]; [done|].
  by rewrite lookup_empty in Hk.
Qed.

Lemma del_ip_pool_policy_witness :
  (∃ k t q, nodes one_pool_store !! k = Some (Some (Text t)) ∧ IPNetwork_of t = Ok q ∧
            IPNetwork_eqb (cidr (mkNet IPv4 167837953 8)) q = true ∧
            del_ip_pool "v4" (mkNet IPv4 167837953 8) one_pool_store
            = (Ok (), mkStore (base.delete k (nodes one_pool_store))
                              (index one_pool_store))) ∧
  del_ip_pool "v4" (mkNet IPv4 3232235520 16) one_pool_store
  = (Raise (KeyError (IPNetwork_str (mkNet IPv4 3232235520 16)
                      ++ " is not a configured IP pool.")), one_pool_store).
Proof.
  assert (Hcfg : get_ip_pools "v4" one_pool_store
                 = (Ok [mkNet IPv4 167772160 8], one_pool_store)) by (by vm_compute).
  split.
  - apply (proj1 (proj1 (del_ip_pool_policy "v4" (mkNet IPv4 167837953 8) one_pool_store
                           (or_introl eq_refl))
                    [mkNet IPv4 167772160 8] normal_keys_one_pool Hcfg)).
    by vm_compute.
  - apply (proj2 (proj1 (del_ip_pool_policy "v4" (mkNet IPv4 3232235520 16) one_pool_store
                           (or_introl eq_refl))
                    [mkNet IPv4 167772160 8] normal_keys_one_pool Hcfg)).
    by vm_compute.
Defined.

(* ===================================================================== *)
(** * Adding a pool *)
(* ===================================================================== *)

Lemma append_neq_self (s t : string) : t ≠ "" → s ++ t ≠ s.
Proof.
  intros Ht. induction s as [|a s IH]; [done|].
  change (String a (s ++ t) ≠ String a s). congruence.
Qed.

Lemma prefix_append (a b : string) : String.prefix a (a ++ b) = true.
Proof.
  induction a as [|c a IH]; [by destruct b|].
  change (String.prefix (String c a) (String c (a ++ b)) = true). simpl.
  by destruct (ascii_dec c c).
Qed.

Lemma drop_chars_append (a b : string) : drop_chars (String.length a) (a ++ b) = b.
Proof. induction a as [|c a IH]; [done|]. exact IH. Qed.

Lemma length_append_slash (a : string) :
  String.length (a ++ "/") = (String.length a + 1)%nat.
Proof.
  induction a as [|c a IH]; [done|].
  change (S (String.length (a ++ "/")) = S (String.length a + 1)). by rewrite IH.
Qed.

(** An appended key lies directly below its directory. *)
Lemma is_under_appended (dir x : string) : is_under dir (dir ++ "/" ++ x) = true.
Proof.
  unfold is_under, startswith. rewrite <- append_assoc. apply prefix_append.
Qed.

Lemma child_key_appended (dir x : string) :
  contains "/" x = false → child_key dir (dir ++ "/" ++ x) = dir ++ "/" ++ x.
Proof.
  intros Hx. unfold child_key.
  rewrite <- (append_assoc dir "/" x), <- length_append_slash, drop_chars_append.
  by rewrite (split_nosep _ _ Hx), append_assoc.
Qed.

Lemma read_directory (path : string) (s : store) :
  not_a_value s (rstrip_slash path) →
  read path false s
  = (Ok (mkResult (rstrip_slash path) None (child_nodes (rstrip_slash path) s)), s) ∨
  (descendants (rstrip_slash path) s = [] ∧
   read path false s
   = (Raise (KeyError ("Key not found : " ++ rstrip_slash path)), s)).
Proof.
  intros Hroot. unfold read, not_found, raise, ret.
  destruct (nodes s !! rstrip_slash path) as [[v|]|] eqn:Hn.
  - by destruct (Hroot v).
  - by left.
  - destruct (descendants (rstrip_slash path) s); [by right|by left].
Qed.

Section add_pool.
Context {nt : AddrText}.

(** With no value at the pool root, the pools are read off the nodes
    directly below it. *)
Lemma get_ip_pools_with_keys_children (version : string) (s : store) :
  not_a_value s (rstrip_slash (IP_POOLS_PATH version)) →
  _get_ip_pools_with_keys version s
  = (foldlM pool_step [] (child_nodes (rstrip_slash (IP_POOLS_PATH version)) s), s).
Proof.
  intros Hroot.
  unfold _get_ip_pools_with_keys, except_KeyError, bind, lift, ret.
  destruct (read_directory _ _ Hroot) as [-> | [Hd ->]].
  - unfold children, leaves. cbn [below Etcd.key value].
    by destruct (child_nodes _ s).
  - unfold child_nodes. by rewrite Hd.
Qed.

Lemma get_ip_pools_children (version : string) (s : store) :
  version = "v4" ∨ version = "v6" →
  not_a_value s (rstrip_slash (IP_POOLS_PATH version)) →
  get_ip_pools version s
  = (match foldlM pool_step [] (child_nodes (rstrip_slash (IP_POOLS_PATH version)) s) with
     | Ok pools => Ok pools.*1
     | Raise e => Raise e
     end, s).
Proof.
  intros Hv Hroot. unfold get_ip_pools, bind at 1. rewrite (assert_version_ok _ _ Hv).
  unfold except_KeyError, bind, ret.
  rewrite (get_ip_pools_with_keys_children _ _ Hroot).
  destruct (foldlM pool_step [] _) as [pools|e] eqn:Hfold; [done|].
  destruct e; try done. by destruct (foldlM_pool_step_raises _ _ _ Hfold msg).
Qed.

Lemma add_ip_pool_unfold (version : string) (pool : IPNetwork) (s : store)
    (configured : list IPNetwork) :
  version = "v4" ∨ version = "v6" →
  get_ip_pools version s = (Ok configured, s) →
  add_ip_pool version pool s
  = if netset_mem (cidr pool) configured then (Ok (), s)
    else (Ok (),
          mkStore (<[next_pool_key version s
                     := Some (Text (IPNetwork_str (cidr pool)))]> (nodes s))
                  (index s + 1)).
Proof.
  intros Hv Hcfg. unfold add_ip_pool, bind at 1. rewrite (assert_version_ok _ _ Hv).
  unfold bind. rewrite Hcfg.
  by destruct (netset_mem (cidr pool) configured).
Qed.

(** ** The store after the write *)

Section after_write.
Variables (version : string) (s : store) (t : text).
Let dir : string := rstrip_slash (IP_POOLS_PATH version).
Let K : string := next_pool_key version s.
Let s1 : store := mkStore (<[K := Some t]> (nodes s)) (index s + 1).

Lemma next_pool_key_fresh_of_root : K ≠ dir.
Proof. apply append_neq_self. unfold dec. by destruct (N.to_uint (index s)). Qed.

Lemma not_a_value_after : not_a_value s dir → not_a_value s1 dir.
Proof.
  intros Hroot v. unfold s1. simpl.
  rewrite lookup_insert_ne by apply next_pool_key_fresh_of_root. apply Hroot.
Qed.

Lemma child_key_next : child_key dir K = K.
Proof. apply child_key_appended, dec_no_separator. unfold separator. tauto. Qed.

Lemma new_child_listed : (K, Some t) ∈ child_nodes dir s1.
Proof.
  apply elem_of_child_nodes. exists K, (Some t). split; [|split].
  - unfold s1. simpl. by rewrite lookup_insert_eq.
  - apply is_under_appended.
  - unfold node_at. rewrite child_key_next. unfold s1. simpl.
    by rewrite lookup_insert_eq.
Qed.

Lemma child_nodes_after (c : node) :
  c ∈ child_nodes dir s1 → c = (K, Some t) ∨ (c.1 ≠ K ∧ c ∈ child_nodes dir s).
Proof.
  intros (k & v & Hn & Hu & ->)%elem_of_child_nodes.
  destruct (decide (child_key dir k = K)) as [HK|HK].
  - left. unfold node_at. rewrite HK. unfold s1. simpl. by rewrite lookup_insert_eq.
  - right. split; [done|].
    assert (k ≠ K) as Hk by (intros ->; by rewrite child_key_next in HK).
    unfold s1 in Hn. simpl in Hn. rewrite lookup_insert_ne in Hn by done.
    apply elem_of_child_nodes. exists k, v. split; [done|]. split; [done|].
    unfold node_at, s1. simpl. by rewrite lookup_insert_ne.
Qed.
End after_write.

Lemma cidr_wf (p : IPNetwork) : net_wf p → net_wf (cidr p).
Proof.
  intros [Hv Hp]. split; [|done]. simpl. unfold first.
  eapply N.le_lt_trans; [|exact Hv].
  rewrite N.shiftl_mul_pow2, N.shiftr_div_pow2.
  rewrite N.mul_comm. apply N.Div0.mul_div_le.
Qed.

(** [cidr] clears the host bits and keeps the others. *)
Lemma cidr_clears_host_bits (p : IPNetwork) :
  net_version (cidr p) = net_version p ∧
  net_prefixlen (cidr p) = net_prefixlen p ∧
  (∀ i, (i < hostbits p)%N → N.testbit (net_value (cidr p)) i = false) ∧
  (∀ i, (hostbits p ≤ i)%N →
        N.testbit (net_value (cidr p)) i = N.testbit (net_value p) i).
Proof.
  split; [done|]. split; [done|]. simpl. unfold first. split; intros i Hi.
  - by apply N.shiftl_spec_low.
  - rewrite N.shiftl_spec_high' by done. rewrite N.shiftr_spec'.
    f_equal. lia.
Qed.

Lemma holds_pool_text (p : IPNetwork) (k : string) :
  net_wf p → holds_pool p (k, Some (Text (IPNetwork_str p))).
Proof.
  intros Hp. split.
  - simpl. apply negb_true_iff, String.eqb_neq. by apply IPNetwork_str_nonempty.
  - exists p. simpl. split; [by apply IPNetwork_of_str|apply IPNetwork_eqb_refl].
Qed.

Lemma add_ip_pool_run (version : string) (pool : IPNetwork) (s : store)
    (configured : list IPNetwork) :
  version = "v4" ∨ version = "v6" → net_wf pool →
  not_a_value s (rstrip_slash (IP_POOL_PATH version)) →
  get_ip_pools version s = (Ok configured, s) →
  ∃ s1, add_ip_pool version pool s = (Ok (), s1) ∧
        (if netset_mem (cidr pool) configured then s1 = s
         else s1 = mkStore (<[next_pool_key version s
                              := Some (Text (IPNetwork_str (cidr pool)))]> (nodes s))
                           (index s + 1) ∧
              ∀ c, c ∈ child_nodes (rstrip_slash (IP_POOL_PATH version)) s1 →
                   holds_pool (cidr pool) c → c.1 = next_pool_key version s) ∧
        (∃ configured1, get_ip_pools version s1 = (Ok configured1, s1) ∧
                        netset_mem (cidr pool) configured1 = true) ∧
        add_ip_pool version pool s1 = (Ok (), s1).
Proof.
  intros Hv Hwf Hroot Hcfg.
  rewrite (add_ip_pool_unfold _ _ _ _ Hv Hcfg).
  destruct (netset_mem (cidr pool) configured) eqn:Hmem.
  - exists s. split; [done|]. split; [done|]. split; [by exists configured|].
    by rewrite (add_ip_pool_unfold _ _ _ _ Hv Hcfg), Hmem.
  - set (txt := Text (IPNetwork_str (cidr pool))).
    set (s1 := mkStore (<[next_pool_key version s := Some txt]> (nodes s)) (index s + 1)).
    pose proof (get_ip_pools_children version s Hv Hroot) as Hs.
    rewrite Hcfg in Hs. injection Hs as Hs.
    destruct (foldlM pool_step [] (child_nodes _ s)) as [pools|] eqn:Hfold; [|done].
    injection Hs as ->.
    assert (Hroot1 : not_a_value s1 (rstrip_slash (IP_POOLS_PATH version)))
      by (by apply not_a_value_after).
    assert (Hnew : holds_pool (cidr pool) (next_pool_key version s, Some txt))
      by (apply holds_pool_text, cidr_wf, Hwf).
    assert (Hok : ∃ pools1,
              foldlM pool_step [] (child_nodes (rstrip_slash (IP_POOLS_PATH version)) s1)
              = Ok pools1).
    { apply foldlM_pool_step_ok. intros c Hc Ht.
      destruct (child_nodes_after version s txt c Hc) as [-> | [_ Hold]].
      - destruct Hnew as [_ (q & -> & _)]. done.
      - by apply (proj2 (foldlM_pool_step_ok [] _) (ex_intro _ pools Hfold) c Hold). }
    destruct Hok as [pools1 Hfold1].
    assert (Hmem1 : netset_mem (cidr pool) pools1.*1 = true).
    { destruct Hnew as [Ht (q & Hq & Hpq)].
      apply (foldlM_pool_step_mem _ _ _ _ q _ Hfold1
               (new_child_listed version s txt) Ht Hq Hpq). }
    assert (Hcfg1 : get_ip_pools version s1 = (Ok pools1.*1, s1)).
    { rewrite (get_ip_pools_children version s1 Hv Hroot1). by rewrite Hfold1. }
    exists s1. split; [done|]. split; [split; [done|]|split].
    + intros c Hc [Ht (q & Hq & Hpq)].
      destruct (child_nodes_after version s txt c Hc) as [-> | [_ Hold]]; [done|].
      pose proof (foldlM_pool_step_mem _ _ _ _ q _ Hfold Hold Ht Hq Hpq) as Hin.
      congruence.
    + by exists pools1.*1.
    + by rewrite (add_ip_pool_unfold _ _ _ _ Hv Hcfg1), Hmem1.
Qed.

(** C6.  Adding a pool normalises it and is idempotent.  The pool that
    [add_ip_pool] compares and writes is [pool.cidr]: the pool's version
    and prefix length with the host bits of its address cleared and the
    other bits kept.  With the configured pools readable and no value at
    the pool root itself: [add_ip_pool] returns; when the normalised pool
    is among the configured pools nothing is written; otherwise the text
    of the normalised pool is written to a new key directly below the pool
    root, and that key is then the only node below the root that holds a
    network equal to the pool.  Either way the normalised pool is
    configured afterwards and adding the same pool again writes nothing. *)
Theorem add_ip_pool_normalizes_and_is_idempotent (version : string) (pool : IPNetwork)
    (s : store) (configured : list IPNetwork) :
  version = "v4" ∨ version = "v6" → net_wf pool →
  not_a_value s (rstrip_slash (IP_POOL_PATH version)) →
  get_ip_pools version s = (Ok configured, s) →
  (net_version (cidr pool) = net_version pool ∧
   net_prefixlen (cidr pool) = net_prefixlen pool ∧
   (∀ i, (i < hostbits pool)%N → N.testbit (net_value (cidr pool)) i = false) ∧
   (∀ i, (hostbits pool ≤ i)%N →
         N.testbit (net_value (cidr pool)) i = N.testbit (net_value pool) i)) ∧
  ∃ s1, add_ip_pool version pool s = (Ok (), s1) ∧
        (if netset_mem (cidr pool) configured then s1 = s
         else s1 = mkStore (<[next_pool_key version s
                              := Some (Text (IPNetwork_str (cidr pool)))]> (nodes s))
                           (index s + 1) ∧
              ∀ c, c ∈ child_nodes (rstrip_slash (IP_POOL_PATH version)) s1 →
                   holds_pool (cidr pool) c → c.1 = next_pool_key version s) ∧
        (∃ configured1, get_ip_pools version s1 = (Ok configured1, s1) ∧
                        netset_mem (cidr pool) configured1 = true) ∧
        add_ip_pool version pool s1 = (Ok (), s1).
Proof.
  intros Hv Hwf Hroot Hcfg. split.
  - apply cidr_clears_host_bits.
  - by apply add_ip_pool_run.
Qed.

End add_pool.

(** The pool [10.1.1.1/8] on an empty store: the network written is
    [10.0.0.0/8]. *)
Lemma add_ip_pool_normalizes_and_is_idempotent_witness :
  (net_version (cidr (mkNet IPv4 167837953 8)) = IPv4 ∧
   net_prefixlen (cidr (mkNet IPv4 167837953 8)) = 8%N ∧
   (∀ i, (i < hostbits (mkNet IPv4 167837953 8))%N →
         N.testbit (net_value (cidr (mkNet IPv4 167837953 8))) i = false) ∧
   (∀ i, (hostbits (mkNet IPv4 167837953 8) ≤ i)%N →
         N.testbit (net_value (cidr (mkNet IPv4 167837953 8))) i
         = N.testbit 167837953 i)) ∧
  ∃ s1, add_ip_pool "v4" (mkNet IPv4 167837953 8) (mkStore ∅ 0) = (Ok (), s1) ∧
        (if netset_mem (cidr (mkNet IPv4 167837953 8)) [] then s1 = mkStore ∅ 0
         else s1 = mkStore (<[next_pool_key "v4" (mkStore ∅ 0)
                              := Some (Text (IPNetwork_str (cidr (mkNet IPv4 167837953 8))))]>
                              (nodes (mkStore ∅ 0)))
                           (index (mkStore ∅ 0) + 1) ∧
              ∀ c, c ∈ child_nodes (rstrip_slash (IP_POOL_PATH "v4")) s1 →
                   holds_pool (cidr (mkNet IPv4 167837953 8)) c →
                   c.1 = next_pool_key "v4" (mkStore ∅ 0)) ∧
        (∃ configured1, get_ip_pools "v4" s1 = (Ok configured1, s1) ∧
                        netset_mem (cidr (mkNet IPv4 167837953 8)) configured1 = true) ∧
        add_ip_pool "v4" (mkNet IPv4 167837953 8) s1 = (Ok (), s1).
Proof.
  apply (add_ip_pool_normalizes_and_is_idempotent "v4" (mkNet IPv4 167837953 8)
           (mkStore ∅ 0) []).
  - by left.
  - split; by vm_compute.
  - intros v. by vm_compute.
  - by vm_compute.
Defined.

(** The pool [10.1.1.1/8] is stored as [10.0.0.0/8]. *)
Example add_ip_pool_stores_cidr :
  IPNetwork_of "10.1.1.1/8" = Ok (mkNet IPv4 167837953 8) ∧
  add_ip_pool "v4" (mkNet IPv4 167837953 8) (mkStore ∅ 0)
  = (Ok (), mkStore {["/calico/ipam/v4/pool/0" := Some (Text "10.0.0.0/8")]} 1).
Proof. split; by vm_compute. Qed.

(* ===================================================================== *)
(** * Keys, directories and deletion *)
(* ===================================================================== *)

Lemma prefix_spec (a b : string) : String.prefix a b = true ↔ ∃ c, b = a ++ c.
Proof.
  revert b. induction a as [|x a IH]; intros b.
  - split; [intros _; by exists b|by destruct b].
  - destruct b as [|y b]; simpl.
    + split; [done|]. intros [c Hc]. discriminate.
    + destruct (Ascii.ascii_dec x y) as [->|Hne].
      * rewrite IH. split; intros [c Hc]; exists c.
        -- by rewrite Hc.
        -- by injection Hc.
      * split; [done|]. intros [c Hc]. injection Hc as -> _. done.
Qed.

Lemma is_under_spec (dir k : string) :
  is_under dir k = true ↔ ∃ rest, k = dir ++ "/" ++ rest.
Proof.
  unfold is_under, startswith. rewrite prefix_spec.
  split; intros [c Hc]; exists c; by rewrite Hc, ?append_assoc.
Qed.

Lemma is_under_trans (a b c : string) :
  is_under a b = true → is_under b c = true → is_under a c = true.
Proof.
  rewrite !is_under_spec. intros [x ->] [y ->].
  exists (x ++ "/" ++ y). by rewrite !append_assoc.
Qed.

Lemma at_or_under_trans (a b c : string) :
  at_or_under a b = true → is_under b c = true → is_under a c = true.
Proof.
  unfold at_or_under. intros [Heq|Hu]%orb_true_iff Hc.
  - apply String.eqb_eq in Heq as ->. done.
  - by eapply is_under_trans.
Qed.

Lemma rstrip_slash_slash (a : string) : rstrip_slash (a ++ "/") = rstrip_slash a.
Proof.
  induction a as [|c a IH]; [done|].
  change (String c a ++ "/") with (String c (a ++ "/")). simpl. by rewrite IH.
Qed.

(** A directory path reaches the keys written below it. *)
Lemma is_under_dir (a x : string) : is_under (rstrip_slash a) (a ++ "/" ++ x) = true.
Proof.
  unfold is_under, startswith. apply prefix_spec.
  induction a as [|c a [y IH]]; [by exists x|].
  change (String c a ++ "/" ++ x) with (String c (a ++ "/" ++ x)). simpl.
  destruct (rstrip_slash a) as [|d r] eqn:Hr.
  - destruct (Ascii.eqb_spec c "/") as [->|Hne].
    + by exists (a ++ "/" ++ x).
    + exists y. rewrite IH. done.
  - exists y. rewrite IH. done.
Qed.

(** A normalised prefix stays in front of the normalised key. *)
Lemma rstrip_slash_keeps_prefix (p x : string) :
  rstrip_slash p = p → ∃ y, rstrip_slash (p ++ x) = p ++ y.
Proof.
  induction p as [|c p IH]; intros Hp; [by eexists|].
  change (String c p ++ x) with (String c (p ++ x)).
  simpl in *. destruct (rstrip_slash p) as [|d r] eqn:Hr.
  - destruct (Ascii.eqb_spec c "/"); [done|]. injection Hp as <-.
    change ("" ++ x) with x.
    destruct (rstrip_slash x) as [|e y]; [by exists ""|by exists (String e y)].
  - injection Hp as Hp. destruct (IH Hp) as [y Hy]. rewrite Hy.
    exists y. rewrite <- Hp. done.
Qed.

Lemma exists_node_false (path : string) (s : store) :
  exists_node path s = false ↔
  nodes s !! rstrip_slash path = None ∧ descendants (rstrip_slash path) s = [].
Proof.
  unfold exists_node. rewrite orb_false_iff, negb_false_iff.
  rewrite bool_decide_eq_false, bool_decide_eq_true.
  rewrite <- eq_None_not_Some. done.
Qed.

Lemma exists_node_true (path : string) (s : store) :
  exists_node path s = true ↔
  is_Some (nodes s !! rstrip_slash path) ∨ descendants (rstrip_slash path) s ≠ [].
Proof.
  unfold exists_node. rewrite orb_true_iff, negb_true_iff.
  rewrite bool_decide_eq_false, bool_decide_eq_true. done.
Qed.

Lemma read_absent (path : string) (recursive : bool) (s : store) :
  exists_node path s = false →
  read path recursive s
  = (Raise (KeyError ("Key not found : " ++ rstrip_slash path)), s).
Proof.
  intros [Hk Hd]%exists_node_false. unfold read. by rewrite Hk, Hd.
Qed.

Lemma read_present (path : string) (recursive : bool) (s : store) :
  exists_node path s = true → ∃ r, read path recursive s = (Ok r, s).
Proof.
  intros He. destruct (read_cases path recursive s) as [?|Hr]; [done|].
  exfalso. apply exists_node_true in He. unfold read in Hr.
  destruct (nodes s !! rstrip_slash path) as [[v|]|] eqn:Hk; [done|done|].
  destruct He as [[? ?]|He]; [done|].
  destruct (descendants (rstrip_slash path) s); done.
Qed.

(** What [delete(path, recursive=True, dir=True)] leaves of a key space. *)
Lemma delete_recursive_present (path : string) (s : store) :
  exists_node path s = true →
  ∃ s', delete_recursive path s = (Ok (), s') ∧ index s' = index s ∧
        ∀ k, nodes s' !! k
             = if at_or_under (rstrip_slash path) k then None else nodes s !! k.
Proof.
  intros He. apply exists_node_true in He. unfold delete_recursive.
  eexists (mkStore _ (index s)). split; [|split; [done|]].
  - destruct (nodes s !! rstrip_slash path) as [o|] eqn:Hk; [done|].
    destruct He as [[? ?]|He]; [done|].
    destruct (descendants (rstrip_slash path) s); done.
  - intros k. simpl. unfold at_or_under.
    destruct (String.eqb_spec k (rstrip_slash path)) as [->|Hne]; simpl.
    + apply map_lookup_filter_None. right. intros v _ [Hn _]. done.
    + destruct (is_under (rstrip_slash path) k) eqn:Hu.
      * apply map_lookup_filter_None. right. intros v _ [_ Hf]. simpl in Hf. congruence.
      * destruct (nodes s !! k) as [v|] eqn:Hv.
        -- apply map_lookup_filter_Some. done.
        -- apply map_lookup_filter_None. by left.
Qed.

Lemma delete_recursive_absent (path : string) (s : store) :
  exists_node path s = false →
  delete_recursive path s
  = (Raise (KeyError ("Key not found : " ++ rstrip_slash path)), s).
Proof.
  intros [Hk Hd]%exists_node_false. unfold delete_recursive. by rewrite Hk, Hd.
Qed.

(** Nothing is found at or under a directory whose keys are all gone. *)
Lemma cleared_absent (dir path : string) (s : store) :
  (∀ k, at_or_under dir k = true → nodes s !! k = None) →
  at_or_under dir (rstrip_slash path) = true →
  exists_node path s = false.
Proof.
  intros Hc Hu. apply exists_node_false. split; [by apply Hc|].
  destruct (descendants (rstrip_slash path) s) as [|n l] eqn:Hd; [done|].
  exfalso. assert (Hn : n ∈ descendants (rstrip_slash path) s) by (rewrite Hd; left).
  apply elem_of_descendants in Hn as [Hn Hun].
  rewrite Hc in Hn; [done|].
  unfold at_or_under. rewrite (at_or_under_trans _ _ _ Hu Hun). apply orb_true_r.
Qed.

(** A key that is stored under a directory makes the directory exist. *)
Lemma stored_below_exists (path k : string) (v : option text) (s : store) :
  nodes s !! k = Some v → is_under (rstrip_slash path) k = true →
  exists_node path s = true.
Proof.
  intros Hk Hu. apply exists_node_true. right. intros Hd.
  assert (Hn : (k, v) ∈ descendants (rstrip_slash path) s)
    by (by apply elem_of_descendants).
  rewrite Hd in Hn. by apply elem_of_nil in Hn.
Qed.

(* ===================================================================== *)
(** * Removing hosts, containers and all data *)
(* ===================================================================== *)

Section removal.
Context {nt : AddrText}.

Lemma absent_cleared (path : string) (s : store) :
  exists_node path s = false →
  ∀ k, at_or_under (rstrip_slash path) k = true → nodes s !! k = None.
Proof.
  intros [Hk Hd]%exists_node_false k [Heq|Hu]%orb_true_iff.
  - by apply String.eqb_eq in Heq as ->.
  - destruct (nodes s !! k) as [v|] eqn:Hv; [|done].
    assert (Hn : (k, v) ∈ descendants (rstrip_slash path) s)
      by (by apply elem_of_descendants).
    rewrite Hd in Hn. by apply elem_of_nil in Hn.
Qed.

Lemma at_or_under_refl (k : string) : at_or_under k k = true.
Proof. unfold at_or_under. by rewrite String.eqb_refl. Qed.

(** [try: delete(path, recursive=True, dir=True)  except KeyError: pass]. *)
Lemma remove_tree (path : string) (s : store) :
  ∃ s', except_KeyError (delete_recursive path) (ret ()) s = (Ok (), s') ∧
        index s' = index s ∧
        (∀ k, nodes s' !! k
              = if at_or_under (rstrip_slash path) k then None else nodes s !! k) ∧
        exists_node path s' = false.
Proof.
  unfold except_KeyError. destruct (exists_node path s) eqn:He.
  - destruct (delete_recursive_present path s He) as (s' & -> & Hi & Hl).
    exists s'. repeat split; [done|done|].
    apply (cleared_absent (rstrip_slash path)); [|apply at_or_under_refl].
    intros k Hk. by rewrite Hl, Hk.
  - rewrite (delete_recursive_absent path s He). exists s.
    repeat split; [|done]. intros k.
    destruct (at_or_under (rstrip_slash path) k) eqn:Hk; [|done].
    by apply (absent_cleared path).
Qed.

(** X1.  [remove_host] returns on every store, whether the host is there
    or not: afterwards no key is left at or under the host's directory,
    every other key holds what it held, and removing the host once more
    changes nothing. *)
Theorem remove_host_clears (hostname : string) (s : store) :
  ∃ s', remove_host hostname s = (Ok (), s') ∧
        (∀ k, nodes s' !! k
              = if at_or_under (rstrip_slash (HOST_PATH hostname)) k then None
                else nodes s !! k) ∧
        remove_host hostname s' = (Ok (), s').
Proof.
  destruct (remove_tree (HOST_PATH hostname) s) as (s' & Hrun & _ & Hl & He).
  exists s'. repeat split; [done|done|].
  unfold remove_host, except_KeyError.
  by rewrite (delete_recursive_absent _ _ He).
Qed.

Lemma get_groups_absent (s : store) :
  exists_node PROFILES_PATH s = false → get_groups s = (Ok ∅, s).
Proof.
  intros He. unfold get_groups, except_KeyError, bind.
  by rewrite (read_absent _ _ _ He).
Qed.

Lemma group_exists_run (name : string) (s : store) :
  group_exists name s = (Ok (exists_node (PROFILE_PATH name) s), s).
Proof.
  unfold group_exists, except_KeyError, bind.
  destruct (exists_node (PROFILE_PATH name) s) eqn:He.
  - by destruct (read_present _ false _ He) as [r ->].
  - by rewrite (read_absent _ _ _ He).
Qed.

Lemma get_group_members_absent (name : string) (s : store) :
  exists_node ALL_ENDPOINTS_PATH s = false → get_group_members name s = (Ok [], s).
Proof.
  intros He. unfold get_group_members, except_KeyError, bind.
  by rewrite (read_absent _ _ _ He).
Qed.

Lemma get_ip_pools_absent (version : string) (s : store) :
  version = "v4" ∨ version = "v6" →
  exists_node (IP_POOLS_PATH version) s = false → get_ip_pools version s = (Ok [], s).
Proof.
  intros Hv He. unfold get_ip_pools, bind. rewrite (assert_version_ok _ _ Hv).
  unfold except_KeyError, _get_ip_pools_with_keys, bind, except_KeyError.
  by rewrite (read_absent _ _ _ He).
Qed.

Lemma profile_under_calico (name : string) :
  at_or_under "/calico" (rstrip_slash (PROFILE_PATH name)) = true.
Proof.
  unfold PROFILE_PATH, PROFILES_PATH.
  destruct (rstrip_slash_keeps_prefix "/calico/policy/profile" ("/" ++ name ++ "/"))
    as [y Hy]; [done|].
  change ("/calico/policy/profile/" ++ name ++ "/")
    with ("/calico/policy/profile" ++ "/" ++ name ++ "/").
  rewrite Hy. unfold at_or_under. apply orb_true_iff. right.
  apply is_under_spec. by exists ("policy/profile" ++ y).
Qed.

(** X2.  [remove_all_data] returns on every store and leaves nothing at or
    under [/calico]; keys outside it are kept.  Every reader then reports
    an empty datastore instead of raising: no hosts, no groups, no group
    members, no pools, and no group exists. *)
Theorem remove_all_data_empties (s : store) :
  ∃ s', remove_all_data s = (Ok (), s') ∧
        (∀ k, nodes s' !! k = if at_or_under "/calico" k then None else nodes s !! k) ∧
        get_hosts s' = (Ok ∅, s') ∧
        get_groups s' = (Ok ∅, s') ∧
        (∀ name, group_exists name s' = (Ok false, s')) ∧
        (∀ name, get_group_members name s' = (Ok [], s')) ∧
        get_ip_pools "v4" s' = (Ok [], s') ∧
        get_ip_pools "v6" s' = (Ok [], s').
Proof.
  destruct (remove_tree "/calico" s) as (s' & Hrun & _ & Hl & _).
  assert (Hgone : ∀ k, at_or_under "/calico" k = true → nodes s' !! k = None).
  { intros k Hk. rewrite Hl. change (rstrip_slash "/calico") with "/calico".
    by rewrite Hk. }
  exists s'. split; [done|]. split; [done|].
  assert (Hhost : exists_node "/calico/host" s' = false)
    by (by apply (cleared_absent "/calico")).
  split.
  { apply exists_node_false in Hhost as [Hk Hd].
    apply get_hosts_empty_root; [by left|done]. }
  split.
  { apply get_groups_absent. by apply (cleared_absent "/calico"). }
  split.
  { intros name. rewrite group_exists_run.
    by rewrite (cleared_absent "/calico" _ _ Hgone (profile_under_calico name)). }
  split.
  { intros name. apply get_group_members_absent. by apply (cleared_absent "/calico"). }
  split; (apply get_ip_pools_absent; [by (left + right)|]);
    by apply (cleared_absent "/calico").
Qed.

End removal.


(* ===================================================================== *)
(** * Groups *)
(* ===================================================================== *)

Lemma create_group_run (name : string) (s : store) :
  create_group name s
  = (Ok (),
     mkStore (<[PROFILE_PATH name ++ "rules" := Some (json_dumps (default_policy name))]>
                (<[PROFILE_PATH name ++ "tags"
                   := Some (Text ("[" ++ quote ++ name ++ quote ++ "]"))]> (nodes s)))
             (index s)).
Proof.
  unfold create_group, bind, write, lift.
  rewrite !Rule_init_singleton by (apply list_elem_of_In; simpl; tauto).
  by rewrite tags_key, rules_key.
Qed.

Lemma profile_key_under (name leaf : string) :
  is_under (rstrip_slash (PROFILE_PATH name)) (PROFILE_PATH name ++ leaf) = true.
Proof.
  unfold PROFILE_PATH. rewrite <- append_assoc, rstrip_slash_slash.
  rewrite !append_assoc. rewrite <- (append_assoc PROFILES_PATH).
  apply is_under_dir.
Qed.

Lemma not_at_or_under (dir k k' : string) :
  at_or_under dir k = false → is_under dir k' = true → k' ≠ k.
Proof.
  unfold at_or_under. intros [_ H]%orb_false_iff Hu ->. congruence.
Qed.

(** X3.  The life of a group.  [create_group] makes the group exist,
    [delete_group] then returns and the group exists no more; of the keys
    outside the profile's directory none has changed, and nothing is left
    at or under the directory, whatever it held before the group was
    created. *)
Theorem group_lifecycle (name : string) (s : store) :
  ∃ s1 s2, create_group name s = (Ok (), s1) ∧
           group_exists name s1 = (Ok true, s1) ∧
           delete_group name s1 = (Ok (), s2) ∧
           group_exists name s2 = (Ok false, s2) ∧
           ∀ k, nodes s2 !! k
                = if at_or_under (rstrip_slash (PROFILE_PATH name)) k then None
                  else nodes s !! k.
Proof.
  pose proof (create_group_run name s) as Hc.
  set (s1 := mkStore _ _) in Hc. exists s1.
  assert (He : exists_node (PROFILE_PATH name) s1 = true).
  { apply (stored_below_exists _ (PROFILE_PATH name ++ "rules")
             (Some (json_dumps (default_policy name)))).
    - unfold s1. simpl. by rewrite lookup_insert_eq.
    - apply profile_key_under. }
  destruct (delete_recursive_present _ _ He) as (s2 & Hdel & _ & Hl).
  exists s2. split; [done|]. split; [by rewrite group_exists_run, He|].
  split; [by unfold delete_group, bind; rewrite Hdel|].
  split.
  - rewrite group_exists_run. f_equal. f_equal.
    apply (cleared_absent (rstrip_slash (PROFILE_PATH name))); [|apply at_or_under_refl].
    intros k Hk. by rewrite Hl, Hk.
  - intros k. rewrite Hl.
    destruct (at_or_under (rstrip_slash (PROFILE_PATH name)) k) eqn:Hk; [done|].
    unfold s1. simpl.
    rewrite !lookup_insert_ne; [done| |];
      apply (not_at_or_under _ _ _ Hk), profile_key_under.
Qed.

Lemma split_sep (c : ascii) (rest : string) :
  split c (String c rest) = "" :: split c rest.
Proof. apply (split_app c "" rest). done. Qed.

(** The slots of a key under the profiles directory. *)
Lemma split_profile_key (rest : string) :
  split "/" ("/calico/policy/profile" ++ "/" ++ rest)
  = "" :: "calico" :: "policy" :: "profile" :: split "/" rest.
Proof.
  change ("/calico/policy/profile" ++ "/" ++ rest)
    with (String "/" ("calico" ++ String "/" ("policy" ++ String "/"
            ("profile" ++ String "/" rest)))).
  rewrite split_sep. by rewrite !split_app.
Qed.

Lemma foldl_group_step_elem (l : list node) (acc : gset string) (g : string) :
  g ∈ foldl group_step acc l ↔
  g ∈ acc ∨ ∃ c, c ∈ l ∧ (4 < slots c.1)%nat ∧ slot 4 c.1 = g.
Proof.
  revert acc. induction l as [|c l IH]; intros acc; simpl.
  - split; [by left|]. intros [?|(c & Hc & _)]; [done|]. by apply elem_of_nil in Hc.
  - rewrite IH. unfold group_step at 1. fold (slots c.1). fold (slot 4 c.1).
    destruct (Nat.ltb_spec 4 (slots c.1)) as [Hlt|Hge].
    + rewrite elem_of_union, elem_of_singleton. split.
      * intros [[->|?]|(c' & Hc' & ?)].
        -- right. exists c. split; [left|done].
        -- by left.
        -- right. exists c'. split; [by right|done].
      * intros [?|(c' & Hc' & Hs & Hg)]; [left; by right|].
        apply elem_of_cons in Hc' as [->|Hc'].
        -- left. by left.
        -- right. by exists c'.
    + split.
      * intros [?|(c' & Hc' & ?)]; [by left|].
        right. exists c'. split; [by right|done].
      * intros [?|(c' & Hc' & Hs & Hg)]; [by left|].
        apply elem_of_cons in Hc' as [->|Hc']; [lia|].
        right. by exists c'.
Qed.

Lemma elem_of_leaf_nodes (sub : list node) (n : node) :
  n ∈ leaf_nodes sub ↔
  n ∈ sub ∧ (is_Some n.2 ∨ Forall (λ m : node, is_under n.1 m.1 = false) sub).
Proof. unfold leaf_nodes. by rewrite list_elem_of_filter, (comm and). Qed.

(** A recursive read of a directory lists the leaves under it. *)
Lemma read_recursive_directory (path : string) (s : store) :
  not_a_value s (rstrip_slash path) → exists_node path s = true →
  read path true s
  = (Ok (mkResult (rstrip_slash path) None
           (leaf_nodes (descendants (rstrip_slash path) s))), s).
Proof.
  intros Hn He. apply exists_node_true in He. unfold read.
  destruct (nodes s !! rstrip_slash path) as [[v|]|] eqn:Hk.
  - by destruct (Hn v).
  - by destruct (descendants (rstrip_slash path) s).
  - destruct He as [[? ?]|He]; [done|].
    by destruct (descendants (rstrip_slash path) s).
Qed.

(** The nodes a recursive read of a directory yields as leaves. *)
Lemma elem_of_leaves_recursive (path : string) (s : store) (r : EtcdResult) (c : node) :
  not_a_value s (rstrip_slash path) →
  read path true s = (Ok r, s) → c ∈ leaves r →
  c = (rstrip_slash path, None) ∧ leaf_nodes (descendants (rstrip_slash path) s) = [] ∨
  c ∈ leaf_nodes (descendants (rstrip_slash path) s).
Proof.
  intros Hn Hr Hc. destruct (exists_node path s) eqn:He.
  - rewrite (read_recursive_directory _ _ Hn He) in Hr. injection Hr as <-.
    unfold leaves in Hc. simpl in Hc.
    destruct (leaf_nodes (descendants (rstrip_slash path) s)) eqn:Hl.
    + left. by apply list_elem_of_singleton in Hc.
    + by right.
  - by rewrite (read_absent _ _ _ He) in Hr.
Qed.

Lemma valued_leaf (path : string) (s : store) (r : EtcdResult) (k : string) (v : text) :
  not_a_value s (rstrip_slash path) →
  read path true s = (Ok r, s) →
  nodes s !! k = Some (Some v) → is_under (rstrip_slash path) k = true →
  (k, Some v) ∈ leaves r.
Proof.
  intros Hn Hr Hk Hu.
  assert (He : exists_node path s = true) by (by eapply stored_below_exists).
  rewrite (read_recursive_directory _ _ Hn He) in Hr. injection Hr as <-.
  assert (Hl : (k, Some v) ∈ leaf_nodes (descendants (rstrip_slash path) s)).
  { apply elem_of_leaf_nodes. split; [by apply elem_of_descendants|by left]. }
  unfold leaves. simpl.
  destruct (leaf_nodes (descendants (rstrip_slash path) s));
    [by apply elem_of_nil in Hl|done].
Qed.

Lemma get_groups_run (s : store) :
  not_a_value s "/calico/policy/profile" →
  ∃ groups, get_groups s = (Ok groups, s) ∧
    (∀ k v, nodes s !! k = Some (Some v) →
            is_under "/calico/policy/profile" k = true → slot 4 k ∈ groups) ∧
    (∀ g, g ∈ groups →
          ∃ k v, nodes s !! k = Some v ∧
                 is_under "/calico/policy/profile" k = true ∧ slot 4 k = g).
Proof.
  intros Hn. destruct (exists_node PROFILES_PATH s) eqn:He.
  - destruct (read_present _ true _ He) as [r Hr].
    unfold get_groups, except_KeyError, bind. rewrite Hr. unfold ret, children.
    eexists. split; [done|]. split.
    + intros k v Hk Hu. apply foldl_group_step_elem. right.
      exists (k, Some v). split; [by apply (valued_leaf PROFILES_PATH s)|].
      split; [|done]. apply is_under_spec in Hu as [rest ->].
      unfold slots. cbn [fst]. rewrite split_profile_key.
      pose proof (split_nonempty "/" rest). destruct (split "/" rest); [done|simpl; lia].
    + intros g [Hg|(c & Hc & Hs & Hg)]%foldl_group_step_elem; [set_solver|].
      destruct (elem_of_leaves_recursive PROFILES_PATH s r c Hn Hr Hc)
        as [[-> _]|Hl].
      * vm_compute in Hs. lia.
      * apply elem_of_leaf_nodes in Hl as [[Hk Hu]%elem_of_descendants _].
        by exists c.1, c.2.
  - exists ∅. split; [by apply get_groups_absent|]. split.
    + intros k v Hk Hu. rewrite (absent_cleared _ _ He k) in Hk; [done|].
      change (rstrip_slash PROFILES_PATH) with "/calico/policy/profile".
      unfold at_or_under. rewrite Hu. apply orb_true_r.
    + set_solver.
Qed.

(** X4.  [get_groups] returns on every store whose profiles directory is
    not itself a value, and leaves the store alone.  The names returned are
    fifth slots of keys stored under the directory, and the fifth slot of
    every key holding a value there is among them; with nothing stored
    there the set is empty. *)
Theorem get_groups_spec (s : store) :
  not_a_value s "/calico/policy/profile" →
  ∃ groups, get_groups s = (Ok groups, s) ∧
    (∀ k v, nodes s !! k = Some (Some v) →
            is_under "/calico/policy/profile" k = true → slot 4 k ∈ groups) ∧
    (∀ g, g ∈ groups →
          ∃ k v, nodes s !! k = Some v ∧
                 is_under "/calico/policy/profile" k = true ∧ slot 4 k = g).
Proof. apply get_groups_run. Qed.

Lemma get_groups_spec_witness :
  ∃ groups,
    get_groups (mkStore {["/calico/policy/profile/web/tags" := Some (Text "[]")]} 0)
    = (Ok groups, mkStore {["/calico/policy/profile/web/tags" := Some (Text "[]")]} 0) ∧
    (∀ k v, nodes (mkStore {["/calico/policy/profile/web/tags" := Some (Text "[]")]} 0) !! k
            = Some (Some v) →
            is_under "/calico/policy/profile" k = true → slot 4 k ∈ groups) ∧
    (∀ g, g ∈ groups →
          ∃ k v, nodes (mkStore {["/calico/policy/profile/web/tags" := Some (Text "[]")]} 0) !! k
                 = Some v ∧
                 is_under "/calico/policy/profile" k = true ∧ slot 4 k = g).
Proof.
  apply (get_groups_spec
           (mkStore {["/calico/policy/profile/web/tags" := Some (Text "[]")]} 0)).
  intros v. by vm_compute.
Defined.

(** X5.  A group that was created is listed: for a name without a slash,
    [get_groups] after [create_group] returns a set that holds the name. *)
Theorem created_group_is_listed (name : string) (s : store) :
  contains "/" name = false →
  not_a_value s "/calico/policy/profile" →
  ∃ s1 groups, create_group name s = (Ok (), s1) ∧
               get_groups s1 = (Ok groups, s1) ∧ name ∈ groups.
Proof.
  intros Hname Hn. pose proof (create_group_run name s) as Hc.
  set (s1 := mkStore _ _) in Hc. exists s1.
  assert (Ht : PROFILE_PATH name ++ "tags"
               = "/calico/policy/profile" ++ "/" ++ name ++ "/tags").
  { unfold PROFILE_PATH, PROFILES_PATH. by rewrite !append_assoc. }
  assert (Hr : PROFILE_PATH name ++ "rules"
               = "/calico/policy/profile" ++ "/" ++ name ++ "/rules").
  { unfold PROFILE_PATH, PROFILES_PATH. by rewrite !append_assoc. }
  assert (Hn1 : not_a_value s1 "/calico/policy/profile").
  { intros v. unfold s1. simpl. rewrite Ht, Hr.
    rewrite !lookup_insert_ne; [apply Hn| |]; by apply append_neq_self. }
  destruct (get_groups_run s1 Hn1) as (groups & Hrun & Hin & _).
  exists groups. split; [done|]. split; [done|].
  assert (Hslot : slot 4 (PROFILE_PATH name ++ "tags") = name).
  { rewrite Ht. unfold slot. rewrite split_profile_key.
    change (name ++ "/tags") with (name ++ String "/" "tags").
    by rewrite split_app. }
  rewrite <- Hslot.
  apply (Hin _ (Text ("[" ++ quote ++ name ++ quote ++ "]"))).
  - unfold s1. simpl.
    rewrite lookup_insert_ne by (apply not_eq_sym, tags_rules_distinct).
    by rewrite lookup_insert_eq.
  - rewrite Ht. apply is_under_spec. by eexists.
Qed.

Lemma created_group_is_listed_witness :
  ∃ s1 groups, create_group "web" (mkStore ∅ 0) = (Ok (), s1) ∧
               get_groups s1 = (Ok groups, s1) ∧ "web" ∈ groups.
Proof.
  apply (created_group_is_listed "web" (mkStore ∅ 0)).
  - reflexivity.
  - intros v. by vm_compute.
Defined.

(* ===================================================================== *)
(** * Endpoints and their payloads *)
(* ===================================================================== *)

Section endpoint_payloads.
Context {nt : AddrText}.

Lemma length_substring (m : nat) (s : string) :
  (String.length (substring 0 m s) ≤ m)%nat.
Proof.
  revert s. induction m as [|m IH]; intros [|c s]; simpl; try lia.
  specialize (IH s). lia.
Qed.

(** X6.  The interface name of a payload is [cali] followed by at most
    the first eleven characters of the endpoint id, so it never has more
    than fifteen characters, whatever the length of the id. *)
Theorem interface_name_fits (e : Endpoint) :
  ∃ n, to_json_dict e !! "name" = Some (JStr (IF_PREFIX ++ n)) ∧
       String.prefix n (ep_id e) = true ∧
       (String.length n ≤ 11)%nat ∧
       (String.length (IF_PREFIX ++ n) ≤ 15)%nat.
Proof.
  exists (substring 0 11 (ep_id e)). split; [apply to_json_dict_name|].
  split.
  - generalize 11%nat. generalize (ep_id e). intros s m. revert s.
    induction m as [|m IH]; intros [|c s]; simpl; try done.
    destruct (Ascii.ascii_dec c c); [apply IH|done].
  - pose proof (length_substring 11 (ep_id e)). split; [done|].
    unfold IF_PREFIX.
    change ("cali" ++ substring 0 11 (ep_id e))
      with (String "c" (String "a" (String "l" (String "i" (substring 0 11 (ep_id e)))))).
    simpl. lia.
Qed.

(** X8.  The decoder reads seven fields and nothing else: setting any
    other key of the payload, [name] for one, to any value leaves the
    result of [from_json] as it is. *)
Theorem from_json_ignores_other_keys (ep_id0 k : string) (v : json)
    (d : gmap string json) :
  k ∉ ["state"; "mac"; "profile_id"; "ipv4_nets"; "ipv6_nets";
       "ipv4_gateway"; "ipv6_gateway"] →
  from_json ep_id0 (json_dumps (JObj (<[k := v]> d)))
  = from_json ep_id0 (json_dumps (JObj d)).
Proof.
  intros Hk. unfold from_json, json_dumps. cbn [json_loads rbind].
  unfold from_json_dict. cbn [as_dict rbind]. unfold getitem.
  rewrite !lookup_insert_ne; [done|..]; intros ->; apply Hk;
    apply list_elem_of_In; simpl; tauto.
Qed.

Lemma set_endpoint_run (hostname container_id : string) (e : Endpoint) (s : store) :
  set_endpoint hostname container_id e s
  = (Ok (),
     mkStore (<[rstrip_slash (ENDPOINT_PATH hostname container_id (ep_id e))
                := Some (to_json e)]> (nodes s)) (index s)).
Proof. done. Qed.

Lemma get_endpoint_value (hostname container_id endpoint_id : string) (t : text)
    (s : store) :
  nodes s !! rstrip_slash (ENDPOINT_PATH hostname container_id endpoint_id)
    = Some (Some t) →
  get_endpoint hostname container_id endpoint_id s = (from_json endpoint_id t, s).
Proof.
  intros Hk. unfold get_endpoint, bind. by rewrite (read_value _ _ _ _ Hk).
Qed.

(** X9.  An endpoint written with [set_endpoint] is read back by
    [get_endpoint] under its id: every field is the one written, a gateway
    being kept unless its address is zero. *)
Theorem get_endpoint_after_set (hostname container_id : string) (e : Endpoint)
    (s : store) :
  Endpoint_wf e →
  ∃ s1, set_endpoint hostname container_id e s = (Ok (), s1) ∧
        get_endpoint hostname container_id (ep_id e) s1
        = (Ok (mkEndpoint (ep_id e) (state e) (mac e) (profile_id e)
                 (ipv4_nets e) (ipv6_nets e)
                 (kept_gateway (ipv4_gateway e)) (kept_gateway (ipv6_gateway e))), s1).
Proof.
  intros Hwf. eexists. split; [apply set_endpoint_run|].
  rewrite (get_endpoint_value _ _ _ (to_json e)).
  - by rewrite from_json_to_json.
  - simpl. by rewrite lookup_insert_eq.
Qed.

End endpoint_payloads.


Lemma from_json_ignores_other_keys_witness :
  from_json "e1" (json_dumps (JObj (<["name" := JStr "eth0"]> (to_json_dict plain_endpoint))))
  = from_json "e1" (json_dumps (JObj (to_json_dict plain_endpoint))).
Proof.
  apply (from_json_ignores_other_keys "e1" "name" (JStr "eth0")
           (to_json_dict plain_endpoint)).
  intros H. apply list_elem_of_In in H. simpl in H. intuition discriminate.
Defined.

Lemma get_endpoint_after_set_witness :
  ∃ s1, set_endpoint "h1" "c1" plain_endpoint (mkStore ∅ 0) = (Ok (), s1) ∧
        get_endpoint "h1" "c1" (ep_id plain_endpoint) s1
        = (Ok (mkEndpoint (ep_id plain_endpoint) (state plain_endpoint)
                 (mac plain_endpoint) (profile_id plain_endpoint)
                 (ipv4_nets plain_endpoint) (ipv6_nets plain_endpoint)
                 (kept_gateway (ipv4_gateway plain_endpoint))
                 (kept_gateway (ipv6_gateway plain_endpoint))), s1).
Proof.
  apply (get_endpoint_after_set "h1" "c1" plain_endpoint (mkStore ∅ 0)).
  apply plain_endpoint_wf.
Defined.


(* ===================================================================== *)
(** * Containers *)
(* ===================================================================== *)

Section containers.
Context {nt : AddrText}.

Lemma rstrip_slash_plain (x : string) : contains "/" x = false → rstrip_slash x = x.
Proof.
  induction x as [|a x IH]; [done|]. simpl.
  intros [Ha Hx]%orb_false_iff. rewrite (IH Hx).
  destruct x; [|done]. by rewrite Ha.
Qed.

Lemma splitn_zero (c : ascii) (s : string) : splitn c 0 s = [s].
Proof. by destruct s. Qed.

Lemma splitn_app (c : ascii) (n : nat) (p rest : string) :
  contains c p = false →
  splitn c (S n) (p ++ String c rest) = p :: splitn c n rest.
Proof.
  induction p as [|a p IH]; intros Hp.
  - change ("" ++ String c rest) with (String c rest). simpl.
    by rewrite Ascii.eqb_refl.
  - simpl in Hp. apply orb_false_iff in Hp as [Ha Hp].
    change (String a p ++ String c rest) with (String a (p ++ String c rest)).
    cbn [splitn]. rewrite Ha, (IH Hp). done.
Qed.

Lemma container_dir (hostname container_id : string) :
  CONTAINER_PATH hostname container_id
  = (HOST_PATH hostname ++ "workload/docker/" ++ container_id) ++ "/".
Proof. unfold CONTAINER_PATH. by rewrite !append_assoc. Qed.

Lemma endpoints_dir (hostname container_id : string) :
  rstrip_slash (LOCAL_ENDPOINTS_PATH hostname container_id)
  = (HOST_PATH hostname ++ "workload/docker/" ++ container_id) ++ "/" ++ "endpoint".
Proof.
  unfold LOCAL_ENDPOINTS_PATH.
  assert (Hp : HOST_PATH hostname ++ "workload/docker/" ++ container_id ++ "/endpoint/"
               = (HOST_PATH hostname ++ "workload/docker/" ++ container_id)
                 ++ "/endpoint" ++ "/") by (by rewrite !append_assoc).
  rewrite Hp. by apply rstrip_slash_dir.
Qed.

Lemma endpoint_key (hostname container_id endpoint_id : string) :
  plain_name endpoint_id →
  rstrip_slash (ENDPOINT_PATH hostname container_id endpoint_id)
  = rstrip_slash (LOCAL_ENDPOINTS_PATH hostname container_id) ++ "/" ++ endpoint_id.
Proof.
  intros [Hne Hp]. rewrite endpoints_dir. unfold ENDPOINT_PATH, LOCAL_ENDPOINTS_PATH.
  assert (Hk : (HOST_PATH hostname ++ "workload/docker/" ++ container_id ++ "/endpoint/")
               ++ endpoint_id ++ "/"
               = ((HOST_PATH hostname ++ "workload/docker/" ++ container_id)
                  ++ "/" ++ "endpoint" ++ "/") ++ endpoint_id ++ "/")
    by (by rewrite !append_assoc).
  rewrite Hk, rstrip_slash_dir by (by try apply rstrip_slash_plain).
  by rewrite !append_assoc.
Qed.

Lemma endpoints_under_container (hostname container_id : string) :
  is_under (rstrip_slash (CONTAINER_PATH hostname container_id))
           (rstrip_slash (LOCAL_ENDPOINTS_PATH hostname container_id)) = true.
Proof.
  rewrite endpoints_dir, container_dir, rstrip_slash_slash. apply is_under_dir.
Qed.

Lemma get_ep_id_from_cont_absent (hostname container_id : string) (s : store) :
  exists_node (LOCAL_ENDPOINTS_PATH hostname container_id) s = false →
  get_ep_id_from_cont hostname container_id s
  = (Raise (KeyError ("Container with ID " ++ container_id ++ " was not found.")), s).
Proof.
  intros He. unfold get_ep_id_from_cont, bind, except_KeyError.
  by rewrite (read_absent _ _ _ He).
Qed.

(** X10.  A container that is not in the datastore.  When nothing exists
    at the container's endpoint directory, [get_ep_id_from_cont] replaces
    the store's [KeyError] by one that names the container, and
    [add_workload_to_group] and [remove_workload_from_group] raise that
    same error; none of them changes the store. *)
Theorem missing_container_named (hostname container_id : string) (s : store) :
  exists_node (LOCAL_ENDPOINTS_PATH hostname container_id) s = false →
  get_ep_id_from_cont hostname container_id s
  = (Raise (KeyError ("Container with ID " ++ container_id ++ " was not found.")), s) ∧
  (∀ group_name,
     add_workload_to_group hostname group_name container_id s
     = (Raise (KeyError ("Container with ID " ++ container_id ++ " was not found.")), s)) ∧
  remove_workload_from_group hostname container_id s
  = (Raise (KeyError ("Container with ID " ++ container_id ++ " was not found.")), s).
Proof.
  intros He. pose proof (get_ep_id_from_cont_absent _ _ _ He) as Hrun.
  split; [done|]. split; [intros group_name|];
    unfold add_workload_to_group, remove_workload_from_group, bind; by rewrite Hrun.
Qed.

Lemma remove_dups_const {A} `{EqDecision A} (l : list A) (a : A) :
  l ≠ [] → Forall (λ x, x = a) l → remove_dups l = [a].
Proof.
  intros Hne Hall.
  assert (Hin : a ∈ remove_dups l).
  { apply elem_of_remove_dups. destruct l as [|x l]; [done|].
    apply Forall_cons in Hall as [-> _]. left. }
  assert (Hall' : Forall (λ x, x = a) (remove_dups l)).
  { apply Forall_forall. intros x Hx. rewrite elem_of_remove_dups in Hx.
    rewrite Forall_forall in Hall. by apply Hall. }
  pose proof (NoDup_remove_dups l) as Hnd.
  destruct (remove_dups l) as [|x [|y r]].
  - by apply elem_of_nil in Hin.
  - by apply Forall_cons in Hall' as [-> _].
  - apply Forall_cons in Hall' as [-> Hall']. apply Forall_cons in Hall' as [-> _].
    apply NoDup_cons in Hnd as [Hnd _]. exfalso. apply Hnd. left.
Qed.

(** The listing of a directory all of whose keys lie at or below one
    child. *)
Lemma child_nodes_single (dir k : string) (s : store) :
  descendants dir s ≠ [] →
  (∀ n, n ∈ descendants dir s → child_key dir n.1 = k) →
  child_nodes dir s = [node_at s k].
Proof.
  intros Hne Hall. unfold child_nodes.
  rewrite (remove_dups_const _ k); [done| |].
  - intros Hnil. apply fmap_nil_inv in Hnil. by apply fmap_nil_inv in Hnil.
  - apply Forall_forall. intros x Hx.
    apply list_elem_of_fmap in Hx as (k' & -> & Hk').
    apply list_elem_of_fmap in Hk' as (n & -> & Hn). by apply Hall.
Qed.

(** The slots of an endpoint's key. *)
Lemma splitn_endpoint_key (hostname container_id endpoint_id : string) :
  contains "/" hostname = false → contains "/" container_id = false →
  splitn "/" 8 (((HOST_PATH hostname ++ "workload/docker/" ++ container_id)
                 ++ "/" ++ "endpoint") ++ "/" ++ endpoint_id)
  = [""; "calico"; "host"; hostname; "workload"; "docker"; container_id;
     "endpoint"; endpoint_id].
Proof.
  intros Hh Hc. unfold HOST_PATH, HOSTS_PATH. rewrite !append_assoc.
  change ("/calico/host/" ++ hostname ++ "/" ++ "workload/docker/" ++ container_id
          ++ "/" ++ "endpoint" ++ "/" ++ endpoint_id)
    with ("" ++ String "/" ("calico" ++ String "/" ("host" ++ String "/"
            (hostname ++ String "/" ("workload" ++ String "/" ("docker" ++ String "/"
               (container_id ++ String "/" ("endpoint" ++ String "/" endpoint_id)))))))).
  rewrite !splitn_app by done. by rewrite splitn_zero.
Qed.

(** X11.  The first endpoint of a new container.  On a store with nothing
    at the container's endpoint directory, after [set_endpoint] has written
    an endpoint [get_ep_id_from_cont] returns that endpoint's id; host and
    container names have no slash, the id is a plain name. *)
Theorem first_endpoint_found (hostname container_id : string) (e : Endpoint)
    (s : store) :
  contains "/" hostname = false → contains "/" container_id = false →
  plain_name (ep_id e) →
  exists_node (LOCAL_ENDPOINTS_PATH hostname container_id) s = false →
  ∃ s1, set_endpoint hostname container_id e s = (Ok (), s1) ∧
        get_ep_id_from_cont hostname container_id s1 = (Ok (ep_id e), s1).
Proof.
  intros Hh Hc Hid He. eexists. split; [apply set_endpoint_run|].
  rewrite (endpoint_key _ _ _ Hid).
  set (dir := rstrip_slash (LOCAL_ENDPOINTS_PATH hostname container_id)).
  set (K := dir ++ "/" ++ ep_id e). set (s1 := mkStore _ _).
  assert (HK : nodes s1 !! K = Some (Some (to_json e)))
    by (unfold s1; simpl; by rewrite lookup_insert_eq).
  assert (Hother : ∀ k, k ≠ K → nodes s1 !! k = nodes s !! k)
    by (intros k Hk; unfold s1; simpl; by rewrite lookup_insert_ne).
  assert (Hunder : is_under dir K = true) by (apply is_under_spec; by eexists).
  assert (Hdir : not_a_value s1 dir).
  { intros v. rewrite Hother by (apply not_eq_sym, append_neq_self; done).
    apply exists_node_false in He as [Hk _]. unfold dir. by rewrite Hk. }
  assert (Hdesc : ∀ n, n ∈ descendants dir s1 → n.1 = K).
  { intros n [Hn Hu]%elem_of_descendants.
    destruct (decide (n.1 = K)) as [|Hne]; [done|]. rewrite Hother in Hn by done.
    rewrite (absent_cleared _ _ He) in Hn; [done|].
    unfold at_or_under. fold dir. rewrite Hu. apply orb_true_r. }
  assert (Hlist : child_nodes dir s1 = [(K, Some (to_json e))]).
  { rewrite (child_nodes_single dir K).
    - unfold node_at. by rewrite HK.
    - intros Hnil.
      assert (Hin : (K, Some (to_json e)) ∈ descendants dir s1)
        by (by apply elem_of_descendants).
      rewrite Hnil in Hin. by apply elem_of_nil in Hin.
    - intros n Hn. rewrite (Hdesc n Hn). apply child_key_appended, Hid. }
  unfold get_ep_id_from_cont, bind, except_KeyError.
  destruct (read_directory (LOCAL_ENDPOINTS_PATH hostname container_id) s1 Hdir)
    as [->|[Hnil _]].
  - fold dir. rewrite Hlist. unfold ret, leaves. cbn [below fst].
    unfold K, dir. rewrite endpoints_dir.
    by rewrite (splitn_endpoint_key _ _ _ Hh Hc).
  - fold dir in Hnil.
    assert (Hin : (K, Some (to_json e)) ∈ descendants dir s1)
      by (by apply elem_of_descendants).
    rewrite Hnil in Hin. by apply elem_of_nil in Hin.
Qed.

(** X12.  [remove_container] on a container that is in the datastore
    returns and takes away every key at or under the container's directory
    and no other; looking up the container's endpoint afterwards raises the
    error naming the container.  On a container that is not there the
    store's [KeyError] goes to the caller and the store is unchanged. *)
Theorem remove_container_policy (hostname container_id : string) (s : store) :
  (exists_node (CONTAINER_PATH hostname container_id) s = true →
   ∃ s1, remove_container hostname container_id s = (Ok (), s1) ∧
         (∀ k, nodes s1 !! k
               = if at_or_under (rstrip_slash (CONTAINER_PATH hostname container_id)) k
                 then None else nodes s !! k) ∧
         get_ep_id_from_cont hostname container_id s1
         = (Raise (KeyError ("Container with ID " ++ container_id ++ " was not found.")),
            s1)) ∧
  (exists_node (CONTAINER_PATH hostname container_id) s = false →
   remove_container hostname container_id s
   = (Raise (KeyError ("Key not found : "
                       ++ rstrip_slash (CONTAINER_PATH hostname container_id))), s)).
Proof.
  split; intros He.
  - destruct (delete_recursive_present _ _ He) as (s1 & Hdel & _ & Hl).
    exists s1. split; [done|]. split; [done|].
    apply get_ep_id_from_cont_absent.
    apply (cleared_absent (rstrip_slash (CONTAINER_PATH hostname container_id))).
    + intros k Hk. by rewrite Hl, Hk.
    + unfold at_or_under. rewrite endpoints_under_container. apply orb_true_r.
  - by apply delete_recursive_absent.
Qed.

End containers.

Lemma missing_container_named_witness :
  get_ep_id_from_cont "h1" "c9" markers_store
  = (Raise (KeyError ("Container with ID " ++ "c9" ++ " was not found.")), markers_store) ∧
  (∀ group_name,
     add_workload_to_group "h1" group_name "c9" markers_store
     = (Raise (KeyError ("Container with ID " ++ "c9" ++ " was not found.")),
        markers_store)) ∧
  remove_workload_from_group "h1" "c9" markers_store
  = (Raise (KeyError ("Container with ID " ++ "c9" ++ " was not found.")), markers_store).
Proof. apply (missing_container_named "h1" "c9" markers_store). reflexivity. Defined.

Lemma first_endpoint_found_witness :
  ∃ s1, set_endpoint "h1" "c1" plain_endpoint markers_store = (Ok (), s1) ∧
        get_ep_id_from_cont "h1" "c1" s1 = (Ok (ep_id plain_endpoint), s1).
Proof.
  apply (first_endpoint_found "h1" "c1" plain_endpoint markers_store).
  - reflexivity.
  - reflexivity.
  - split; [discriminate|reflexivity].
  - reflexivity.
Defined.

Lemma remove_container_policy_witness :
  (∃ s1, remove_container "h1" "c1" (endpoint_store (to_json plain_endpoint)) = (Ok (), s1) ∧
         (∀ k, nodes s1 !! k
               = if at_or_under (rstrip_slash (CONTAINER_PATH "h1" "c1")) k
                 then None else nodes (endpoint_store (to_json plain_endpoint)) !! k) ∧
         get_ep_id_from_cont "h1" "c1" s1
         = (Raise (KeyError ("Container with ID " ++ "c1" ++ " was not found.")), s1)) ∧
  remove_container "h1" "c1" markers_store
  = (Raise (KeyError ("Key not found : " ++ rstrip_slash (CONTAINER_PATH "h1" "c1"))),
     markers_store).
Proof.
  split.
  - apply (remove_container_policy "h1" "c1" (endpoint_store (to_json plain_endpoint))).
    reflexivity.
  - apply (remove_container_policy "h1" "c1" markers_store). reflexivity.
Defined.


(* ===================================================================== *)
(** * Group members *)
(* ===================================================================== *)

Section members.
Context {nt : AddrText}.

Lemma profile_is_true (ep : Endpoint) (name : string) :
  profile_is ep name = true ↔ profile_id ep = JStr name.
Proof.
  unfold profile_is. destruct (profile_id ep); try (split; intros; done).
  rewrite String.eqb_eq. split; intros; by simplify_eq.
Qed.

Lemma from_json_value_ep_id (ep_id0 : string) (v : option text) (ep : Endpoint) :
  from_json_value ep_id0 v = Ok ep → ep_id ep = ep_id0.
Proof. destruct v; [apply from_json_ep_id|done]. Qed.

Lemma member_step_decoded (name : string) (members : list string) (c : node)
    (ep : Endpoint) :
  slots c.1 = 9%nat → from_json_value (last_slot c.1) c.2 = Ok ep →
  member_step name members c
  = Ok (if profile_is ep name then (members ++ [last_slot c.1])%list else members).
Proof.
  intros Hs Hd. unfold member_step. fold (slots c.1). fold (last_slot c.1).
  rewrite Hs, Hd. simpl. by rewrite (from_json_value_ep_id _ _ _ Hd).
Qed.

Lemma member_step_raises (name : string) (members : list string) (c : node) (e : exn) :
  slots c.1 = 9%nat → from_json_value (last_slot c.1) c.2 = Raise e →
  member_step name members c = Raise e.
Proof.
  intros Hs Hd. unfold member_step. fold (slots c.1). fold (last_slot c.1).
  by rewrite Hs, Hd.
Qed.

Lemma member_step_other (name : string) (members : list string) (c : node) :
  slots c.1 ≠ 9%nat → member_step name members c = Ok members.
Proof.
  intros Hs. unfold member_step. fold (slots c.1).
  by destruct (Nat.eqb_spec (slots c.1) 9).
Qed.

Lemma foldlM_member_step_ok (name : string) (l : list node) (acc : list string) :
  (∀ c, c ∈ l → slots c.1 = 9%nat →
        is_ok (from_json_value (last_slot c.1) c.2) = true) →
  ∃ members, foldlM (member_step name) acc l = Ok members ∧
    ∀ i, i ∈ members ↔
         i ∈ acc ∨ ∃ c ep, c ∈ l ∧ slots c.1 = 9%nat ∧
                           from_json_value (last_slot c.1) c.2 = Ok ep ∧
                           profile_id ep = JStr name ∧ i = last_slot c.1.
Proof.
  revert acc. induction l as [|c l IH]; intros acc Hall.
  - exists acc. split; [done|]. intros i. split; [by left|].
    intros [?|(c & ep & Hc & _)]; [done|]. by apply elem_of_nil in Hc.
  - assert (Hl : ∀ c', c' ∈ l → slots c'.1 = 9%nat →
                       is_ok (from_json_value (last_slot c'.1) c'.2) = true)
      by (intros c' Hc'; apply Hall; by right).
    cbn [foldlM]. destruct (decide (slots c.1 = 9%nat)) as [Hs|Hs].
    + pose proof (Hall c ltac:(left) Hs) as Hok.
      destruct (from_json_value (last_slot c.1) c.2) as [ep|e] eqn:Hd; [|done].
      rewrite (member_step_decoded _ _ _ _ Hs Hd). cbn [rbind].
      destruct (IH (if profile_is ep name then (acc ++ [last_slot c.1])%list else acc) Hl)
        as (members & -> & Hm).
      exists members. split; [done|]. intros i. rewrite Hm. split.
      * intros [Hi|(c' & ep' & Hc' & ?)].
        -- destruct (profile_is ep name) eqn:Hp; [|by left].
           apply elem_of_app in Hi as [?|Hi]; [by left|].
           apply list_elem_of_singleton in Hi as ->.
           right. exists c, ep. split; [left|]. by rewrite <- profile_is_true.
        -- right. exists c', ep'. split; [by right|done].
      * intros [Hi|(c' & ep' & Hc' & Hs' & Hd' & Hp' & ->)].
        -- left. destruct (profile_is ep name); [|done]. apply elem_of_app. by left.
        -- apply elem_of_cons in Hc' as [->|Hc'].
           ++ left. rewrite Hd in Hd'. injection Hd' as <-.
              apply profile_is_true in Hp'. rewrite Hp'.
              apply elem_of_app. right. by apply list_elem_of_singleton.
           ++ right. by exists c', ep'.
    + rewrite (member_step_other _ _ _ Hs). cbn [rbind].
      destruct (IH acc Hl) as (members & -> & Hm).
      exists members. split; [done|]. intros i. rewrite Hm. split.
      * intros [?|(c' & ep' & Hc' & ?)]; [by left|].
        right. exists c', ep'. split; [by right|done].
      * intros [?|(c' & ep' & Hc' & Hs' & ?)]; [by left|].
        apply elem_of_cons in Hc' as [->|Hc']; [done|].
        right. by exists c', ep'.
Qed.

Lemma foldlM_member_step_raises (name : string) (l : list node) (acc : list string)
    (c : node) (e : exn) :
  c ∈ l → slots c.1 = 9%nat → from_json_value (last_slot c.1) c.2 = Raise e →
  ∃ e', foldlM (member_step name) acc l = Raise e'.
Proof.
  revert acc. induction l as [|x l IH]; intros acc Hc Hs Hd.
  - by apply elem_of_nil in Hc.
  - cbn [foldlM]. apply elem_of_cons in Hc as [<-|Hc].
    + rewrite (member_step_raises _ _ _ _ Hs Hd). by eexists.
    + destruct (member_step name acc x) as [acc'|e'']; [|by eexists].
      cbn [rbind]. by apply IH.
Qed.

Lemma get_group_members_listing (name : string) (s : store) (r : EtcdResult) :
  read ALL_ENDPOINTS_PATH true s = (Ok r, s) →
  get_group_members name s = (foldlM (member_step name) [] (leaves r), s).
Proof.
  intros Hr. unfold get_group_members, bind, except_KeyError. by rewrite Hr.
Qed.

(** X13.  Who the members of a group are.  When every leaf of the hosts
    listing that has nine slots decodes, [get_group_members] returns and
    leaves the store alone; the ids returned are the last slots of the
    nine-slot leaves whose endpoint decodes with [profile_id] equal to the
    group's name, and no others. *)
Theorem get_group_members_spec (name : string) (s : store) (r : EtcdResult) :
  read ALL_ENDPOINTS_PATH true s = (Ok r, s) →
  (∀ c, c ∈ leaves r → slots c.1 = 9%nat →
        is_ok (from_json_value (last_slot c.1) c.2) = true) →
  ∃ members, get_group_members name s = (Ok members, s) ∧
    ∀ i, i ∈ members ↔
         ∃ c ep, c ∈ leaves r ∧ slots c.1 = 9%nat ∧
                 from_json_value (last_slot c.1) c.2 = Ok ep ∧
                 profile_id ep = JStr name ∧ i = last_slot c.1.
Proof.
  intros Hr Hall. rewrite (get_group_members_listing _ _ _ Hr).
  destruct (foldlM_member_step_ok name (leaves r) [] Hall) as (members & -> & Hm).
  exists members. split; [done|]. intros i. rewrite Hm. split.
  - intros [Hi|?]; [by apply elem_of_nil in Hi|done].
  - intros ?. by right.
Qed.

(** X14.  One endpoint that does not decode breaks the listing of every
    group: when some nine-slot leaf of the hosts listing fails to decode,
    [get_group_members] raises for every group name, whichever group the
    endpoint might belong to. *)
Theorem corrupt_endpoint_breaks_members (s : store) (r : EtcdResult) (c : node)
    (e : exn) :
  read ALL_ENDPOINTS_PATH true s = (Ok r, s) →
  c ∈ leaves r → slots c.1 = 9%nat →
  from_json_value (last_slot c.1) c.2 = Raise e →
  ∀ name, ∃ e', get_group_members name s = (Raise e', s).
Proof.
  intros Hr Hc Hs Hd name. rewrite (get_group_members_listing _ _ _ Hr).
  destruct (foldlM_member_step_raises name (leaves r) [] c e Hc Hs Hd) as [e' ->].
  by exists e'.
Qed.

Lemma host_step_missing_state (hosts : Hosts) (c : node) (d : gmap string json) :
  slots c.1 = 9%nat → c.2 = Some (json_dumps (JObj d)) → d !! "state" = None →
  host_step hosts c = Raise (KeyError "state").
Proof.
  intros Hs Hv Hd. unfold host_step. unfold slots in Hs. rewrite Hs. cbn [Nat.ltb Nat.leb andb Nat.eqb].
  destruct (split "/" c.1) as [|p0 [|p1 [|p2 [|p3 [|p4 [|p5 [|p6 [|p7 [|p8 [|p9 l]]]]]]]]]];
    try done.
  rewrite Hv. unfold from_json_value, from_json, json_dumps. cbn [json_loads rbind].
  unfold from_json_dict. cbn [as_dict rbind]. unfold getitem. by rewrite Hd.
Qed.

(** X15.  [get_hosts] swallows the [KeyError] of a payload that lacks a
    field.  The loop over the leaves runs inside the [try]: at the first
    nine-slot leaf whose payload is a JSON object without [state] the loop
    ends, and [get_hosts] returns the hosts built from the leaves before
    it; the leaves after it are never looked at. *)
Theorem get_hosts_stops_at_missing_field (s : store) (r : EtcdResult)
    (l1 l2 : list node) (c : node) (d : gmap string json) (hosts : Hosts) :
  read "/calico/host" true s = (Ok r, s) →
  leaves r = (l1 ++ c :: l2)%list →
  for_each host_step ∅ l1 = (hosts, None) →
  slots c.1 = 9%nat → c.2 = Some (json_dumps (JObj d)) → d !! "state" = None →
  get_hosts s = (Ok hosts, s).
Proof.
  intros Hr Hl H1 Hs Hv Hd. unfold get_hosts. rewrite Hr, Hl, for_each_app, H1.
  cbn [for_each]. by rewrite (host_step_missing_state hosts c d Hs Hv Hd).
Qed.

End members.

Lemma get_group_members_spec_witness :
  ∃ members,
    get_group_members "g"
      (endpoint_store (to_json (set_profile_id plain_endpoint (JStr "g"))))
    = (Ok members, endpoint_store (to_json (set_profile_id plain_endpoint (JStr "g")))) ∧
    ∀ i, i ∈ members ↔
         ∃ c ep,
           c ∈ leaves (mkResult "/calico/host" None
                 [("/calico/host/h1/workload/docker/c1/endpoint/e1",
                   Some (to_json (set_profile_id plain_endpoint (JStr "g"))));
                  ("/calico/host/h1/config/marker", Some (Text "created"));
                  ("/calico/host/h1/bird_ip", Some (Text "10.0.0.1"))]) ∧
           slots c.1 = 9%nat ∧
           from_json_value (last_slot c.1) c.2 = Ok ep ∧
           profile_id ep = JStr "g" ∧ i = last_slot c.1.
Proof.
  apply (get_group_members_spec "g"
           (endpoint_store (to_json (set_profile_id plain_endpoint (JStr "g"))))).
  - by vm_compute.
  - intros c Hc Hs. unfold leaves in Hc. cbn [below] in Hc.
    repeat (apply elem_of_cons in Hc as [->|Hc]); [by vm_compute..|].
    by apply elem_of_nil in Hc.
Defined.

Lemma corrupt_endpoint_breaks_members_witness :
  ∃ e', get_group_members "web" broken_store = (Raise e', broken_store).
Proof.
  apply (corrupt_endpoint_breaks_members broken_store
           (mkResult "/calico/host" None
              [("/calico/host/h1/workload/docker/c1/endpoint/e1",
                Some (json_dumps (JObj ∅)));
               ("/calico/host/h1/config/marker", Some (Text "created"));
               ("/calico/host/h1/bird_ip", Some (Text "10.0.0.1"))])
           ("/calico/host/h1/workload/docker/c1/endpoint/e1", Some (json_dumps (JObj ∅)))
           (KeyError "state")).
  - by vm_compute.
  - left.
  - reflexivity.
  - reflexivity.
Defined.

Lemma get_hosts_stops_at_missing_field_witness :
  get_hosts broken_store = (Ok ∅, broken_store).
Proof.
  apply (get_hosts_stops_at_missing_field broken_store
           (mkResult "/calico/host" None
              [("/calico/host/h1/workload/docker/c1/endpoint/e1",
                Some (json_dumps (JObj ∅)));
               ("/calico/host/h1/config/marker", Some (Text "created"));
               ("/calico/host/h1/bird_ip", Some (Text "10.0.0.1"))])
           []
           [("/calico/host/h1/config/marker", Some (Text "created"));
            ("/calico/host/h1/bird_ip", Some (Text "10.0.0.1"))]
           ("/calico/host/h1/workload/docker/c1/endpoint/e1", Some (json_dumps (JObj ∅)))
           ∅ ∅).
  - by vm_compute.
  - reflexivity.
  - reflexivity.
  - reflexivity.
  - reflexivity.
  - reflexivity.
Defined.


(* ===================================================================== *)
(** * Assigning a workload and listing the members *)
(* ===================================================================== *)

Section membership.
Context {nt : AddrText}.

Lemma foldlM_member_step_decodes (name : string) (l : list node)
    (acc members : list string) :
  foldlM (member_step name) acc l = Ok members →
  ∀ c, c ∈ l → slots c.1 = 9%nat →
       is_ok (from_json_value (last_slot c.1) c.2) = true.
Proof.
  intros Hrun c Hc Hs.
  destruct (from_json_value (last_slot c.1) c.2) as [ep|e] eqn:Hd; [done|].
  destruct (foldlM_member_step_raises name l acc c e Hc Hs Hd) as [e' He'].
  congruence.
Qed.

(** The slots of an endpoint's key. *)
Lemma split_endpoint_key (hostname container_id endpoint_id : string) :
  contains "/" hostname = false → contains "/" container_id = false →
  contains "/" endpoint_id = false →
  split "/" (((HOST_PATH hostname ++ "workload/docker/" ++ container_id)
              ++ "/" ++ "endpoint") ++ "/" ++ endpoint_id)
  = [""; "calico"; "host"; hostname; "workload"; "docker"; container_id;
     "endpoint"; endpoint_id].
Proof.
  intros Hh Hc He. unfold HOST_PATH, HOSTS_PATH. rewrite !append_assoc.
  change ("/calico/host/" ++ hostname ++ "/" ++ "workload/docker/" ++ container_id
          ++ "/" ++ "endpoint" ++ "/" ++ endpoint_id)
    with ("" ++ String "/" ("calico" ++ String "/" ("host" ++ String "/"
            (hostname ++ String "/" ("workload" ++ String "/" ("docker" ++ String "/"
               (container_id ++ String "/" ("endpoint" ++ String "/" endpoint_id)))))))).
  rewrite !split_app by done. by rewrite split_nosep.
Qed.

Lemma endpoint_key_under_hosts (hostname container_id endpoint_id : string) :
  is_under "/calico/host"
    (((HOST_PATH hostname ++ "workload/docker/" ++ container_id)
      ++ "/" ++ "endpoint") ++ "/" ++ endpoint_id) = true.
Proof.
  apply is_under_spec. unfold HOST_PATH, HOSTS_PATH. rewrite !append_assoc.
  by eexists.
Qed.

Section rewrite_value.
Variables (s : store) (K : string) (t t' : text).
Hypothesis stored : nodes s !! K = Some (Some t).
Let s1 : store := mkStore (<[K := Some t']> (nodes s)) (index s).

(** Giving a key that holds a value another value moves no leaf. *)
Lemma leaf_after_rewrite (dir : string) (c : node) :
  c ∈ leaf_nodes (descendants dir s1) →
  c = (K, Some t') ∨ c ∈ leaf_nodes (descendants dir s).
Proof.
  intros [[Hc Hu]%elem_of_descendants Hleaf]%elem_of_leaf_nodes.
  simpl in Hc. destruct (decide (c.1 = K)) as [HK|HK].
  - left. rewrite HK, lookup_insert_eq in Hc. destruct c. simpl in *. congruence.
  - right. rewrite lookup_insert_ne in Hc by done.
    apply elem_of_leaf_nodes. split; [by apply elem_of_descendants|].
    destruct Hleaf as [?|Hall]; [by left|]. right.
    apply Forall_forall. intros m [Hm Hum]%elem_of_descendants.
    rewrite Forall_forall in Hall.
    destruct (decide (m.1 = K)) as [Hmk|Hmk].
    + rewrite Hmk in Hum |- *. apply (Hall (K, Some t')).
      apply elem_of_descendants. simpl. by rewrite lookup_insert_eq.
    + apply (Hall m). apply elem_of_descendants. simpl.
      by rewrite lookup_insert_ne.
Qed.

Lemma rewritten_leaf (dir : string) :
  is_under dir K = true → (K, Some t') ∈ leaf_nodes (descendants dir s1).
Proof.
  intros Hu. apply elem_of_leaf_nodes. split; [|by left].
  apply elem_of_descendants. simpl. by rewrite lookup_insert_eq.
Qed.

Lemma not_a_value_after_rewrite (k : string) :
  not_a_value s k → not_a_value s1 k.
Proof.
  intros Hn v. simpl. destruct (decide (k = K)) as [->|Hk].
  - by destruct (Hn t).
  - rewrite lookup_insert_ne by done. apply Hn.
Qed.
End rewrite_value.

Lemma kept_gateway_idemp (gw : option IPAddress) :
  kept_gateway (kept_gateway gw) = kept_gateway gw.
Proof.
  destruct gw as [a|]; [|done]. simpl.
  destruct (IPAddress_bool a) eqn:Ha; [|done]. simpl. by rewrite Ha.
Qed.

Lemma kept_endpoint_wf (e : Endpoint) (p : json) :
  Endpoint_wf e →
  Endpoint_wf (mkEndpoint (ep_id e) (state e) (mac e) p (ipv4_nets e) (ipv6_nets e)
                 (kept_gateway (ipv4_gateway e)) (kept_gateway (ipv6_gateway e))).
Proof.
  intros [H1 H2 H3 H4 H5 H6]. split; simpl; try done.
  - intros a Ha. apply H5. destruct (ipv4_gateway e) as [b|]; [|done].
    simpl in Ha. by destruct (IPAddress_bool b).
  - intros a Ha. apply H6. destruct (ipv6_gateway e) as [b|]; [|done].
    simpl in Ha. by destruct (IPAddress_bool b).
Qed.

Lemma added_workload_member_run (hostname group_name container_id endpoint_id : string)
    (e : Endpoint) (s : store) (members0 : list string) :
  contains "/" hostname = false → contains "/" container_id = false →
  plain_name endpoint_id →
  Endpoint_wf e → ep_id e = endpoint_id →
  not_a_value s "/calico/host" →
  get_ep_id_from_cont hostname container_id s = (Ok endpoint_id, s) →
  nodes s !! rstrip_slash (ENDPOINT_PATH hostname container_id endpoint_id)
    = Some (Some (to_json e)) →
  get_group_members group_name s = (Ok members0, s) →
  ∃ s1 members,
    add_workload_to_group hostname group_name container_id s = (Ok (), s1) ∧
    get_group_members group_name s1 = (Ok members, s1) ∧
    endpoint_id ∈ members.
Proof.
  intros Hh Hc Hid Hwf Heid Hroot Hfirst Hstored Hbefore. subst endpoint_id.
  pose proof (from_json_to_json e Hwf) as Hdec.
  set (ep := mkEndpoint _ _ _ _ _ _ _ _) in Hdec.
  pose proof (rewrite_profile hostname container_id (ep_id e) (to_json e) ep
                (JStr group_name) s Hfirst Hstored Hdec) as Hrun.
  fold (add_workload_to_group hostname group_name container_id) in Hrun.
  set (new := to_json (set_profile_id ep (JStr group_name))) in Hrun.
  rewrite (endpoint_key _ _ _ Hid), endpoints_dir in Hrun, Hstored.
  set (K := (_ ++ "/" ++ "endpoint") ++ "/" ++ ep_id e) in Hrun, Hstored.
  set (s1 := mkStore _ _) in Hrun.
  exists s1.
  assert (Hunder : is_under "/calico/host" K = true)
    by apply endpoint_key_under_hosts.
  assert (Hroot1 : not_a_value s1 "/calico/host")
    by (by apply (not_a_value_after_rewrite s K (to_json e))).
  assert (He0 : exists_node ALL_ENDPOINTS_PATH s = true)
    by (by apply (stored_below_exists _ K (Some (to_json e)))).
  assert (He1 : exists_node ALL_ENDPOINTS_PATH s1 = true).
  { apply (stored_below_exists _ K (Some new)); [|done].
    unfold s1. simpl. by rewrite lookup_insert_eq. }
  pose proof (read_recursive_directory ALL_ENDPOINTS_PATH s Hroot He0) as Hr0.
  pose proof (read_recursive_directory ALL_ENDPOINTS_PATH s1 Hroot1 He1) as Hr1.
  change (rstrip_slash ALL_ENDPOINTS_PATH) with "/calico/host" in Hr0, Hr1.
  rewrite (get_group_members_listing _ _ _ Hr0) in Hbefore.
  injection Hbefore as Hbefore.
  pose proof (rewritten_leaf s K new "/calico/host" Hunder) as Hnew.
  fold s1 in Hnew.
  assert (Hleaves1 : leaves (mkResult "/calico/host" None
                               (leaf_nodes (descendants "/calico/host" s1)))
                     = leaf_nodes (descendants "/calico/host" s1)).
  { unfold leaves. simpl. destruct (leaf_nodes (descendants "/calico/host" s1));
      [by apply elem_of_nil in Hnew|done]. }
  assert (Hslots : slots K = 9%nat)
    by (unfold slots, K; by rewrite (split_endpoint_key _ _ _ Hh Hc (proj2 Hid))).
  assert (Hlast : last_slot K = ep_id e)
    by (unfold last_slot, K; by rewrite (split_endpoint_key _ _ _ Hh Hc (proj2 Hid))).
  assert (Hnewdec : from_json (ep_id e) new
                    = Ok (set_profile_id ep (JStr group_name))).
  { unfold new.
    change (ep_id e) with (ep_id (set_profile_id ep (JStr group_name))) at 1.
    rewrite from_json_to_json by exact (kept_endpoint_wf e (JStr group_name) Hwf).
    unfold set_profile_id, ep. cbn [ep_id state mac profile_id ipv4_nets ipv6_nets
                                     ipv4_gateway ipv6_gateway].
    by rewrite !kept_gateway_idemp. }
  destruct (foldlM_member_step_ok group_name
              (leaf_nodes (descendants "/calico/host" s1)) [])
    as (members & Hafter & Hm).
  { intros c Hc1 Hs.
    destruct (leaf_after_rewrite s K new "/calico/host" c Hc1)
      as [->|Hc0].
    - cbn [fst snd]. rewrite Hlast. unfold from_json_value. by rewrite Hnewdec.
    - apply (foldlM_member_step_decodes group_name _ _ _ Hbefore); [|done].
      unfold leaves. simpl.
      destruct (leaf_nodes (descendants "/calico/host" s));
        [by apply elem_of_nil in Hc0|done]. }
  exists members. split; [done|]. split.
  - rewrite (get_group_members_listing _ _ _ Hr1). by rewrite Hleaves1, Hafter.
  - apply Hm. right. exists (K, Some new), (set_profile_id ep (JStr group_name)).
    split; [done|]. split; [done|]. cbn [fst snd]. rewrite Hlast.
    split; [done|]. done.
Qed.

(** X16.  A workload that was added to a group is among the group's
    members.  The container's first endpoint holds the encoding of an
    endpoint, and the member listing worked before the assignment; then
    [add_workload_to_group] returns, the listing still works, and it holds
    the endpoint's id. *)
Theorem added_workload_is_member (hostname group_name container_id endpoint_id : string)
    (e : Endpoint) (s : store) (members0 : list string) :
  contains "/" hostname = false → contains "/" container_id = false →
  plain_name endpoint_id →
  Endpoint_wf e → ep_id e = endpoint_id →
  not_a_value s "/calico/host" →
  get_ep_id_from_cont hostname container_id s = (Ok endpoint_id, s) →
  nodes s !! rstrip_slash (ENDPOINT_PATH hostname container_id endpoint_id)
    = Some (Some (to_json e)) →
  get_group_members group_name s = (Ok members0, s) →
  ∃ s1 members,
    add_workload_to_group hostname group_name container_id s = (Ok (), s1) ∧
    get_group_members group_name s1 = (Ok members, s1) ∧
    endpoint_id ∈ members.
Proof. apply added_workload_member_run. Qed.

End membership.

Lemma added_workload_is_member_witness :
  ∃ s1 members,
    add_workload_to_group "h1" "web" "c1" (endpoint_store (to_json plain_endpoint))
    = (Ok (), s1) ∧
    get_group_members "web" s1 = (Ok members, s1) ∧
    "e1" ∈ members.
Proof.
  apply (added_workload_is_member "h1" "web" "c1" "e1" plain_endpoint
           (endpoint_store (to_json plain_endpoint)) []).
  - reflexivity.
  - reflexivity.
  - split; [discriminate|reflexivity].
  - apply plain_endpoint_wf.
  - reflexivity.
  - intros v. by vm_compute.
  - by vm_compute.
  - by vm_compute.
  - by vm_compute.
Defined.


(* ===================================================================== *)
(** * Global configuration and hosts *)
(* ===================================================================== *)

Section host_config.
Context {nt : AddrText}.

Lemma exists_node_stored (path : string) (s : store) :
  exists_node path s = true ↔
  ∃ k v, nodes s !! k = Some v ∧ at_or_under (rstrip_slash path) k = true.
Proof.
  rewrite exists_node_true. split.
  - intros [[v Hv]|Hd].
    + exists (rstrip_slash path), v. split; [done|apply at_or_under_refl].
    + destruct (descendants (rstrip_slash path) s) as [|n l] eqn:Hl; [done|].
      assert (Hn : n ∈ descendants (rstrip_slash path) s) by (rewrite Hl; left).
      apply elem_of_descendants in Hn as [Hn Hu].
      exists n.1, n.2. split; [done|]. unfold at_or_under. rewrite Hu. apply orb_true_r.
  - intros (k & v & Hk & [Heq|Hu]%orb_true_iff).
    + apply String.eqb_eq in Heq as ->. left. by exists v.
    + right. intros Hd.
      assert (Hn : (k, v) ∈ descendants (rstrip_slash path) s)
        by (by apply elem_of_descendants).
      rewrite Hd in Hn. by apply elem_of_nil in Hn.
Qed.

(** X17.  [create_global_config] writes the defaults once and never
    overwrites.  It returns on every store; when something exists at or
    under the configuration directory the store is left as it is, otherwise
    the interface prefix [cali] and the log severity [DEBUG] are written;
    running it again changes nothing. *)
Theorem create_global_config_once (s : store) :
  ∃ s1, create_global_config s = (Ok (), s1) ∧
        s1 = (if exists_node CONFIG_PATH s then s
              else mkStore
                     (<["/calico/config/LogSeverityFile" := Some (Text "DEBUG")]>
                        (<["/calico/config/InterfacePrefix" := Some (Text "cali")]>
                           (nodes s)))
                     (index s)) ∧
        create_global_config s1 = (Ok (), s1).
Proof.
  assert (Hpresent : ∀ s0, exists_node CONFIG_PATH s0 = true →
                           create_global_config s0 = (Ok (), s0)).
  { intros s0 He. unfold create_global_config, except_KeyError, bind.
    by destruct (read_present _ false _ He) as [r ->]. }
  destruct (exists_node CONFIG_PATH s) eqn:He.
  - exists s. rewrite (Hpresent s He). done.
  - eexists. split; [|split; [reflexivity|]].
    + unfold create_global_config, except_KeyError, bind.
      rewrite (read_absent _ _ _ He). reflexivity.
    + apply Hpresent.
      apply (stored_below_exists _ "/calico/config/LogSeverityFile"
               (Some (Text "DEBUG"))); [|done].
      simpl. by rewrite lookup_insert_eq.
Qed.

Lemma create_host_run (hostname bird_ip bird6_ip : string) (s : store) :
  ∃ s1, create_host hostname bird_ip bird6_ip s = (Ok (), s1) ∧
        nodes s1 !! ("/calico/host/" ++ hostname ++ "/bird_ip")
          = Some (Some (Text bird_ip)) ∧
        nodes s1 !! ("/calico/host/" ++ hostname ++ "/bird6_ip")
          = Some (Some (Text bird6_ip)) ∧
        nodes s1 !! ("/calico/host/" ++ hostname ++ "/config/marker")
          = Some (Some (Text "created")) ∧
        exists_node (HOST_PATH hostname ++ "workload") s1 = true ∧
        (∀ x, nodes s !! ("/calico/host/" ++ hostname ++ "/workload") = Some x →
              nodes s1 !! ("/calico/host/" ++ hostname ++ "/workload") = Some x) ∧
        (∀ k, k ≠ "/calico/host/" ++ hostname ++ "/bird_ip" →
              k ≠ "/calico/host/" ++ hostname ++ "/bird6_ip" →
              k ≠ "/calico/host/" ++ hostname ++ "/config/marker" →
              k ≠ "/calico/host/" ++ hostname ++ "/workload" →
              nodes s1 !! k = nodes s !! k).
Proof.
  unfold create_host, bind, write.
  change "/bird_ip" with ("/" ++ "bird_ip").
  change "/bird6_ip" with ("/" ++ "bird6_ip").
  change "/config/marker" with ("/" ++ "config/marker").
  change "/workload" with ("/" ++ "workload").
  rewrite !host_key by done.
  set (P := "/calico/host/" ++ hostname ++ "/").
  assert (HP : ∀ leaf, "/calico/host/" ++ hostname ++ "/" ++ leaf = P ++ leaf)
    by (intros leaf; unfold P; by rewrite !append_assoc).
  rewrite !HP.
  assert (Hne : ∀ a b : string, a ≠ b → P ++ a ≠ P ++ b)
    by (intros a b Hab Heq; by apply (inj (String.app _)) in Heq).
  set (s3 := mkStore _ _).
  assert (H3 : ∀ k, k ≠ P ++ "bird_ip" → k ≠ P ++ "bird6_ip" →
                    k ≠ P ++ "config/marker" → nodes s3 !! k = nodes s !! k).
  { intros k Hk1 Hk2 Hk3. unfold s3. simpl. by rewrite !lookup_insert_ne. }
  assert (Hwk : rstrip_slash (HOST_PATH hostname ++ "workload") = P ++ "workload")
    by (rewrite host_key by done; apply HP).
  unfold except_KeyError.
  destruct (exists_node (HOST_PATH hostname ++ "workload") s3) eqn:He.
  - destruct (read_present _ false _ He) as [r ->]. exists s3.
    split; [done|]. unfold s3 at 1 2 3. simpl.
    repeat split;
      try (repeat (rewrite lookup_insert_eq
                   || rewrite lookup_insert_ne by (by apply Hne)); done).
    intros k Hk1 Hk2 Hk3 _. by apply H3.
  - rewrite (read_absent _ _ _ He). unfold write_dir. rewrite Hwk.
    eexists. split; [reflexivity|]. simpl.
    repeat split;
      try (repeat (rewrite lookup_insert_eq
                   || rewrite lookup_insert_ne by (by apply Hne)); done).
    + apply exists_node_stored. exists (P ++ "workload"), None.
      split; [simpl; by rewrite lookup_insert_eq|].
      rewrite Hwk. apply at_or_under_refl.
    + intros x Hx. apply exists_node_false in He as [He _].
      rewrite Hwk, H3 in He by (by apply Hne). congruence.
    + intros k Hk1 Hk2 Hk3 Hk4. by rewrite !lookup_insert_ne.
Qed.

(** X18.  What [create_host] writes.  It returns on every store; the
    host's [bird_ip], [bird6_ip] and [config/marker] keys then hold the two
    addresses given and the text [created], the host's workload directory
    exists, a workload directory that was there is left as it was, and no
    other key has changed: the containers registered under a host survive
    creating the host again. *)
Theorem create_host_writes (hostname bird_ip bird6_ip : string) (s : store) :
  ∃ s1, create_host hostname bird_ip bird6_ip s = (Ok (), s1) ∧
        nodes s1 !! ("/calico/host/" ++ hostname ++ "/bird_ip")
          = Some (Some (Text bird_ip)) ∧
        nodes s1 !! ("/calico/host/" ++ hostname ++ "/bird6_ip")
          = Some (Some (Text bird6_ip)) ∧
        nodes s1 !! ("/calico/host/" ++ hostname ++ "/config/marker")
          = Some (Some (Text "created")) ∧
        exists_node (HOST_PATH hostname ++ "workload") s1 = true ∧
        (∀ x, nodes s !! ("/calico/host/" ++ hostname ++ "/workload") = Some x →
              nodes s1 !! ("/calico/host/" ++ hostname ++ "/workload") = Some x) ∧
        (∀ k, k ≠ "/calico/host/" ++ hostname ++ "/bird_ip" →
              k ≠ "/calico/host/" ++ hostname ++ "/bird6_ip" →
              k ≠ "/calico/host/" ++ hostname ++ "/config/marker" →
              k ≠ "/calico/host/" ++ hostname ++ "/workload" →
              nodes s1 !! k = nodes s !! k).
Proof. apply create_host_run. Qed.

(** X19.  A host reports the addresses it was created with.  After
    [create_host] with the texts of two addresses, [get_default_next_hops]
    for that host returns the first under key 4 and the second under key
    6, and nothing else. *)
Theorem created_host_next_hops (hostname : string) (a4 a6 : IPAddress) (s : store) :
  addr_wf a4 → addr_wf a6 →
  ∃ s1 hops,
    create_host hostname (IPAddress_str a4) (IPAddress_str a6) s = (Ok (), s1) ∧
    get_default_next_hops hostname s1 = (Ok hops, s1) ∧
    hops !! 4%Z = Some a4 ∧ hops !! 6%Z = Some a6 ∧
    (∀ k, k ≠ 4%Z → k ≠ 6%Z → hops !! k = None).
Proof.
  intros H4 H6.
  destruct (create_host_run hostname (IPAddress_str a4) (IPAddress_str a6) s)
    as (s1 & Hrun & Hk4 & Hk6 & _).
  destruct (get_default_next_hops_run hostname s1 _ _ Hk4 Hk6)
    as (hops & Hhops & Hh4 & Hh6 & Hother).
  - intros e He. by rewrite IPAddress_of_str in He.
  - intros e He. by rewrite IPAddress_of_str in He.
  - exists s1, hops. split; [done|]. split; [done|].
    split; [by apply Hh4, IPAddress_of_str|].
    split; [by apply Hh6, IPAddress_of_str|done].
Qed.

End host_config.

Lemma created_host_next_hops_witness :
  ∃ s1 hops,
    create_host "h1" (IPAddress_str (mkAddr IPv4 167772161))
                (IPAddress_str (mkAddr IPv6 1)) (mkStore ∅ 0) = (Ok (), s1) ∧
    get_default_next_hops "h1" s1 = (Ok hops, s1) ∧
    hops !! 4%Z = Some (mkAddr IPv4 167772161) ∧ hops !! 6%Z = Some (mkAddr IPv6 1) ∧
    (∀ k, k ≠ 4%Z → k ≠ 6%Z → hops !! k = None).
Proof.
  apply (created_host_next_hops "h1" (mkAddr IPv4 167772161) (mkAddr IPv6 1) (mkStore ∅ 0)).
  - by vm_compute.
  - by vm_compute.
Defined.


(* ===================================================================== *)
(** * Pools: the version guard, and adding then deleting *)
(* ===================================================================== *)

Section pool_cycle.
Context {nt : AddrText}.

Lemma assert_version_fails (version : string) (s : store) :
  version ∉ ["v4"; "v6"] → assert_version version s = (Raise AssertionError, s).
Proof. intros Hv. unfold assert_version. by rewrite bool_decide_eq_false_2. Qed.

(** X20.  The pool operations refuse every version but [v4] and [v6]
    before they look at the store: [get_ip_pools], [add_ip_pool] and
    [del_ip_pool] raise [AssertionError] and the store is as it was. *)
Theorem pool_version_guard (version : string) (s : store) :
  version ∉ ["v4"; "v6"] →
  get_ip_pools version s = (Raise AssertionError, s) ∧
  (∀ pool, add_ip_pool version pool s = (Raise AssertionError, s)) ∧
  (∀ pool, del_ip_pool version pool s = (Raise AssertionError, s)).
Proof.
  intros Hv. pose proof (assert_version_fails version s Hv) as Ha.
  unfold get_ip_pools, add_ip_pool, del_ip_pool, bind. by rewrite Ha.
Qed.

Lemma del_ip_pool_key (version : string) (pool : IPNetwork) (s : store)
    (pools : pooldict) (k : string) :
  version = "v4" ∨ version = "v6" → normal_keys s →
  _get_ip_pools_with_keys version s = (Ok pools, s) →
  pooldict_get pools (cidr pool) = Some k →
  del_ip_pool version pool s = (Ok (), mkStore (base.delete k (nodes s)) (index s)).
Proof.
  intros Hv Hnorm Hpools Hget.
  destruct (get_ip_pools_with_keys_entry _ _ _ _ _ Hpools Hget) as (t & q & Hk & _).
  unfold del_ip_pool, bind. rewrite (assert_version_ok _ _ Hv), Hpools, Hget.
  unfold except_KeyError. by rewrite (delete_value k (Text t) s (Hnorm _ _ Hk) Hk).
Qed.

Lemma next_pool_key_normal (version : string) (s : store) :
  rstrip_slash (next_pool_key version s) = next_pool_key version s.
Proof.
  unfold next_pool_key. rewrite <- append_assoc.
  apply rstrip_slash_append.
  - intros H. pose proof (undec_dec (index s)) as Hn. by rewrite H in Hn.
  - apply rstrip_slash_plain, dec_no_separator. by right; right.
Qed.

Lemma add_then_del_run (version : string) (pool : IPNetwork) (s : store)
    (configured : list IPNetwork) :
  version = "v4" ∨ version = "v6" → net_wf pool → normal_keys s →
  not_a_value s (rstrip_slash (IP_POOL_PATH version)) →
  nodes s !! next_pool_key version s = None →
  get_ip_pools version s = (Ok configured, s) →
  netset_mem (cidr pool) configured = false →
  ∃ s1 s2, add_ip_pool version pool s = (Ok (), s1) ∧
           del_ip_pool version pool s1 = (Ok (), s2) ∧
           get_ip_pools version s2 = (Ok configured, s2) ∧
           del_ip_pool version pool s2
           = (Raise (KeyError (IPNetwork_str pool ++ " is not a configured IP pool.")), s2).
Proof.
  intros Hv Hwf Hnorm Hroot Hfresh Hcfg Hmem.
  destruct (add_ip_pool_run version pool s configured Hv Hwf Hroot Hcfg)
    as (s1 & Hadd & Hs1 & (configured1 & Hcfg1 & Hmem1) & _).
  rewrite Hmem in Hs1. destruct Hs1 as [Hs1 Honly].
  set (K := next_pool_key version s) in *.
  assert (Hnorm1 : normal_keys s1).
  { intros k v. rewrite Hs1. simpl. destruct (decide (k = K)) as [->|Hk].
    - intros _. apply next_pool_key_normal.
    - rewrite lookup_insert_ne by done. apply Hnorm. }
  assert (Hroot1 : not_a_value s1 (rstrip_slash (IP_POOLS_PATH version))).
  { rewrite Hs1. by apply not_a_value_after. }
  destruct (get_ip_pools_keys version s1 configured1 Hv Hcfg1) as (pools1 & Hpools1 & ->).
  rewrite pooldict_get_mem in Hmem1. apply bool_decide_eq_true in Hmem1 as [k Hget].
  pose proof Hpools1 as Hfold.
  rewrite (get_ip_pools_with_keys_children version s1 Hroot1) in Hfold.
  injection Hfold as Hfold.
  destruct (foldlM_pool_step_get _ _ _ _ _ Hfold Hget) as [?|(c & q & Hc & Hck & Ht & Hq & Hpq)];
    [done|].
  assert (Hk : k = K).
  { rewrite <- Hck. apply Honly; [done|]. split; [done|]. by exists q. }
  rewrite Hk in Hget.
  pose proof (del_ip_pool_key version pool s1 pools1 K Hv Hnorm1 Hpools1 Hget) as Hdel.
  set (s2 := mkStore _ _) in Hdel.
  assert (Hnodes : nodes s2 = nodes s).
  { unfold s2. rewrite Hs1. simpl. rewrite delete_insert_eq. by apply delete_id. }
  exists s1, s2. split; [done|]. split; [done|].
  assert (Hnorm2 : normal_keys s2) by (intros k' v; rewrite Hnodes; apply Hnorm).
  assert (Hroot2 : not_a_value s2 (rstrip_slash (IP_POOLS_PATH version)))
    by (intros v; rewrite Hnodes; apply Hroot).
  assert (Hsame : child_nodes (rstrip_slash (IP_POOLS_PATH version)) s2
                  = child_nodes (rstrip_slash (IP_POOLS_PATH version)) s).
  { unfold child_nodes, descendants, node_at. by rewrite Hnodes. }
  pose proof (get_ip_pools_children version s Hv Hroot) as Hs.
  rewrite Hcfg in Hs. apply (f_equal fst) in Hs. cbn [fst] in Hs.
  pose proof (get_ip_pools_children version s2 Hv Hroot2) as Hcfg2.
  rewrite Hsame in Hcfg2. rewrite <- Hs in Hcfg2.
  split; [done|].
  by apply (del_ip_pool_run version pool s2 configured Hv Hnorm2 Hcfg2).
Qed.

(** X21.  Adding a pool and deleting it again.  On a store whose next
    in-order key is free and that does not hold the pool: [add_ip_pool]
    and then [del_ip_pool] both return, [get_ip_pools] then returns the
    pools it returned before the two calls, and deleting the pool once
    more raises the error that names it as not configured. *)
Theorem add_then_del_pool (version : string) (pool : IPNetwork) (s : store)
    (configured : list IPNetwork) :
  version = "v4" ∨ version = "v6" → net_wf pool → normal_keys s →
  not_a_value s (rstrip_slash (IP_POOL_PATH version)) →
  nodes s !! next_pool_key version s = None →
  get_ip_pools version s = (Ok configured, s) →
  netset_mem (cidr pool) configured = false →
  ∃ s1 s2, add_ip_pool version pool s = (Ok (), s1) ∧
           del_ip_pool version pool s1 = (Ok (), s2) ∧
           get_ip_pools version s2 = (Ok configured, s2) ∧
           del_ip_pool version pool s2
           = (Raise (KeyError (IPNetwork_str pool ++ " is not a configured IP pool.")), s2).
Proof. apply add_then_del_run. Qed.

End pool_cycle.

Lemma pool_version_guard_witness :
  get_ip_pools "v5" one_pool_store = (Raise AssertionError, one_pool_store) ∧
  (∀ pool, add_ip_pool "v5" pool one_pool_store = (Raise AssertionError, one_pool_store)) ∧
  (∀ pool, del_ip_pool "v5" pool one_pool_store = (Raise AssertionError, one_pool_store)).
Proof.
  apply (pool_version_guard "v5" one_pool_store).
  intros H. apply list_elem_of_In in H. simpl in H. intuition discriminate.
Defined.

Lemma add_then_del_pool_witness :
  ∃ s1 s2, add_ip_pool "v4" (mkNet IPv4 3232235777 16) one_pool_store = (Ok (), s1) ∧
           del_ip_pool "v4" (mkNet IPv4 3232235777 16) s1 = (Ok (), s2) ∧
           get_ip_pools "v4" s2 = (Ok [mkNet IPv4 167772160 8], s2) ∧
           del_ip_pool "v4" (mkNet IPv4 3232235777 16) s2
           = (Raise (KeyError (IPNetwork_str (mkNet IPv4 3232235777 16)
                               ++ " is not a configured IP pool.")), s2).
Proof.
  apply (add_then_del_pool "v4" (mkNet IPv4 3232235777 16) one_pool_store
           [mkNet IPv4 167772160 8]).
  - by left.
  - split; by vm_compute.
  - apply normal_keys_one_pool.
  - intros v. by vm_compute.
  - by vm_compute.
  - by vm_compute.
  - by vm_compute.
Defined.


(* ===================================================================== *)
(** * What a Rule holds, and the codec on endpoints with gateways *)
(* ===================================================================== *)

Section invariants.
Context {nt : AddrText}.

Lemma foldlM_setitem_keys (l : list (string * json)) (acc r : Rule) :
  foldlM (λ self kv, Rule_setitem self kv.1 kv.2) acc l = Ok r →
  (∀ k, k ∈ dom acc → k ∈ ALLOWED_KEYS) →
  ∀ k, k ∈ dom r → k ∈ ALLOWED_KEYS.
Proof.
  revert acc. induction l as [|[k0 v0] l IH]; intros acc Hrun Hacc.
  - by injection Hrun as <-.
  - cbn [foldlM] in Hrun. unfold Rule_setitem at 1 in Hrun. cbn [fst snd] in Hrun.
    destruct (bool_decide (k0 ∈ ALLOWED_KEYS)) eqn:Hk0; [|done].
    apply bool_decide_eq_true in Hk0. cbn [rbind] in Hrun.
    apply (IH _ Hrun). intros k Hk.
    rewrite dom_insert_L in Hk. apply elem_of_union in Hk as [Hk|Hk].
    + by apply elem_of_singleton in Hk as ->.
    + by apply Hacc.
Qed.

(** X22.  A Rule never holds a key outside [ALLOWED_KEYS].  Whatever
    keyword arguments it is built from and whatever items are set on it
    afterwards, if all of that returns, every key of the Rule is one of the
    allowed keys. *)
Theorem Rule_keys_allowed (kwargs : gmap string json) (updates : list (string * json))
    (r : Rule) :
  rbind (Rule_init kwargs)
        (λ r0, foldlM (λ self kv, Rule_setitem self kv.1 kv.2) r0 updates) = Ok r →
  ∀ k, k ∈ dom r → k ∈ ALLOWED_KEYS.
Proof.
  intros Hrun. destruct (Rule_init kwargs) as [r0|e] eqn:Hinit; [|done].
  cbn [rbind] in Hrun. apply (foldlM_setitem_keys _ _ _ Hrun).
  apply (foldlM_setitem_keys _ _ _ Hinit). intros k Hk.
  by apply not_elem_of_empty in Hk.
Qed.

(** X23.  The codec round trip on endpoints whose gateways are absent or
    not zero.  For every such endpoint, with networks and addresses that
    fit their version and no network twice in a set, decoding the encoding
    under the endpoint's own id gives the endpoint back, gateways
    included. *)
Theorem endpoint_round_trip (e : Endpoint) :
  Endpoint_wf e →
  (∀ a, ipv4_gateway e = Some a → IPAddress_bool a = true) →
  (∀ a, ipv6_gateway e = Some a → IPAddress_bool a = true) →
  from_json (ep_id e) (to_json e) = Ok e.
Proof.
  intros Hwf H4 H6. rewrite (from_json_to_json e Hwf). destruct e as [i st m p n4 n6 g4 g6].
  simpl in *. do 2 f_equal.
  - destruct g4 as [a|]; [|done]. simpl. by rewrite (H4 a).
  - destruct g6 as [a|]; [|done]. simpl. by rewrite (H6 a).
Qed.

End invariants.

Lemma Rule_keys_allowed_witness :
  rbind (Rule_init {["action" := (JStr "allow")]})
        (λ r0, foldlM (λ self kv, Rule_setitem self kv.1 kv.2) r0
                 [("protocol", JStr "tcp"); ("action", JStr "deny")])
  = Ok {["protocol" := JStr "tcp"; "action" := JStr "deny"]} ∧
  "protocol" ∈ ALLOWED_KEYS.
Proof.
  assert (Hrun : rbind (Rule_init {["action" := (JStr "allow")]})
                   (λ r0, foldlM (λ self kv, Rule_setitem self kv.1 kv.2) r0
                            [("protocol", JStr "tcp"); ("action", JStr "deny")])
                 = Ok {["protocol" := JStr "tcp"; "action" := JStr "deny"]})
    by (by vm_compute).
  split; [exact Hrun|].
  apply (Rule_keys_allowed _ _ _ Hrun). by vm_compute.
Defined.

Lemma endpoint_round_trip_witness :
  from_json (ep_id routed_endpoint) (to_json routed_endpoint) = Ok routed_endpoint.
Proof.
  apply (endpoint_round_trip routed_endpoint).
  - split; simpl.
    + done.
    + done.
    + repeat constructor; vm_compute; congruence.
    + repeat constructor; vm_compute; congruence.
    + intros a [= <-]. by vm_compute.
    + intros a [= <-]. by vm_compute.
  - intros a [= <-]. reflexivity.
  - intros a [= <-]. reflexivity.
Defined.

